(** * BladeOfGrass path-planning prototype: editor, geometry and playback

    A shallow embedding of the browser front end (js/canvas.js, js/controls.js
    and js/app.js) together with the properties of its geometry helpers, its
    drawing state machine, its view transform, its playback controller, its
    mock planner and its statistics panel.

    Conventions of the embedding.
    - JavaScript numbers are idealised as exact rationals ([Q]); every
      statement about numeric values is therefore a statement about the
      arithmetic the code performs, not about IEEE rounding.  The two places
      where the code can produce a non-finite number ([Infinity] bounds of an
      empty bounding box, [NaN] from [parseFloat]) are modelled with [option].
      Where the rounding of doubles can show in a result (the last digit
      [calculatePolygonArea] prints, the answer of [isPointInPolygon] for a
      point within rounding distance of an edge, the number of sweeps of
      [generateMockPath], a pan offset recomputed by [zoomIn], [zoomOut] or
      a drag), the property concerned says that it is stated for exact
      arithmetic.
    - DOM writes ([render], overlay and status text, button enabling) do not
      feed back into the program state and are left out; the enabling
      conditions of the buttons are kept as boolean functions of the state.
    - [Date.now()] and the pointer coordinates are inputs of the handlers.
    - [setTimeout(animate, delay)] is modelled by a list of pending timers,
      each holding the delay and the path captured by the closure. *)

From Stdlib Require Import String Ascii QArith Qround Qabs Qminmax ZArith NArith.
From Stdlib Require Import Bool Lia Lqa Arith Setoid Morphisms Permutation List.
From Stdlib Require Import DecimalString DecimalPos DecimalN DecimalZ.
Import ListNotations.

Open Scope Q_scope.

(** ** JavaScript values that cross the number/string border *)

Module Js.

(** [calculatePolygonArea] returns either the number [0] or the string
    produced by [toFixed(1)]; both kinds of result are kept apart. *)
Inductive Value : Type :=
  | Number (q : Q)
  | Str (s : string).

(** Decimal digits of a natural number, as [Number.prototype.toString]
    prints an integer. *)
Definition digits (n : N) : string :=
  NilZero.string_of_uint (N.to_uint n).

(** The integer [n] for which [n / 10] is closest to [|x|], the larger one
    on a tie (step 10.a of [Number.prototype.toFixed]). *)
Definition tenths (x : Q) : Z := Qfloor (Qabs x * 10 + (1 # 2)).

(** [x.toFixed(1)] for a finite [x] below [1e21]. *)
Definition toFixed1 (x : Q) : string :=
  let n := Z.to_N (tenths x) in
  let body :=
    (digits (n / 10) ++ String "."%char (digits (n mod 10)))%string in
  if Qle_bool 0 x then body else String "-"%char body.


Definition isDigit (c : ascii) : bool :=
  match c with
  | "0" | "1" | "2" | "3" | "4" | "5" | "6" | "7" | "8" | "9" => true
  | _ => false
  end%char.

(** Longest prefix of decimal digits and the rest of the string. *)
Fixpoint spanDigits (s : string) : string * string :=
  match s with
  | String c r =>
      if isDigit c
      then let (d, rest) := spanDigits r in (String c d, rest)
      else (EmptyString, s)
  | EmptyString => (EmptyString, EmptyString)
  end.

Definition natOfDigits (s : string) : option N :=
  option_map N.of_uint (NilZero.uint_of_string s).

(** The unsigned part of a decimal literal: digits, then optionally a dot
    and more digits.  At least one digit is required on one side. *)
Definition parseUnsigned (s : string) : option Q :=
  let (ip, rest) := spanDigits s in
  let fp :=
    match rest with
    | String "."%char r => fst (spanDigits r)
    | _ => EmptyString
    end in
  match ip, fp with
  | EmptyString, EmptyString => None
  | _, _ =>
      let iv := match natOfDigits ip with Some n => n | None => 0%N end in
      let fv := match natOfDigits fp with Some n => n | None => 0%N end in
      Some (inject_Z (Z.of_N iv)
            + inject_Z (Z.of_N fv) / inject_Z (10 ^ Z.of_nat (String.length fp)))
  end.

(** [parseFloat] on a string: an optional sign followed by a decimal
    literal; trailing text is ignored; [None] is [NaN].  Leading white
    space, exponents and [Infinity] do not occur in the strings this
    program parses and are not recognised. *)
Definition parseFloatStr (s : string) : option Q :=
  match s with
  | String "-"%char r => option_map Qopp (parseUnsigned r)
  | String "+"%char r => parseUnsigned r
  | _ => parseUnsigned s
  end.

(** [parseFloat(v)]: a number is first converted to its text, which parses
    back to the same value. *)
Definition parseFloat (v : Value) : option Q :=
  match v with
  | Number q => Some q
  | Str s => parseFloatStr s
  end.

End Js.

(** ** Points and the shoelace sum *)

Record Point : Type := mkPoint { px : Q; py : Q }.

Definition origin : Point := mkPoint 0 0.

(** [points[i]]; the loops below only use indices inside the array. *)
Definition at_ (points : list Point) (i : nat) : Point := nth i points origin.


(** Signed contribution of the edge from [p] to [q]. *)
Definition cross (p q : Point) : Q := px p * py q - px q * py p.

(** ** Shared data of the editor *)

Inductive Mode : Type :=
  | ModeReady              (* 'ready' *)
  | ModeBoundary           (* 'boundary' *)
  | ModeObstacle           (* 'obstacle' *)
  | ModeObstacleDynamic.   (* 'obstacle-dynamic' *)

Definition Mode_eqb (a b : Mode) : bool :=
  match a, b with
  | ModeReady, ModeReady
  | ModeBoundary, ModeBoundary
  | ModeObstacle, ModeObstacle
  | ModeObstacleDynamic, ModeObstacleDynamic => true
  | _, _ => false
  end.

Inductive ObstacleType : Type := Static | Dynamic.

Record Obstacle : Type := mkObstacle {
  obs_id : string;
  obs_points : list Point;
  obs_type : ObstacleType
}.

(** The value of [Math.atan2(dy, dx)], kept symbolic. *)
Inductive Angle : Type := Atan2 (dy dx : Q).

Record Pose : Type := mkPose {
  pose_x : Q;
  pose_y : Q;
  pose_heading : Angle
}.

(** The text of an integer, as a template literal prints it. *)
Definition intString (z : Z) : string := NilZero.string_of_int (Z.to_int z).

(** ** canvas.js: CanvasManager *)

Module Canvas.

#[projections(primitive)]
Record State : Type := mkState {
  boundary : list Point;       (* the work area; also its own drawing buffer *)
  obstacles : list Obstacle;
  dynamicObstacles : list Obstacle;
  plannedPath : list Point;
  currentPath : list Point;
  robotPosition : option Pose;
  mode : Mode;
  currentObstacle : list Point; (* vertex buffer of the obstacle being drawn *)
  highlightedObstacle : option string;
  scale : Q;
  panX : Q;
  panY : Q;
  isPanning : bool;
  lastPanPoint : Point;
  mousePosition : option Point;
  width : Q;                   (* canvas.width *)
  height : Q                   (* canvas.height *)
}.

Definition set_boundary (v : list Point) (c : State) : State :=
  let '(mkState _ o d pp cp rp m co hl sc px_ py_ ip lp mp w h) := c in
  mkState v o d pp cp rp m co hl sc px_ py_ ip lp mp w h.

Definition set_obstacles (v : list Obstacle) (c : State) : State :=
  let '(mkState b _ d pp cp rp m co hl sc px_ py_ ip lp mp w h) := c in
  mkState b v d pp cp rp m co hl sc px_ py_ ip lp mp w h.

Definition set_dynamicObstacles (v : list Obstacle) (c : State) : State :=
  let '(mkState b o _ pp cp rp m co hl sc px_ py_ ip lp mp w h) := c in
  mkState b o v pp cp rp m co hl sc px_ py_ ip lp mp w h.

Definition set_plannedPath (v : list Point) (c : State) : State :=
  let '(mkState b o d _ cp rp m co hl sc px_ py_ ip lp mp w h) := c in
  mkState b o d v cp rp m co hl sc px_ py_ ip lp mp w h.

Definition set_currentPath (v : list Point) (c : State) : State :=
  let '(mkState b o d pp _ rp m co hl sc px_ py_ ip lp mp w h) := c in
  mkState b o d pp v rp m co hl sc px_ py_ ip lp mp w h.

Definition set_robotPosition (v : option Pose) (c : State) : State :=
  let '(mkState b o d pp cp _ m co hl sc px_ py_ ip lp mp w h) := c in
  mkState b o d pp cp v m co hl sc px_ py_ ip lp mp w h.

Definition set_mode (v : Mode) (c : State) : State :=
  let '(mkState b o d pp cp rp _ co hl sc px_ py_ ip lp mp w h) := c in
  mkState b o d pp cp rp v co hl sc px_ py_ ip lp mp w h.

Definition set_currentObstacle (v : list Point) (c : State) : State :=
  let '(mkState b o d pp cp rp m _ hl sc px_ py_ ip lp mp w h) := c in
  mkState b o d pp cp rp m v hl sc px_ py_ ip lp mp w h.

Definition set_highlightedObstacle (v : option string) (c : State) : State :=
  let '(mkState b o d pp cp rp m co _ sc px_ py_ ip lp mp w h) := c in
  mkState b o d pp cp rp m co v sc px_ py_ ip lp mp w h.

Definition set_scale (v : Q) (c : State) : State :=
  let '(mkState b o d pp cp rp m co hl _ px_ py_ ip lp mp w h) := c in
  mkState b o d pp cp rp m co hl v px_ py_ ip lp mp w h.

Definition set_panX (v : Q) (c : State) : State :=
  let '(mkState b o d pp cp rp m co hl sc _ py_ ip lp mp w h) := c in
  mkState b o d pp cp rp m co hl sc v py_ ip lp mp w h.

Definition set_panY (v : Q) (c : State) : State :=
  let '(mkState b o d pp cp rp m co hl sc px_ _ ip lp mp w h) := c in
  mkState b o d pp cp rp m co hl sc px_ v ip lp mp w h.

Definition set_isPanning (v : bool) (c : State) : State :=
  let '(mkState b o d pp cp rp m co hl sc px_ py_ _ lp mp w h) := c in
  mkState b o d pp cp rp m co hl sc px_ py_ v lp mp w h.

Definition set_lastPanPoint (v : Point) (c : State) : State :=
  let '(mkState b o d pp cp rp m co hl sc px_ py_ ip _ mp w h) := c in
  mkState b o d pp cp rp m co hl sc px_ py_ ip v mp w h.

Definition set_mousePosition (v : option Point) (c : State) : State :=
  let '(mkState b o d pp cp rp m co hl sc px_ py_ ip lp _ w h) := c in
  mkState b o d pp cp rp m co hl sc px_ py_ ip lp v w h.

Definition minScale : Q := 2 # 10.
Definition maxScale : Q := 5.

(** The state the constructor leaves, for a canvas of the given size. *)
Definition init (w h : Q) : State :=
  mkState [] [] [] [] [] None ModeReady [] None 1 0 0 false origin None w h.

(** The pointer position relative to the canvas is the handlers' input;
    this is the screen-to-world transform. *)
Definition getMousePosition (canvasX canvasY : Q) (c : State) : Point :=
  mkPoint ((canvasX - panX c) / scale c) ((canvasY - panY c) / scale c).

Definition setMode (newMode : Mode) (c : State) : State :=
  let c :=
    match newMode with
    | ModeReady =>
        let c :=
          if ((0 <? length (boundary c)) && (length (boundary c) <? 3))%nat
          then set_boundary [] c
          else c in
        set_currentObstacle [] c
    | _ => c
    end in
  let c := set_mode newMode c in
  let c := set_currentObstacle [] c in
  set_mousePosition None c.

Definition addBoundaryPoint (pos : Point) (c : State) : State :=
  set_boundary (boundary c ++ [pos]) c.

Definition finishBoundary (c : State) : State :=
  if (3 <=? length (boundary c))%nat then setMode ModeReady c
  else if (0 <? length (boundary c))%nat
       then setMode ModeReady (set_boundary [] c)
       else c.

Definition addObstaclePoint (pos : Point) (c : State) : State :=
  set_currentObstacle (currentObstacle c ++ [pos]) c.

(** [now] is the reading of [Date.now()]. *)
Definition finishObstacle (now : Z) (c : State) : State :=
  if (3 <=? length (currentObstacle c))%nat then
    let obstacleId := ("obstacle_" ++ intString now)%string in
    let c :=
      set_obstacles
        (obstacles c ++ [mkObstacle obstacleId (currentObstacle c) Static]) c in
    let c := set_currentObstacle [] c in
    setMode ModeReady c
  else if (0 <? length (currentObstacle c))%nat
       then setMode ModeReady (set_currentObstacle [] c)
       else c.

Definition addDynamicObstaclePoint (pos : Point) (c : State) : State :=
  set_currentObstacle (currentObstacle c ++ [pos]) c.

Definition finishDynamicObstacle (now : Z) (c : State) : State :=
  if (3 <=? length (currentObstacle c))%nat then
    let obstacleId := ("dynamic_" ++ intString now)%string in
    let c :=
      set_dynamicObstacles
        (dynamicObstacles c
           ++ [mkObstacle obstacleId (currentObstacle c) Dynamic]) c in
    let c := set_currentObstacle [] c in
    setMode ModeReady c
  else setMode ModeReady (set_currentObstacle [] c).

Definition handleClick (canvasX canvasY : Q) (c : State) : State :=
  let pos := getMousePosition canvasX canvasY c in
  match mode c with
  | ModeBoundary => addBoundaryPoint pos c
  | ModeObstacle => addObstaclePoint pos c
  | ModeObstacleDynamic => addDynamicObstaclePoint pos c
  | ModeReady => c
  end.

Definition handleRightClick (now : Z) (c : State) : State :=
  match mode c with
  | ModeBoundary =>
      if (3 <=? length (boundary c))%nat then finishBoundary c else c
  | ModeObstacle =>
      if (3 <=? length (currentObstacle c))%nat then finishObstacle now c
      else c
  | ModeObstacleDynamic =>
      if (3 <=? length (currentObstacle c))%nat
      then finishDynamicObstacle now c
      else c
  | ModeReady => c
  end.

(** The pan increments are exact here and rounded to doubles in the
    code. *)
Definition handleMouseMove (canvasX canvasY : Q) (c : State) : State :=
  let currentMousePos := getMousePosition canvasX canvasY c in
  if isPanning c then
    let c := set_panX (panX c + (canvasX - px (lastPanPoint c))) c in
    let c := set_panY (panY c + (canvasY - py (lastPanPoint c))) c in
    set_lastPanPoint (mkPoint canvasX canvasY) c
  else
    if (Mode_eqb (mode c) ModeBoundary && (0 <? length (boundary c))%nat)
       || ((Mode_eqb (mode c) ModeObstacle
            || Mode_eqb (mode c) ModeObstacleDynamic)
           && (0 <? length (currentObstacle c))%nat)
    then set_mousePosition (Some currentMousePos) c
    else c.

(** [button] is [e.button]: 0 left, 1 middle. *)
Definition handleMouseDown (button : Z) (ctrlKey : bool)
    (canvasX canvasY : Q) (c : State) : State :=
  if (button =? 1)%Z || ((button =? 0)%Z && ctrlKey) then
    let c := set_isPanning true c in
    set_lastPanPoint (mkPoint canvasX canvasY) c
  else c.

Definition handleMouseUp (c : State) : State :=
  if isPanning c then set_isPanning false c else c.

Definition handleMouseLeave (c : State) : State :=
  if isPanning c then set_isPanning false c else c.

Definition handleWheel (mouseX mouseY deltaY : Q) (c : State) : State :=
  let zoomFactor := if Qle_bool deltaY 0 then 11 # 10 else 9 # 10 in
  let newScale := Qmax minScale (Qmin maxScale (scale c * zoomFactor)) in
  if negb (Qeq_bool newScale (scale c)) then
    let worldX := (mouseX - panX c) / scale c in
    let worldY := (mouseY - panY c) / scale c in
    let c := set_scale newScale c in
    let c := set_panX (mouseX - worldX * scale c) c in
    set_panY (mouseY - worldY * scale c) c
  else c.

Definition removeObstacle (obstacleId : string) (c : State) : State :=
  let keep := fun obs => negb (String.eqb (obs_id obs) obstacleId) in
  let c := set_obstacles (filter keep (obstacles c)) c in
  set_dynamicObstacles (filter keep (dynamicObstacles c)) c.

Definition setHighlightedObstacle (obstacleId : string) (c : State) : State :=
  set_highlightedObstacle (Some obstacleId) c.

Definition clearHighlightedObstacle (c : State) : State :=
  set_highlightedObstacle None c.

Definition reset (c : State) : State :=
  let c := set_boundary [] c in
  let c := set_obstacles [] c in
  let c := set_dynamicObstacles [] c in
  let c := set_plannedPath [] c in
  let c := set_currentPath [] c in
  let c := set_robotPosition None c in
  let c := set_currentObstacle [] c in
  let c := set_panX 0 c in
  let c := set_panY 0 c in
  setMode ModeReady c.

Definition canvasToMeters (pixels : Q) : string :=
  Js.toFixed1 (pixels / 50).

(** One pass of the loop body of [calculatePolygonArea]. *)
Definition areaStep (points : list Point) (area : Q) (i : nat) : Q :=
  let j := ((i + 1) mod length points)%nat in
  let area := area + px (at_ points i) * py (at_ points j) in
  area - px (at_ points j) * py (at_ points i).

(** The value of [area] when the loop is left. *)
Definition areaLoop (points : list Point) : Q :=
  fold_left (areaStep points) (seq 0 (length points)) 0.

(** Sum, halving and division are exact here; the code rounds each of them
    to a double before [toFixed(1)] prints the quotient. *)
Definition calculatePolygonArea (points : list Point) : Js.Value :=
  if (length points <? 3)%nat then Js.Number 0
  else
    let area := Qabs (areaLoop points) / 2 in
    Js.Str (Js.toFixed1 (area / (50 * 50))).

Definition setPlannedPath (path : list Point) (c : State) : State :=
  set_plannedPath path c.

Definition updateRobotPosition (position : Pose) (c : State) : State :=
  set_robotPosition (Some position) c.

(** [zoomIn] and [zoomOut] recompute the pan offsets without a guard; the
    quotient and the product are exact here and rounded to doubles in the
    code. *)
Definition zoomIn (c : State) : State :=
  let centerX := width c / 2 in
  let centerY := height c / 2 in
  let worldX := (centerX - panX c) / scale c in
  let worldY := (centerY - panY c) / scale c in
  let c := set_scale (Qmin maxScale (scale c * (12 # 10))) c in
  let c := set_panX (centerX - worldX * scale c) c in
  set_panY (centerY - worldY * scale c) c.

Definition zoomOut (c : State) : State :=
  let centerX := width c / 2 in
  let centerY := height c / 2 in
  let worldX := (centerX - panX c) / scale c in
  let worldY := (centerY - panY c) / scale c in
  let c := set_scale (Qmax minScale (scale c / (12 # 10))) c in
  let c := set_panX (centerX - worldX * scale c) c in
  set_panY (centerY - worldY * scale c) c.

Definition resetZoom (c : State) : State :=
  let c := set_scale 1 c in
  let c := set_panX 0 c in
  set_panY 0 c.

End Canvas.

(** ** controls.js: ControlsManager *)

(** A pending [setTimeout(animate, delay)]: the delay in milliseconds and
    the [path] array the [animate] closure captured. *)
Record Timer : Type := mkTimer {
  timer_delay : Z;
  timer_path : list Point
}.

(** The keys [handleKeyboard] distinguishes, after [toLowerCase]. *)
Inductive Key : Type :=
  | KeyR | KeyB | KeyP | KeyO | KeyD | KeySpace | KeyEscape
  | KeyPlus     (* '=' or '+' *)
  | KeyMinus    (* '-' or '_' *)
  | Key0
  | KeyOther.

Module Controls.

#[projections(primitive)]
Record State : Type := mkState {
  canvas : Canvas.State;
  isRunning : bool;
  isPaused : bool;
  currentSpeed : Z;
  obstacleCounter : Z;
  currentIndex : nat;
  progress : Q;
  timers : list Timer          (* callbacks scheduled and not yet run *)
}.

Definition set_canvas (v : Canvas.State) (s : State) : State :=
  let '(mkState _ r p sp oc ix pr ts) := s in mkState v r p sp oc ix pr ts.

Definition set_isRunning (v : bool) (s : State) : State :=
  let '(mkState cv _ p sp oc ix pr ts) := s in mkState cv v p sp oc ix pr ts.

Definition set_isPaused (v : bool) (s : State) : State :=
  let '(mkState cv r _ sp oc ix pr ts) := s in mkState cv r v sp oc ix pr ts.

Definition set_currentSpeed (v : Z) (s : State) : State :=
  let '(mkState cv r p _ oc ix pr ts) := s in mkState cv r p v oc ix pr ts.

Definition set_obstacleCounter (v : Z) (s : State) : State :=
  let '(mkState cv r p sp _ ix pr ts) := s in mkState cv r p sp v ix pr ts.

Definition set_currentIndex (v : nat) (s : State) : State :=
  let '(mkState cv r p sp oc _ pr ts) := s in mkState cv r p sp oc v pr ts.

Definition set_progress (v : Q) (s : State) : State :=
  let '(mkState cv r p sp oc ix _ ts) := s in mkState cv r p sp oc ix v ts.

Definition set_timers (v : list Timer) (s : State) : State :=
  let '(mkState cv r p sp oc ix pr _) := s in mkState cv r p sp oc ix pr v.

(** Apply a CanvasManager method to the shared canvas object. *)
Definition onCanvas (f : Canvas.State -> Canvas.State) (s : State) : State :=
  set_canvas (f (canvas s)) s.

Definition init (cv : Canvas.State) : State :=
  mkState cv false false 5 1 0 0 [].

(** *** Enabling of the buttons ([updateButtonStates]) *)

Definition hasBoundary (s : State) : bool :=
  (3 <=? length (Canvas.boundary (canvas s)))%nat.
Definition hasPath (s : State) : bool :=
  (0 <? length (Canvas.plannedPath (canvas s)))%nat.
Definition isDrawing (s : State) : bool :=
  negb (Mode_eqb (Canvas.mode (canvas s)) ModeReady).
Definition isSimulationActive (s : State) : bool := isRunning s.

Definition boundaryBtn_disabled (s : State) : bool :=
  isSimulationActive s
  || (isDrawing s && negb (Mode_eqb (Canvas.mode (canvas s)) ModeBoundary)).
Definition planBtn_disabled (s : State) : bool :=
  negb (hasBoundary s) || isDrawing s || isSimulationActive s.
Definition addObstacleBtn_disabled (s : State) : bool :=
  isSimulationActive s
  || (isDrawing s && negb (Mode_eqb (Canvas.mode (canvas s)) ModeObstacle)).
Definition addDynamicObstacleBtn_disabled (s : State) : bool :=
  isSimulationActive s
  || (isDrawing s
      && negb (Mode_eqb (Canvas.mode (canvas s)) ModeObstacleDynamic)).
Definition runBtn_disabled (s : State) : bool :=
  negb (hasPath s) || isRunning s || isDrawing s.
Definition pauseBtn_disabled (s : State) : bool :=
  negb (isRunning s) || isPaused s || isDrawing s.
Definition resumeBtn_disabled (s : State) : bool :=
  negb (isRunning s) || negb (isPaused s) || isDrawing s.
Definition stopBtn_disabled (s : State) : bool :=
  negb (isRunning s) || isDrawing s.

(** *** Playback *)

Definition stop (s : State) : State :=
  let s := set_isRunning false s in
  let s := set_isPaused false s in
  let s := set_currentIndex 0 s in
  let s := set_progress 0 s in
  onCanvas (Canvas.set_robotPosition None) s.

(** One call of the [animate] closure created by [startSimulation] for the
    captured [path]. *)
Definition animate (path : list Point) (s : State) : State :=
  if negb (isRunning s) || isPaused s then s
  else if (Z.of_nat (length path) - 1 <=? Z.of_nat (currentIndex s))%Z then
    stop s
  else
    let s :=
      match nth_error path (currentIndex s + 1),
            nth_error path (currentIndex s) with
      | Some next, Some current =>
          let heading :=
            Atan2 (py next - py current) (px next - px current) in
          let s :=
            onCanvas
              (Canvas.updateRobotPosition
                 (mkPose (px current) (py current) heading)) s in
          set_progress
            (inject_Z (Z.of_nat (currentIndex s + 1))
               / inject_Z (Z.of_nat (length path)) * 100) s
      | _, _ => s
      end in
    let s := set_currentIndex (currentIndex s + 1) s in
    let delay := Z.max 50 (500 - currentSpeed s * 45) in
    set_timers (timers s ++ [mkTimer delay path]) s.

Definition startSimulation (s : State) : State :=
  if negb (isRunning s) then s
  else
    let path := Canvas.plannedPath (canvas s) in
    if (length path =? 0)%nat then s
    else
      let s :=
        if negb (isPaused s) && (currentIndex s =? 0)%nat
        then set_progress 0 (set_currentIndex 0 s)
        else s in
      animate path s.

Definition run (s : State) : State :=
  if (length (Canvas.plannedPath (canvas s)) =? 0)%nat then s
  else
    let s := set_isRunning true s in
    let s := set_isPaused false s in
    let s := set_currentIndex 0 s in
    let s := set_progress 0 s in
    startSimulation s.

Definition pause (s : State) : State :=
  set_isPaused true s.

Definition resume (s : State) : State :=
  if isRunning s && isPaused s then
    let s := set_isPaused false s in
    startSimulation s
  else s.

(** The slider value, already an integer. *)
Definition updateSpeed (value : Z) (s : State) : State :=
  set_currentSpeed value s.

(** The [n]-th pending timer expires: it leaves the queue and its
    callback runs. *)
Definition fireTimer (n : nat) (s : State) : State :=
  match nth_error (timers s) n with
  | Some t =>
      let s := set_timers (firstn n (timers s) ++ skipn (S n) (timers s)) s in
      animate (timer_path t) s
  | None => s
  end.

(** *** Editing commands *)

Definition reset (s : State) : State :=
  let s := stop s in
  let s := onCanvas Canvas.reset s in
  set_obstacleCounter 1 s.

Definition startBoundary (s : State) : State :=
  match Canvas.mode (canvas s) with
  | ModeBoundary => onCanvas Canvas.finishBoundary s
  | _ => onCanvas (Canvas.setMode ModeBoundary) s
  end.

Definition addObstacle (now : Z) (s : State) : State :=
  match Canvas.mode (canvas s) with
  | ModeObstacle => onCanvas (Canvas.finishObstacle now) s
  | _ => onCanvas (Canvas.setMode ModeObstacle) s
  end.

Definition addDynamicObstacle (now : Z) (s : State) : State :=
  match Canvas.mode (canvas s) with
  | ModeObstacleDynamic => onCanvas (Canvas.finishDynamicObstacle now) s
  | _ => onCanvas (Canvas.setMode ModeObstacleDynamic) s
  end.

Definition removeObstacle (obstacleId : string) (s : State) : State :=
  onCanvas (Canvas.removeObstacle obstacleId) s.

Definition highlightObstacle (obstacleId : string) (s : State) : State :=
  onCanvas (Canvas.setHighlightedObstacle obstacleId) s.

Definition unhighlightObstacle (s : State) : State :=
  onCanvas Canvas.clearHighlightedObstacle s.

(** [generatePlan] changes nothing before its timeout; the path it then
    installs is an input here ([Canvas.setPlannedPath]). *)
Definition handleKeyboard (key : Key) (ctrlKey : bool) (now : Z)
    (s : State) : State :=
  match key with
  | KeyR => if ctrlKey then reset s else s
  | KeyB => startBoundary s
  | KeyP => s
  | KeyO => addObstacle now s
  | KeyD => addDynamicObstacle now s
  | KeySpace =>
      if isRunning s && negb (isPaused s) then pause s
      else if isPaused s then run s
      else s
  | KeyEscape =>
      match Canvas.mode (canvas s) with
      | ModeBoundary =>
          if (3 <=? length (Canvas.boundary (canvas s)))%nat
          then onCanvas Canvas.finishBoundary s
          else onCanvas (Canvas.setMode ModeReady) s
      | ModeObstacle =>
          if (3 <=? length (Canvas.currentObstacle (canvas s)))%nat
          then onCanvas (Canvas.finishObstacle now) s
          else onCanvas (Canvas.setMode ModeReady) s
      | ModeObstacleDynamic =>
          if (3 <=? length (Canvas.currentObstacle (canvas s)))%nat
          then onCanvas (Canvas.finishDynamicObstacle now) s
          else onCanvas (Canvas.setMode ModeReady) s
      | ModeReady => onCanvas (Canvas.setMode ModeReady) s
      end
  | KeyPlus => onCanvas Canvas.zoomIn s
  | KeyMinus => onCanvas Canvas.zoomOut s
  | Key0 => if ctrlKey then onCanvas Canvas.resetZoom s else s
  | KeyOther => s
  end.

(** *** Statistics helpers *)

Definition Qltb (a b : Q) : bool := negb (Qle_bool b a).
Definition Qgtb (a b : Q) : bool := negb (Qle_bool a b).

(** One pass of the loop of [isPointInPolygon]; the state is
    [(inside, j)].  The crossing abscissa is computed exactly; the code
    rounds its product, quotient and sum to doubles. *)
Definition pipStep (point : Point) (polygon : list Point)
    (st : bool * nat) (i : nat) : bool * nat :=
  let (inside, j) := st in
  let xi := px (at_ polygon i) in
  let yi := py (at_ polygon i) in
  let xj := px (at_ polygon j) in
  let yj := py (at_ polygon j) in
  let inside :=
    if negb (Bool.eqb (Qgtb yi (py point)) (Qgtb yj (py point)))
       && Qltb (px point) ((xj - xi) * (py point - yi) / (yj - yi) + xi)
    then negb inside
    else inside in
  (inside, i).

Definition isPointInPolygon (point : Point) (polygon : list Point) : bool :=
  if (length polygon <? 3)%nat then false
  else
    fst (fold_left (pipStep point polygon) (seq 0 (length polygon))
           (false, (length polygon - 1)%nat)).

(** The bounding box [(minX, maxX, minY, maxY)]; [None] while the four
    variables still hold their initial [Infinity]/[-Infinity]. *)
Definition Box : Type := option (Q * Q * Q * Q).

Definition boxStep (b : Box) (point : Point) : Box :=
  match b with
  | None => Some (px point, px point, py point, py point)
  | Some (minX, maxX, minY, maxY) =>
      Some (Qmin minX (px point), Qmax maxX (px point),
            Qmin minY (py point), Qmax maxY (py point))
  end.

Definition boundingBox (polygons : list (list Point)) : Box :=
  fold_left (fun b polygon => fold_left boxStep polygon b) polygons None.

Definition cellSize : Q := 2.

(** [gridWidth] and [gridHeight]; with infinite bounds both are
    [-Infinity] and neither loop runs, which [0] iterations renders. *)
Definition gridSize (b : Box) : Z * Z :=
  match b with
  | None => (0, 0)%Z
  | Some (minX, maxX, minY, maxY) =>
      (Qceiling ((maxX - minX) / cellSize),
       Qceiling ((maxY - minY) / cellSize))
  end.

Definition cellCenter (b : Box) (i j : nat) : Point :=
  match b with
  | None => origin
  | Some (minX, _, minY, _) =>
      mkPoint (minX + (inject_Z (Z.of_nat i) + (1 # 2)) * cellSize)
              (minY + (inject_Z (Z.of_nat j) + (1 # 2)) * cellSize)
  end.

(** The two nested loops: the final value of [coveredCells]. *)
Definition countCovered (polygons : list (list Point)) (b : Box) : nat :=
  let (gridWidth, gridHeight) := gridSize b in
  fold_left
    (fun coveredCells i =>
       fold_left
         (fun coveredCells j =>
            let isInsideAnyObstacle :=
              existsb (isPointInPolygon (cellCenter b i j)) polygons in
            if isInsideAnyObstacle then S coveredCells else coveredCells)
         (seq 0 (Z.to_nat gridHeight)) coveredCells)
    (seq 0 (Z.to_nat gridWidth)) 0%nat.

(** The result is a number; [None] is [NaN]. *)
Definition calculateUnionArea (polygons : list (list Point)) : option Q :=
  match polygons with
  | [] => Some 0
  | [polygon] => Js.parseFloat (Canvas.calculatePolygonArea polygon)
  | _ =>
      let coveredCells := countCovered polygons (boundingBox polygons) in
      let pixelArea :=
        inject_Z (Z.of_nat coveredCells) * cellSize * cellSize in
      let meterArea := pixelArea / (50 * 50) in
      Some meterArea
  end.


(** *** The mock planner ([generatePlan], [generateMockPath]) *)

(** [Math.min(...xs)] and [Math.max(...xs)] for an array whose first
    element is [x]. *)
Definition minOf (x : Q) (xs : list Q) : Q := fold_left Qmin xs x.
Definition maxOf (x : Q) (xs : list Q) : Q := fold_left Qmax xs x.

Definition stripeSpacing : Q := 40.

(** The [while] loop of [generateMockPath]; [fuel] bounds the number of
    passes and [None] reports that it did not suffice.  [currentY] grows
    by exactly 40 per pass; the code adds 40 in doubles. *)
Fixpoint stripes (fuel : nat) (minX maxX maxY currentY : Q)
    (goingRight : bool) (path : list Point) : option (list Point) :=
  if Qle_bool currentY maxY then
    match fuel with
    | O => None
    | S fuel =>
        let path :=
          if goingRight
          then path ++ [mkPoint minX currentY; mkPoint maxX currentY]
          else path ++ [mkPoint maxX currentY; mkPoint minX currentY] in
        stripes fuel minX maxX maxY (currentY + stripeSpacing)
          (negb goingRight) path
    end
  else Some path.

(** The number of passes the loop makes from [minY] up to [maxY]; it
    serves as the fuel of [stripes]. *)
Definition stripeCount (minY maxY : Q) : nat :=
  Z.to_nat (Qfloor ((maxY - minY) / stripeSpacing) + 1).

(** [None] would mean that the loop did not come to its end. *)
Definition generateMockPath (boundary : list Point) : option (list Point) :=
  if (length boundary <? 3)%nat then Some []
  else
    match boundary with
    | [] => Some []   (* not reached: the array has 3 elements or more *)
    | p :: rest =>
        let minX := minOf (px p) (map px rest) in
        let maxX := maxOf (px p) (map px rest) in
        let minY := minOf (py p) (map py rest) in
        let maxY := maxOf (py p) (map py rest) in
        let minX := minX + 20 in
        let maxX := maxX - 20 in
        let minY := minY + 20 in
        let maxY := maxY - 20 in
        stripes (stripeCount minY maxY) minX maxX maxY minY true []
    end.

(** [generatePlan] up to its timeout: the path it is going to install,
    [None] when it gives up on a boundary of fewer than 3 points. *)
Definition generatePlan (s : State) : option (list Point) :=
  if (length (Canvas.boundary (canvas s)) <? 3)%nat then None
  else generateMockPath (Canvas.boundary (canvas s)).

(** *** The statistics panel ([updateStats], [calculateEstimatedTime]) *)

(** [s.padStart(2, '0')]. *)
Definition padStart2 (s : string) : string :=
  match String.length s with
  | 0%nat => "00"
  | 1%nat => String "0"%char s
  | _ => s
  end.

(** [pathLengthM] is the text [calculatePathLength] returned;
    [Math.round(x)] is [floor(x + 1/2)], [%] keeps the sign of the dividend
    and the text of [NaN] is [NaN]. *)
Definition calculateEstimatedTime (pathLengthM : string) : string :=
  if String.eqb pathLengthM "0.0" then "0:00"
  else
    match Js.parseFloatStr pathLengthM with
    | None => "NaN:NaN"
    | Some x =>
        let speedMps := 1 # 2 in
        let totalSeconds := Qfloor (x / speedMps + (1 # 2)) in
        let minutes := (totalSeconds / 60)%Z in
        let seconds := Z.rem totalSeconds 60 in
        (intString minutes ++ ":" ++ padStart2 (intString seconds))%string
    end.



End Controls.

(** ** app.js: session import and test data *)

Module App.

(** The argument of [importData]; a missing field is [None]. *)
Record Snapshot : Type := mkSnapshot {
  data_boundary : option (list Point);
  data_obstacles : option (list Obstacle);
  data_dynamicObstacles : option (list Obstacle);
  data_plannedPath : option (list Point)
}.

(** [v || []] for an array-valued field. *)
Definition orEmpty {A : Type} (v : option (list A)) : list A :=
  match v with
  | Some l => l
  | None => []
  end.

Definition importData (data : Snapshot) (s : Controls.State)
    : Controls.State :=
  let s :=
    Controls.onCanvas (Canvas.set_boundary (orEmpty (data_boundary data))) s in
  let s :=
    Controls.onCanvas
      (Canvas.set_obstacles (orEmpty (data_obstacles data))) s in
  let s :=
    Controls.onCanvas
      (Canvas.set_dynamicObstacles (orEmpty (data_dynamicObstacles data))) s in
  Controls.onCanvas
    (Canvas.set_plannedPath (orEmpty (data_plannedPath data))) s.

Definition generateTestData (s : Controls.State) : Controls.State :=
  let s :=
    Controls.onCanvas
      (Canvas.set_boundary
         [mkPoint 100 100; mkPoint 500 100; mkPoint 500 400; mkPoint 100 400])
      s in
  let s :=
    Controls.onCanvas
      (Canvas.set_obstacles
         [mkObstacle "test_obstacle_1"
            [mkPoint 200 200; mkPoint 300 200; mkPoint 300 300;
             mkPoint 200 300] Static]) s in
  Controls.onCanvas
    (Canvas.set_dynamicObstacles
       [mkObstacle "test_dynamic_1"
          [mkPoint 350 150; mkPoint 400 150; mkPoint 400 200;
           mkPoint 350 200] Dynamic]) s.

Record Metadata : Type := mkMetadata {
  canvasWidth : Q;
  canvasHeight : Q;
  pixelsPerMeter : Z;
  version : string
}.

(** The object [exportData] returns; [timestamp] is the text of the
    current time.  The four arrays are the canvas's own arrays, not
    copies: the fields below are their content when the object is read
    before the next point or obstacle is pushed onto them. *)
Record Exported : Type := mkExported {
  exp_timestamp : string;
  exp_boundary : list Point;
  exp_obstacles : list Obstacle;
  exp_dynamicObstacles : list Obstacle;
  exp_plannedPath : list Point;
  exp_metadata : Metadata
}.

Definition exportData (timestamp : string) (s : Controls.State) : Exported :=
  let c := Controls.canvas s in
  mkExported timestamp
    (Canvas.boundary c) (Canvas.obstacles c) (Canvas.dynamicObstacles c)
    (Canvas.plannedPath c)
    (mkMetadata (Canvas.width c) (Canvas.height c) 50 "1.0.0-phase1").

End App.

(** ** The shoelace formula, as the specification writes it *)

Module Shoelace.

(** Sum of [cross] over the consecutive pairs of [p :: l]. *)
Fixpoint edgeSumFrom (p : Point) (l : list Point) : Q :=
  match l with
  | [] => 0
  | q :: r => cross p q + edgeSumFrom q r
  end.


(** [sum (x_i*y_{i+1} - x_{i+1}*y_i)] with the last vertex joined to the
    first. *)
Definition shoelace (l : list Point) : Q :=
  match l with
  | [] => 0
  | p :: r => edgeSumFrom p (r ++ [p])
  end.


Definition Qsum (l : list Q) : Q := fold_right Qplus 0 l.

End Shoelace.

(** ** Vocabulary of the statements and sample inputs *)


Definition square : list Point :=
  [mkPoint 0 0; mkPoint 100 0; mkPoint 100 100; mkPoint 0 100].

Definition triangle : list Point :=
  [mkPoint 0 0; mkPoint 100 0; mkPoint 0 100].

(** [clamp(x, minScale, maxScale)]. *)
Definition clampScale (x : Q) : Q :=
  Qmax Canvas.minScale (Qmin Canvas.maxScale x).

(** The zoom is inside its bounds. *)
Definition scaleInRange (c : Canvas.State) : Prop :=
  Canvas.minScale <= Canvas.scale c <= Canvas.maxScale.

(** Two points with equal coordinates. *)
Definition samePoint (p q : Point) : Prop := px p == px q /\ py p == py q.

(** The playback commands, and the expiry of the [n]-th pending timer. *)
Inductive PlaybackOp : Type :=
  | OpRun
  | OpPause
  | OpResume
  | OpStop
  | OpTick (n : nat).

Definition applyOp (op : PlaybackOp) (s : Controls.State) : Controls.State :=
  match op with
  | OpRun => Controls.run s
  | OpPause => Controls.pause s
  | OpResume => Controls.resume s
  | OpStop => Controls.stop s
  | OpTick n => Controls.fireTimer n s
  end.

Definition applyOps (ops : list PlaybackOp) (s : Controls.State)
    : Controls.State :=
  fold_left (fun s op => applyOp op s) ops s.

(** Every [pause()] of the sequence is issued while the simulation runs,
    which is when the pause button is enabled and when the space key
    pauses. *)
Fixpoint pausesWhileRunning (ops : list PlaybackOp) (s : Controls.State)
    : bool :=
  match ops with
  | [] => true
  | op :: rest =>
      match op with
      | OpPause => Controls.isRunning s
      | _ => true
      end
      && pausesWhileRunning rest (applyOp op s)
  end.

(** [running = false] implies [paused = false]. *)
Definition flagsInv (s : Controls.State) : Prop :=
  Controls.isRunning s = false -> Controls.isPaused s = false.

Definition path5 : list Point :=
  [mkPoint 0 0; mkPoint 100 0; mkPoint 100 40; mkPoint 0 40; mkPoint 0 80].

(** A fresh application with a five-point path installed. *)
Definition planned : Controls.State :=
  Controls.init (Canvas.setPlannedPath path5 (Canvas.init 800 600)).

(** Run, let one timer expire, then press space: paused with the cursor
    at index 2. *)
Definition pausedAt2 : Controls.State :=
  Controls.handleKeyboard KeySpace false 0
    (Controls.fireTimer 0 (Controls.run planned)).

(** What the page can deliver to the application: pointer events on the
    canvas, keys, button clicks (a disabled button delivers nothing),
    the slider, the completion of [generatePlan], timer expiry, the
    obstacle list's hover and delete actions, and the console helpers. *)
Inductive Event : Type :=
  | EvClick (canvasX canvasY : Q)
  | EvRightClick (now : Z)
  | EvMouseMove (canvasX canvasY : Q)
  | EvMouseDown (button : Z) (ctrlKey : bool) (canvasX canvasY : Q)
  | EvMouseUp
  | EvMouseLeave
  | EvWheel (mouseX mouseY deltaY : Q)
  | EvKey (key : Key) (ctrlKey : bool) (now : Z)
  | EvResetBtn
  | EvBoundaryBtn
  | EvAddObstacleBtn (now : Z)
  | EvAddDynamicObstacleBtn (now : Z)
  | EvRunBtn
  | EvPauseBtn
  | EvResumeBtn
  | EvStopBtn
  | EvSpeed (value : Z)
  | EvPlanReady (path : list Point)
  | EvTimer (n : nat)
  | EvRemoveObstacle (obstacleId : string)
  | EvHighlight (obstacleId : string)
  | EvUnhighlight
  | EvImport (data : App.Snapshot)
  | EvGenerateTestData.

Definition unlessDisabled (disabled : bool)
    (f : Controls.State -> Controls.State) (s : Controls.State)
    : Controls.State :=
  if disabled then s else f s.

Definition dispatch (s : Controls.State) (ev : Event) : Controls.State :=
  match ev with
  | EvClick x y => Controls.onCanvas (Canvas.handleClick x y) s
  | EvRightClick now => Controls.onCanvas (Canvas.handleRightClick now) s
  | EvMouseMove x y =>
      (* [setupEventListeners] registers [handleMouseMove] twice *)
      Controls.onCanvas (Canvas.handleMouseMove x y)
        (Controls.onCanvas (Canvas.handleMouseMove x y) s)
  | EvMouseDown b ctrl x y =>
      Controls.onCanvas (Canvas.handleMouseDown b ctrl x y) s
  | EvMouseUp => Controls.onCanvas Canvas.handleMouseUp s
  | EvMouseLeave => Controls.onCanvas Canvas.handleMouseLeave s
  | EvWheel x y d => Controls.onCanvas (Canvas.handleWheel x y d) s
  | EvKey key ctrl now => Controls.handleKeyboard key ctrl now s
  | EvResetBtn => Controls.reset s
  | EvBoundaryBtn =>
      unlessDisabled (Controls.boundaryBtn_disabled s) Controls.startBoundary s
  | EvAddObstacleBtn now =>
      unlessDisabled (Controls.addObstacleBtn_disabled s)
        (Controls.addObstacle now) s
  | EvAddDynamicObstacleBtn now =>
      unlessDisabled (Controls.addDynamicObstacleBtn_disabled s)
        (Controls.addDynamicObstacle now) s
  | EvRunBtn => unlessDisabled (Controls.runBtn_disabled s) Controls.run s
  | EvPauseBtn =>
      unlessDisabled (Controls.pauseBtn_disabled s) Controls.pause s
  | EvResumeBtn =>
      unlessDisabled (Controls.resumeBtn_disabled s) Controls.resume s
  | EvStopBtn => unlessDisabled (Controls.stopBtn_disabled s) Controls.stop s
  | EvSpeed value => Controls.updateSpeed value s
  | EvPlanReady path => Controls.onCanvas (Canvas.setPlannedPath path) s
  | EvTimer n => Controls.fireTimer n s
  | EvRemoveObstacle obstacleId => Controls.removeObstacle obstacleId s
  | EvHighlight obstacleId => Controls.highlightObstacle obstacleId s
  | EvUnhighlight => Controls.unhighlightObstacle s
  | EvImport data => App.importData data s
  | EvGenerateTestData => App.generateTestData s
  end.

Definition dispatchAll (evs : list Event) (s : Controls.State)
    : Controls.State :=
  fold_left dispatch evs s.

(** A boundary is complete when it is empty or has at least 3 points. *)
Definition completeBoundary (b : list Point) : Prop :=
  length b = 0%nat \/ (3 <= length b)%nat.

(** In ready mode the vertex buffer is empty and the boundary complete. *)
Definition readyInv (c : Canvas.State) : Prop :=
  Canvas.mode c = ModeReady ->
  Canvas.currentObstacle c = [] /\ completeBoundary (Canvas.boundary c).

(** An import whose boundary field is absent, empty or has 3 or more
    points; any other event. *)
Definition importsComplete (ev : Event) : bool :=
  match ev with
  | EvImport data =>
      let n := length (App.orEmpty (App.data_boundary data)) in
      (n =? 0)%nat || (3 <=? n)%nat
  | _ => true
  end.

(** Canvas clicks at the given pointer positions. *)
Definition clickEvents (clicks : list (Q * Q)) : list Event :=
  map (fun xy => EvClick (fst xy) (snd xy)) clicks.

(** The world points the view of [c] assigns to the pointer positions. *)
Definition worldPoints (c : Canvas.State) (clicks : list (Q * Q))
    : list Point :=
  map (fun xy => Canvas.getMousePosition (fst xy) (snd xy) c) clicks.

(** The ids [finishObstacle] and [finishDynamicObstacle] build from the
    clock reading. *)
Definition staticId (now : Z) : string := ("obstacle_" ++ intString now)%string.
Definition dynamicId (now : Z) : string := ("dynamic_" ++ intString now)%string.

(** The boundary [setMode('ready')] leaves. *)
Definition keptBoundary (b : list Point) : list Point :=
  if ((0 <? length b) && (length b <? 3))%nat then [] else b.

(** A page whose boundary is the committed triangle. *)
Definition withTriangle : Controls.State :=
  App.importData (App.mkSnapshot (Some triangle) None None None)
    (Controls.init (Canvas.init 800 600)).

(** Both registries are the same in [c'] as in [c]. *)
Definition sameObstacles (c c' : Canvas.State) : Prop :=
  Canvas.obstacles c' = Canvas.obstacles c
  /\ Canvas.dynamicObstacles c' = Canvas.dynamicObstacles c.

(** The obstacle buffer of [c] was dropped: nothing was added, the buffer
    is empty and the mode is ready. *)
Definition discarded (c c' : Canvas.State) : Prop :=
  sameObstacles c c'
  /\ Canvas.currentObstacle c' = []
  /\ Canvas.mode c' = ModeReady
  /\ Canvas.boundary c' = keptBoundary (Canvas.boundary c).

Definition threeClicks : list (Q * Q) := [(10, 10); (60, 10); (10, 60)].

(** Two static obstacles drawn and finished with the 'o' key, both
    finishes reading the same clock value. *)
Definition twoAtSameTick : Controls.State :=
  dispatchAll
    ([EvKey KeyO false 0] ++ clickEvents threeClicks
     ++ [EvKey KeyO false 1000; EvKey KeyO false 1000]
     ++ clickEvents threeClicks ++ [EvKey KeyO false 1000])
    (Controls.init (Canvas.init 800 600)).

(** The triangle redrawn with two more points and finished. *)
Definition redrawnWithTwo : Controls.State :=
  dispatchAll
    ([EvKey KeyB false 0] ++ clickEvents [(10, 10); (20, 20)]
     ++ [EvKey KeyB false 0])
    withTriangle.

Definition allDigits (s : string) : bool :=
  forallb Js.isDigit (list_ascii_of_string s).

(** The cells of the grid laid over the box [b], by column and row. *)
Definition gridCells (b : Controls.Box) : list (nat * nat) :=
  list_prod (seq 0 (Z.to_nat (fst (Controls.gridSize b))))
            (seq 0 (Z.to_nat (snd (Controls.gridSize b)))).

(** The centre of the cell lies inside at least one polygon. *)
Definition cellCovered (polygons : list (list Point)) (b : Controls.Box)
    (cell : nat * nat) : bool :=
  existsb (Controls.isPointInPolygon
             (Controls.cellCenter b (fst cell) (snd cell))) polygons.

(** Sample states for the finish commands: an obstacle drawing with two
    and with three buffered points, and a boundary drawing on an empty
    boundary with two and with three points placed. *)
Definition twoBuffered : Canvas.State :=
  Canvas.handleClick 60 10
    (Canvas.handleClick 10 10
       (Canvas.setMode ModeObstacle (Canvas.init 800 600))).

Definition threeBuffered : Canvas.State := Canvas.handleClick 10 60 twoBuffered.

Definition twoOnBoundary : Canvas.State :=
  Canvas.handleClick 60 10
    (Canvas.handleClick 10 10
       (Canvas.setMode ModeBoundary (Canvas.init 800 600))).

Definition threeOnBoundary : Canvas.State :=
  Canvas.handleClick 10 60 twoOnBoundary.

(** A playback session: run, one tick, pause, resume, stop. *)
Definition sampleOps : list PlaybackOp :=
  [OpRun; OpTick 0; OpPause; OpResume; OpStop].

(** An editing session: start a boundary, place two points, cancel with
    escape, then import a snapshot holding the triangle. *)
Definition sampleEvents : list Event :=
  [EvBoundaryBtn; EvClick 10 10; EvClick 60 10; EvKey KeyEscape false 0;
   EvImport (App.mkSnapshot (Some triangle) None None None)].

(** *** Vocabulary of the further properties *)

(** The pointer moves to each of the positions in turn. *)
Definition moveEvents (moves : list (Q * Q)) : list Event :=
  map (fun xy => EvMouseMove (fst xy) (snd xy)) moves.

(** A drag that began at [(x0, y0)] over the view [c] is under way in [c']
    with the pointer at [(x, y)]. *)
Definition dragging (c c' : Canvas.State) (x0 y0 x y : Q) : Prop :=
  Canvas.isPanning c' = true
  /\ Canvas.lastPanPoint c' = mkPoint x y
  /\ Canvas.scale c' = Canvas.scale c
  /\ Canvas.panX c' == Canvas.panX c + (x - x0)
  /\ Canvas.panY c' == Canvas.panY c + (y - y0)
  /\ Canvas.mode c' = Canvas.mode c
  /\ Canvas.boundary c' = Canvas.boundary c
  /\ Canvas.currentObstacle c' = Canvas.currentObstacle c.

(** The axis-parallel rectangle with corners [(x0, y0)] and [(x1, y1)]. *)
Definition rectangle (x0 y0 x1 y1 : Q) : list Point :=
  [mkPoint x0 y0; mkPoint x1 y0; mkPoint x1 y1; mkPoint x0 y1].

Definition translate (t p : Point) : Point :=
  mkPoint (px p + px t) (py p + py t).




(** The ids in use, static obstacles first. *)
Definition allIds (c : Canvas.State) : list string :=
  map obs_id (Canvas.obstacles c ++ Canvas.dynamicObstacles c).

(** The canvas fields a drawing command has no business with. *)
Definition sameSurroundings (c c' : Canvas.State) : Prop :=
  Canvas.plannedPath c' = Canvas.plannedPath c
  /\ Canvas.robotPosition c' = Canvas.robotPosition c
  /\ Canvas.scale c' = Canvas.scale c
  /\ Canvas.panX c' = Canvas.panX c
  /\ Canvas.panY c' = Canvas.panY c.

(** Outside a playback the cursor, the progress, the paused flag and the
    robot are cleared; inside one the cursor has left the first waypoint. *)
Definition idleInv (s : Controls.State) : Prop :=
  if Controls.isRunning s
  then (1 <= Controls.currentIndex s)%nat
  else Controls.currentIndex s = 0%nat
       /\ Controls.progress s = 0
       /\ Controls.isPaused s = false
       /\ Canvas.robotPosition (Controls.canvas s) = None.

(** The first pending timer expires, [k] times in a row. *)
Definition ticks (k : nat) (s : Controls.State) : Controls.State :=
  Nat.iter k (Controls.fireTimer 0) s.

(** The robot at waypoint [k], heading for waypoint [k + 1]. *)
Definition poseAt (path : list Point) (k : nat) : Pose :=
  mkPose (px (at_ path k)) (py (at_ path k))
    (Atan2 (py (at_ path (k + 1)) - py (at_ path k))
           (px (at_ path (k + 1)) - px (at_ path k))).

(** The delay between two steps at the speed set in [s]. *)
Definition tickDelay (s : Controls.State) : Z :=
  Z.max 50 (500 - Controls.currentSpeed s * 45).

(** The playback started from [s0] is under way on [path] with the cursor
    at [k + 1]: waypoint [k] is shown and one timer is pending. *)
Definition advancedTo (s0 s : Controls.State) (path : list Point) (k : nat)
    : Prop :=
  Controls.isRunning s = true
  /\ Controls.isPaused s = false
  /\ Controls.currentIndex s = (k + 1)%nat
  /\ Canvas.robotPosition (Controls.canvas s) = Some (poseAt path k)
  /\ Controls.progress s
     = inject_Z (Z.of_nat (k + 1)) / inject_Z (Z.of_nat (length path)) * 100
  /\ Controls.timers s = [mkTimer (tickDelay s0) path]
  /\ Controls.currentSpeed s = Controls.currentSpeed s0
  /\ Canvas.plannedPath (Controls.canvas s) = path.

(** The playback is over: everything is cleared and no timer is left. *)
Definition finished (s : Controls.State) : Prop :=
  Controls.isRunning s = false
  /\ Controls.isPaused s = false
  /\ Controls.currentIndex s = 0%nat
  /\ Controls.progress s = 0
  /\ Canvas.robotPosition (Controls.canvas s) = None
  /\ Controls.timers s = [].

(** [m] is the least, respectively the greatest, value of the coordinate
    [f] over [points]. *)
Definition lowest (f : Point -> Q) (points : list Point) (m : Q) : Prop :=
  (exists a, In a points /\ f a == m) /\ forall q, In q points -> m <= f q.

Definition highest (f : Point -> Q) (points : list Point) (m : Q) : Prop :=
  (exists a, In a points /\ f a == m) /\ forall q, In q points -> f q <= m.

(** Sweep number [i] of a serpentine between [x0] and [x1]: left to right
    on even sweeps, right to left on odd ones, at height [y0 + 40 i]. *)
Definition sweep (x0 x1 y0 : Q) (i : nat) : list Point :=
  let y := y0 + inject_Z (Z.of_nat i) * 40 in
  if Nat.even i then [mkPoint x0 y; mkPoint x1 y]
  else [mkPoint x1 y; mkPoint x0 y].

Definition serpentine (x0 x1 y0 : Q) (n : nat) : list Point :=
  flat_map (sweep x0 x1 y0) (seq 0 n).

(** Two paths with equal coordinates, waypoint by waypoint. *)
Definition samePoints (l l' : list Point) : Prop :=
  Forall2 samePoint l l'.

(** Two decimal digits of a number below 100. *)
Definition twoDigits (n : Z) : string :=
  (Js.digits (Z.to_N (n / 10)) ++ Js.digits (Z.to_N (n mod 10)))%string.

(** Whole seconds needed for the printed length [x.toFixed(1)] at half a
    metre per second, rounded to the nearest second. *)
Definition travelSeconds (x : Q) : Z :=
  Qfloor (inject_Z (Js.tenths x) / 5 + (1 # 2)).


(** An exported object handed to [importData]: its four arrays are
    present, its other fields are not read. *)
Definition asSnapshot (d : App.Exported) : App.Snapshot :=
  App.mkSnapshot (Some (App.exp_boundary d)) (Some (App.exp_obstacles d))
    (Some (App.exp_dynamicObstacles d)) (Some (App.exp_plannedPath d)).

(** No key that starts or finishes a drawing. *)
Definition noDrawingKey (ev : Event) : bool :=
  match ev with
  | EvKey KeyB _ _ | EvKey KeyO _ _ | EvKey KeyD _ _ => false
  | _ => true
  end.

(** Outside a playback, or in ready mode. *)
Definition idleOrReady (s : Controls.State) : Prop :=
  Controls.isRunning s = false \/ Canvas.mode (Controls.canvas s) = ModeReady.

(** The box [b] is the rectangle with the given corners. *)
Definition boxIs (b : Controls.Box) (x0 x1 y0 y1 : Q) : Prop :=
  match b with
  | Some (minX, maxX, minY, maxY) =>
      minX == x0 /\ maxX == x1 /\ minY == y0 /\ maxY == y1
  | None => False
  end.

(** The bounds of [b] are the extreme coordinates of [points]; an unset
    box goes with no point at all. *)
Definition boxOf (points : list Point) (b : Controls.Box) : Prop :=
  match b with
  | Some (minX, maxX, minY, maxY) =>
      lowest px points minX /\ highest px points maxX
      /\ lowest py points minY /\ highest py points maxY
  | None => points = []
  end.

(** The grid of the union estimate, as the specification describes it:
    cells of 2 by 2 pixels laid over the box from [(minX, minY)] to
    [(maxX, maxY)], by column and row, and the centre of a cell. *)
Definition cellsOver (minX maxX minY maxY : Q) : list (nat * nat) :=
  list_prod (seq 0 (Z.to_nat (Qceiling ((maxX - minX) / 2))))
            (seq 0 (Z.to_nat (Qceiling ((maxY - minY) / 2)))).

Definition centreOf (minX minY : Q) (cell : nat * nat) : Point :=
  mkPoint (minX + 2 * inject_Z (Z.of_nat (fst cell)) + 1)
          (minY + 2 * inject_Z (Z.of_nat (snd cell)) + 1).

(** The number of cells over the box [b] whose centre lies inside at least
    one of the polygons; a box without bounds has no cell. *)
Definition coveredCells (polygons : list (list Point)) (b : Controls.Box)
    : nat :=
  match b with
  | Some (minX, maxX, minY, maxY) =>
      length
        (filter
           (fun cell =>
              existsb (Controls.isPointInPolygon (centreOf minX minY cell))
                polygons)
           (cellsOver minX maxX minY maxY))
  | None => 0%nat
  end.

(** * Properties *)

(** ** Geometry *)

Section ShoelaceFacts.

Import Shoelace.


Lemma Qsum_app (l1 l2 : list Q) : Qsum (l1 ++ l2) == Qsum l1 + Qsum l2.
Proof.
  induction l1 as [|a l1 IH]; simpl.
  - ring.
  - rewrite IH. ring.
Qed.

Lemma Qsum_map_ext (f g : nat -> Q) (l : list nat) :
  (forall i, In i l -> f i == g i) ->
  Qsum (map f l) == Qsum (map g l).
Proof.
  induction l as [|a l IH]; simpl; intros H.
  - reflexivity.
  - rewrite (H a) by now left.
    rewrite IH by (intros i Hi; apply H; now right).
    reflexivity.
Qed.

Lemma last_cons_default (l : list Point) :
  forall a d d', last (a :: l) d = last (a :: l) d'.
Proof.
  induction l as [|b l IH]; intros a d d'; [reflexivity|].
  change (last (b :: l) d = last (b :: l) d'). apply IH.
Qed.

Lemma last_cons (l : list Point) (q p : Point) :
  last (q :: l) p = last l q.
Proof.
  destruct l as [|b l]; [reflexivity|].
  change (last (b :: l) p = last (b :: l) q). apply last_cons_default.
Qed.

Lemma edgeSumFrom_snoc (l : list Point) :
  forall p a, edgeSumFrom p (l ++ [a]) == edgeSumFrom p l + cross (last l p) a.
Proof.
  induction l as [|q l IH]; intros p a.
  - simpl. ring.
  - change (edgeSumFrom p ((q :: l) ++ [a]))
      with (cross p q + edgeSumFrom q (l ++ [a])).
    rewrite IH, last_cons. simpl. ring.
Qed.


(** The index form of the open sum. *)
Lemma edgeSumFrom_index (l : list Point) :
  forall p,
    edgeSumFrom p l
    == Qsum (map (fun i => cross (at_ (p :: l) i) (at_ (p :: l) (S i)))
               (seq 0 (length l))).
Proof.
  induction l as [|q l IH]; intros p.
  - reflexivity.
  - simpl length. rewrite <- cons_seq, <- seq_shift.
    cbn [map]. rewrite map_map.
    cbn [Qsum fold_right edgeSumFrom].
    rewrite (IH q). reflexivity.
Qed.

Lemma at_last (l : list Point) :
  forall p, at_ (p :: l) (length l) = last l p.
Proof.
  induction l as [|q l IH]; intros p; [reflexivity|].
  change (at_ (q :: l) (length l) = last (q :: l) p).
  rewrite IH, last_cons. reflexivity.
Qed.

Lemma areaStep_cross (points : list Point) (area : Q) (i : nat) :
  Canvas.areaStep points area i
  == area + cross (at_ points i) (at_ points ((i + 1) mod length points)).
Proof. unfold Canvas.areaStep, cross. ring. Qed.

Lemma fold_areaStep (points : list Point) (l : list nat) :
  forall area,
    fold_left (Canvas.areaStep points) l area
    == area
       + Qsum (map (fun i => cross (at_ points i)
                               (at_ points ((i + 1) mod length points))) l).
Proof.
  induction l as [|i l IH]; intros area; simpl.
  - ring.
  - rewrite IH, areaStep_cross. ring.
Qed.

(** The loop of [calculatePolygonArea] computes the wrap-around sum. *)
Lemma areaLoop_shoelace (points : list Point) :
  Canvas.areaLoop points == shoelace points.
Proof.
  unfold Canvas.areaLoop. rewrite fold_areaStep.
  destruct points as [|p r]; [reflexivity|].
  change (length (p :: r)) with (S (length r)).
  rewrite seq_S, map_app, Qsum_app.
  rewrite (Qsum_map_ext _
             (fun i => cross (at_ (p :: r) i) (at_ (p :: r) (S i)))).
  - rewrite <- edgeSumFrom_index.
    cbn [map Qsum fold_right Nat.add].
    replace ((length r + 1) mod S (length r))%nat with 0%nat.
    + rewrite at_last.
      change (at_ (p :: r) 0) with p.
      change (shoelace (p :: r)) with (edgeSumFrom p (r ++ [p])).
      rewrite edgeSumFrom_snoc. ring.
    + replace (length r + 1)%nat with (S (length r)) by lia.
      symmetry. apply Nat.Div0.mod_same.
  - intros i Hi. apply in_seq in Hi.
    rewrite Nat.mod_small by lia.
    replace (i + 1)%nat with (S i) by lia. reflexivity.
Qed.






End ShoelaceFacts.

(** ** Number formatting *)

Section Formatting.

(** [toFixed(1)] depends on the value only, not on the fraction that
    represents it. *)
Lemma toFixed1_comp (x y : Q) : x == y -> Js.toFixed1 x = Js.toFixed1 y.
Proof.
  intros E. unfold Js.toFixed1.
  assert (T : Js.tenths x = Js.tenths y).
  { unfold Js.tenths. apply Qfloor_comp. rewrite E. reflexivity. }
  assert (B : Qle_bool 0 x = Qle_bool 0 y) by (rewrite E; reflexivity).
  rewrite T, B. reflexivity.
Qed.

End Formatting.

(** ** Polygon area *)

(** What [calculatePolygonArea] returns, in terms of the wrap-around
    sum. *)
Lemma calculatePolygonArea_value (points : list Point) :
  Canvas.calculatePolygonArea points
  = if (length points <? 3)%nat then Js.Number 0
    else Js.Str (Js.toFixed1 (Qabs (Shoelace.shoelace points) / 2 / 2500)).
Proof.
  unfold Canvas.calculatePolygonArea.
  destruct (length points <? 3)%nat; [reflexivity|].
  f_equal. apply toFixed1_comp.
  rewrite areaLoop_shoelace. reflexivity.
Qed.







(** ** View transform *)

Lemma minScale_pos : 0 < Canvas.minScale.
Proof. reflexivity. Qed.

Lemma clampScale_pos (x : Q) : 0 < clampScale x.
Proof.
  unfold clampScale. eapply Qlt_le_trans; [apply minScale_pos|].
  apply Q.le_max_l.
Qed.

(** Re-anchoring the pan after a change of scale keeps the world point
    under the focal point. *)
Lemma anchor_fixed (m pan s s' : Q) :
  0 < s -> 0 < s' -> (m - (m - (m - pan) / s * s')) / s' == (m - pan) / s.
Proof.
  intros Hs Hs'. field. split; intros E; rewrite E in *;
    now apply Qlt_irrefl in Hs + apply Qlt_irrefl in Hs'.
Qed.

Lemma handleWheel_focal (mouseX mouseY deltaY : Q) (c : Canvas.State) :
  0 < Canvas.scale c ->
  samePoint
    (Canvas.getMousePosition mouseX mouseY
       (Canvas.handleWheel mouseX mouseY deltaY c))
    (Canvas.getMousePosition mouseX mouseY c)
  /\ Canvas.scale (Canvas.handleWheel mouseX mouseY deltaY c)
     == clampScale
          (Canvas.scale c * (if Qle_bool deltaY 0 then 11 # 10 else 9 # 10)).
Proof.
  intros Hs. unfold Canvas.handleWheel.
  set (f := if Qle_bool deltaY 0 then 11 # 10 else 9 # 10).
  fold (clampScale (Canvas.scale c * f)).
  destruct (Qeq_bool (clampScale (Canvas.scale c * f)) (Canvas.scale c))
    eqn:E; cbn [negb].
  - apply Qeq_bool_eq in E. split; [split; reflexivity|].
    symmetry. exact E.
  - split; [|reflexivity].
    split; cbn; apply anchor_fixed; auto using clampScale_pos.
Qed.

Lemma zoomIn_focal (c : Canvas.State) :
  Canvas.minScale <= Canvas.scale c ->
  samePoint
    (Canvas.getMousePosition (Canvas.width c / 2) (Canvas.height c / 2)
       (Canvas.zoomIn c))
    (Canvas.getMousePosition (Canvas.width c / 2) (Canvas.height c / 2) c)
  /\ Canvas.scale (Canvas.zoomIn c) == clampScale (Canvas.scale c * (12 # 10)).
Proof.
  intros Hs.
  assert (Hpos : 0 < Canvas.scale c)
    by (eapply Qlt_le_trans; [apply minScale_pos|exact Hs]).
  assert (Hc : Qmin Canvas.maxScale (Canvas.scale c * (12 # 10))
               == clampScale (Canvas.scale c * (12 # 10))).
  { unfold clampScale. symmetry. apply Q.max_r.
    apply Q.min_glb; [discriminate|].
    eapply Qle_trans; [exact Hs|].
    rewrite <- (Qmult_1_r (Canvas.scale c)) at 1.
    apply Qmult_le_l; [exact Hpos|discriminate]. }
  split; [|exact Hc].
  assert (Hn : 0 < Qmin Canvas.maxScale (Canvas.scale c * (12 # 10)))
    by (rewrite Hc; apply clampScale_pos).
  split; cbn; apply anchor_fixed; assumption.
Qed.

Lemma zoomOut_focal (c : Canvas.State) :
  0 < Canvas.scale c -> Canvas.scale c <= Canvas.maxScale ->
  samePoint
    (Canvas.getMousePosition (Canvas.width c / 2) (Canvas.height c / 2)
       (Canvas.zoomOut c))
    (Canvas.getMousePosition (Canvas.width c / 2) (Canvas.height c / 2) c)
  /\ Canvas.scale (Canvas.zoomOut c) == clampScale (Canvas.scale c / (12 # 10)).
Proof.
  intros Hpos Hs.
  assert (Hc : Qmax Canvas.minScale (Canvas.scale c / (12 # 10))
               == clampScale (Canvas.scale c / (12 # 10))).
  { unfold clampScale. apply Q.max_compat; [reflexivity|].
    symmetry. apply Q.min_r.
    eapply Qle_trans; [|exact Hs].
    rewrite <- (Qmult_1_r (Canvas.scale c)) at 2.
    unfold Qdiv. apply Qmult_le_l; [exact Hpos|discriminate]. }
  split; [|exact Hc].
  assert (Hn : 0 < Qmax Canvas.minScale (Canvas.scale c / (12 # 10)))
    by (rewrite Hc; apply clampScale_pos).
  split; cbn; apply anchor_fixed; assumption.
Qed.

(** C2: with the scale inside [[minScale, maxScale]], the wheel zoom keeps
    the world point under the pointer, the keyboard zooms keep the world
    point under the canvas centre, and the new scale is the clamped
    product of the old scale and the zoom factor (1.1 or 0.9 for the
    wheel, 1.2 and 1/1.2 for the keys).  Arithmetic is exact here, so the
    points are equal, not only close. *)
Theorem zoom_keeps_focal_point
    (c : Canvas.State) (mouseX mouseY deltaY : Q) :
  Canvas.minScale <= Canvas.scale c <= Canvas.maxScale ->
  let centre := fun c' =>
    Canvas.getMousePosition (Canvas.width c / 2) (Canvas.height c / 2) c' in
  (samePoint
     (Canvas.getMousePosition mouseX mouseY
        (Canvas.handleWheel mouseX mouseY deltaY c))
     (Canvas.getMousePosition mouseX mouseY c)
   /\ Canvas.scale (Canvas.handleWheel mouseX mouseY deltaY c)
      == clampScale
           (Canvas.scale c * (if Qle_bool deltaY 0 then 11 # 10 else 9 # 10)))
  /\ (samePoint (centre (Canvas.zoomIn c)) (centre c)
      /\ Canvas.scale (Canvas.zoomIn c)
         == clampScale (Canvas.scale c * (12 # 10)))
  /\ (samePoint (centre (Canvas.zoomOut c)) (centre c)
      /\ Canvas.scale (Canvas.zoomOut c)
         == clampScale (Canvas.scale c / (12 # 10))).
Proof.
  intros [Hlo Hhi] centre.
  assert (Hpos : 0 < Canvas.scale c)
    by (eapply Qlt_le_trans; [apply minScale_pos|exact Hlo]).
  split; [|split].
  - apply handleWheel_focal; assumption.
  - apply zoomIn_focal; assumption.
  - apply zoomOut_focal; assumption.
Qed.

Lemma zoom_keeps_focal_point_witness :
  Canvas.minScale <= Canvas.scale (Canvas.init 800 600) <= Canvas.maxScale
  /\ samePoint
       (Canvas.getMousePosition 100 50
          (Canvas.handleWheel 100 50 (-1) (Canvas.init 800 600)))
       (Canvas.getMousePosition 100 50 (Canvas.init 800 600)).
Proof.
  assert (H : Canvas.minScale <= Canvas.scale (Canvas.init 800 600)
              <= Canvas.maxScale)
    by (split; unfold Qle; simpl; lia).
  split; [exact H|].
  exact (proj1 (proj1
           (zoom_keeps_focal_point (Canvas.init 800 600) 100 50 (-1) H))).
Defined.

(** ** Reset *)

(** C10: [reset] empties the boundary, both obstacle lists, both paths and
    the vertex buffer, removes the robot, puts the pan at the origin and
    the mode at ready, and leaves the scale as it was. *)
Theorem reset_clears_but_keeps_scale (c : Canvas.State) :
  let c' := Canvas.reset c in
  Canvas.boundary c' = []
  /\ Canvas.obstacles c' = []
  /\ Canvas.dynamicObstacles c' = []
  /\ Canvas.plannedPath c' = []
  /\ Canvas.currentPath c' = []
  /\ Canvas.currentObstacle c' = []
  /\ Canvas.robotPosition c' = None
  /\ Canvas.panX c' = 0
  /\ Canvas.panY c' = 0
  /\ Canvas.mode c' = ModeReady
  /\ Canvas.scale c' = Canvas.scale c.
Proof. cbn. repeat split. Qed.

(** ** Playback *)

Lemma pause_keeps_cursor (s : Controls.State) :
  Controls.currentIndex (Controls.pause s) = Controls.currentIndex s
  /\ Controls.progress (Controls.pause s) = Controls.progress s.
Proof. split; reflexivity. Qed.

Lemma stop_resets (s : Controls.State) :
  Controls.currentIndex (Controls.stop s) = 0%nat
  /\ Controls.progress (Controls.stop s) = 0
  /\ Controls.isRunning (Controls.stop s) = false
  /\ Controls.isPaused (Controls.stop s) = false.
Proof. repeat split. Qed.

Lemma resume_after_pause (s : Controls.State) :
  Controls.isRunning s = true ->
  Controls.isPaused s = false ->
  Controls.resume (Controls.pause s) = Controls.startSimulation s.
Proof.
  intros Hr Hp.
  destruct s as [cv r p sp oc ix pr ts]. cbn in *. subst r p. reflexivity.
Qed.

(** The guarded reset of [startSimulation] never changes what the first
    advance produces. *)
Lemma startSimulation_animate (s : Controls.State) :
  Controls.isRunning s = true ->
  Canvas.plannedPath (Controls.canvas s) <> [] ->
  Controls.startSimulation s
  = Controls.animate (Canvas.plannedPath (Controls.canvas s)) s.
Proof.
  intros Hr Hpath.
  destruct s as [cv r p sp oc ix pr ts]. cbn in *. subst r.
  unfold Controls.startSimulation. cbn.
  destruct (Canvas.plannedPath cv) as [|a path] eqn:E; [congruence|].
  cbn [length Nat.eqb].
  destruct p; [reflexivity|].
  destruct ix as [|ix]; [|reflexivity].
  cbn [negb andb Nat.eqb].
  unfold Controls.animate. cbn.
  destruct path as [|b path]; reflexivity.
Qed.

(** [run()] on a non-empty path is the first advance from the reset
    cursor, whatever the cursor and the flags were. *)
Lemma run_from_zero (s : Controls.State) :
  Canvas.plannedPath (Controls.canvas s) <> [] ->
  Controls.run s
  = Controls.animate (Canvas.plannedPath (Controls.canvas s))
      (Controls.set_progress 0
         (Controls.set_currentIndex 0
            (Controls.set_isPaused false (Controls.set_isRunning true s)))).
Proof.
  intros Hpath. unfold Controls.run.
  assert (L : (length (Canvas.plannedPath (Controls.canvas s)) =? 0)%nat
              = false).
  { destruct (Canvas.plannedPath (Controls.canvas s));
      [congruence|reflexivity]. }
  rewrite L.
  apply (startSimulation_animate
           (Controls.set_progress 0
              (Controls.set_currentIndex 0
                 (Controls.set_isPaused false
                    (Controls.set_isRunning true s)))));
    [reflexivity|exact Hpath].
Qed.

(** The step taken on resuming below the last index shows waypoint [k]
    and moves the cursor to [k + 1]. *)
Lemma animate_advances (path : list Point) (s : Controls.State)
    (current next : Point) :
  Controls.isRunning s = true ->
  Controls.isPaused s = false ->
  nth_error path (Controls.currentIndex s) = Some current ->
  nth_error path (Controls.currentIndex s + 1) = Some next ->
  let s' := Controls.animate path s in
  Controls.currentIndex s' = (Controls.currentIndex s + 1)%nat
  /\ Canvas.robotPosition (Controls.canvas s')
     = Some (mkPose (px current) (py current)
               (Atan2 (py next - py current) (px next - px current)))
  /\ Controls.progress s'
     = inject_Z (Z.of_nat (Controls.currentIndex s + 1))
       / inject_Z (Z.of_nat (length path)) * 100.
Proof.
  intros Hr Hp Hc Hn. unfold Controls.animate.
  rewrite Hr, Hp. cbn [negb orb].
  assert (Hlt : (Controls.currentIndex s + 1 < length path)%nat)
    by (apply nth_error_Some; congruence).
  destruct (Z.leb_spec (Z.of_nat (length path) - 1)
              (Z.of_nat (Controls.currentIndex s))); [lia|].
  rewrite Hn, Hc. cbn. repeat split.
Qed.

(** C1, as the code has it: pausing a running playback keeps index and
    progress, and resuming it performs exactly the advance that was due at
    that index; [stop()] puts index and progress at 0 in every state; and
    [run()], in every state [any], changes nothing on an empty path and on
    a non-empty one puts index and progress at 0 before its first advance,
    also when the index is not 0 or the playback is paused. *)
Theorem playback_cursor_effects (s any : Controls.State) :
  Controls.isRunning s = true ->
  Controls.isPaused s = false ->
  Canvas.plannedPath (Controls.canvas s) <> [] ->
  let path := Canvas.plannedPath (Controls.canvas s) in
  let fresh := Controls.set_progress 0 (Controls.set_currentIndex 0 s) in
  let restarted :=
    Controls.set_progress 0
      (Controls.set_currentIndex 0
         (Controls.set_isPaused false (Controls.set_isRunning true any))) in
  (Controls.currentIndex (Controls.pause s) = Controls.currentIndex s
   /\ Controls.progress (Controls.pause s) = Controls.progress s)
  /\ Controls.resume (Controls.pause s) = Controls.animate path s
  /\ (forall s', Controls.currentIndex (Controls.stop s') = 0%nat
                 /\ Controls.progress (Controls.stop s') = 0)
  /\ Controls.run (Controls.pause s) = Controls.animate path fresh
  /\ Controls.run s = Controls.animate path fresh
  /\ Controls.run any
     = (if (length (Canvas.plannedPath (Controls.canvas any)) =? 0)%nat
        then any
        else Controls.animate (Canvas.plannedPath (Controls.canvas any))
               restarted)
  /\ Controls.currentIndex restarted = 0%nat
  /\ Controls.progress restarted = 0.
Proof.
  intros Hr Hp Hpath path fresh restarted.
  split; [apply pause_keeps_cursor|].
  split; [rewrite resume_after_pause by assumption;
          apply startSimulation_animate; assumption|].
  split; [intros s'; split; reflexivity|].
  split; [|split; [|split; [|split; reflexivity]]].
  - destruct s as [cv r p sp oc ix pr ts]. cbn in Hr, Hp, Hpath. subst r p.
    rewrite run_from_zero by exact Hpath. reflexivity.
  - destruct s as [cv r p sp oc ix pr ts]. cbn in Hr, Hp, Hpath. subst r p.
    rewrite run_from_zero by exact Hpath. reflexivity.
  - destruct (Canvas.plannedPath (Controls.canvas any)) as [|a rest] eqn:E.
    + unfold Controls.run. rewrite E. reflexivity.
    + rewrite run_from_zero by (rewrite E; discriminate).
      rewrite E. reflexivity.
Qed.

Lemma playback_cursor_effects_witness :
  let s := Controls.fireTimer 0 (Controls.run planned) in
  Controls.isRunning s = true
  /\ Controls.isPaused s = false
  /\ Canvas.plannedPath (Controls.canvas s) <> []
  /\ Controls.resume (Controls.pause s)
     = Controls.animate (Canvas.plannedPath (Controls.canvas s)) s
  /\ Controls.run planned
     = (if (length (Canvas.plannedPath (Controls.canvas planned)) =? 0)%nat
        then planned
        else Controls.animate
               (Canvas.plannedPath (Controls.canvas planned))
               (Controls.set_progress 0
                  (Controls.set_currentIndex 0
                     (Controls.set_isPaused false
                        (Controls.set_isRunning true planned))))).
Proof.
  set (s := Controls.fireTimer 0 (Controls.run planned)).
  assert (Hr : Controls.isRunning s = true) by reflexivity.
  assert (Hp : Controls.isPaused s = false) by reflexivity.
  assert (Hn : Canvas.plannedPath (Controls.canvas s) <> [])
    by (simpl; discriminate).
  split; [exact Hr|]. split; [exact Hp|]. split; [exact Hn|].
  split.
  - exact (proj1 (proj2 (playback_cursor_effects s planned Hr Hp Hn))).
  - exact (proj1 (proj2 (proj2 (proj2 (proj2 (proj2
             (playback_cursor_effects s planned Hr Hp Hn))))))).
Defined.

(** C1 fails as stated: after running, one tick and a pause the cursor is
    at index 2.  Resuming goes on from waypoint 2 to index 3; [run()],
    which the space key calls in the paused state, is not a fresh start
    here and yet starts over from waypoint 0, leaving the cursor at
    index 1. *)
Lemma run_while_paused_restarts :
  Controls.isRunning pausedAt2 = true
  /\ Controls.isPaused pausedAt2 = true
  /\ Controls.currentIndex pausedAt2 = 2%nat
  /\ Controls.currentIndex (Controls.resume pausedAt2) = 3%nat
  /\ Canvas.robotPosition (Controls.canvas (Controls.resume pausedAt2))
     = Some (mkPose 100 40 (Atan2 (40 - 40) (0 - 100)))
  /\ Controls.handleKeyboard KeySpace false 0 pausedAt2
     = Controls.run pausedAt2
  /\ Controls.currentIndex (Controls.run pausedAt2) = 1%nat
  /\ Canvas.robotPosition (Controls.canvas (Controls.run pausedAt2))
     = Some (mkPose 0 0 (Atan2 (0 - 0) (100 - 0))).
Proof. repeat split. Qed.

Lemma animate_flags (path : list Point) (s : Controls.State) :
  (Controls.isRunning (Controls.animate path s) = Controls.isRunning s
   /\ Controls.isPaused (Controls.animate path s) = Controls.isPaused s)
  \/ (Controls.isRunning (Controls.animate path s) = false
      /\ Controls.isPaused (Controls.animate path s) = false).
Proof.
  unfold Controls.animate.
  destruct (negb (Controls.isRunning s) || Controls.isPaused s);
    [left; split; reflexivity|].
  destruct (Z.of_nat (length path) - 1 <=? Z.of_nat (Controls.currentIndex s))%Z;
    [right; split; reflexivity|].
  left.
  destruct (nth_error path (Controls.currentIndex s + 1));
    [destruct (nth_error path (Controls.currentIndex s))|];
    split; reflexivity.
Qed.

Lemma animate_flagsInv (path : list Point) (s : Controls.State) :
  flagsInv s -> flagsInv (Controls.animate path s).
Proof.
  unfold flagsInv. intros H.
  destruct (animate_flags path s) as [[-> ->]|[_ ->]]; auto.
Qed.

Lemma startSimulation_flagsInv (s : Controls.State) :
  flagsInv s -> flagsInv (Controls.startSimulation s).
Proof.
  intros H. unfold Controls.startSimulation.
  destruct (negb (Controls.isRunning s)); [exact H|].
  destruct (length (Canvas.plannedPath (Controls.canvas s)) =? 0)%nat;
    [exact H|].
  apply animate_flagsInv.
  destruct (negb (Controls.isPaused s) && (Controls.currentIndex s =? 0)%nat);
    exact H.
Qed.

Lemma applyOp_flagsInv (op : PlaybackOp) (s : Controls.State) :
  match op with OpPause => Controls.isRunning s = true | _ => True end ->
  flagsInv s -> flagsInv (applyOp op s).
Proof.
  intros Hop H. destruct op; cbn [applyOp].
  - unfold Controls.run.
    destruct (length (Canvas.plannedPath (Controls.canvas s)) =? 0)%nat;
      [exact H|].
    apply startSimulation_flagsInv. intros E. discriminate E.
  - intros E. cbn in E. congruence.
  - unfold Controls.resume.
    destruct (Controls.isRunning s && Controls.isPaused s); [|exact H].
    apply startSimulation_flagsInv. intros _. reflexivity.
  - intros _. reflexivity.
  - unfold Controls.fireTimer.
    destruct (nth_error (Controls.timers s) n); [|exact H].
    apply animate_flagsInv. exact H.
Qed.

(** ** The editor as an event-driven machine *)

Section ReadyInvariant.

Lemma canvas_onCanvas (f : Canvas.State -> Canvas.State)
    (s : Controls.State) :
  Controls.canvas (Controls.onCanvas f s) = f (Controls.canvas s).
Proof. reflexivity. Qed.

Lemma setMode_ready_boundary (c : Canvas.State) :
  Canvas.boundary (Canvas.setMode ModeReady c)
  = if ((0 <? length (Canvas.boundary c))
        && (length (Canvas.boundary c) <? 3))%nat
    then [] else Canvas.boundary c.
Proof.
  unfold Canvas.setMode.
  destruct ((0 <? length (Canvas.boundary c))
            && (length (Canvas.boundary c) <? 3))%nat; reflexivity.
Qed.

Lemma setMode_ready (c : Canvas.State) :
  readyInv (Canvas.setMode ModeReady c).
Proof.
  intros _. split; [reflexivity|].
  unfold completeBoundary. rewrite setMode_ready_boundary.
  destruct (Nat.ltb_spec 0 (length (Canvas.boundary c)));
    destruct (Nat.ltb_spec (length (Canvas.boundary c)) 3);
    cbn [andb length]; lia.
Qed.

Lemma setMode_drawing (m : Mode) (c : Canvas.State) :
  m <> ModeReady -> readyInv (Canvas.setMode m c).
Proof.
  intros Hm H. exfalso. apply Hm.
  destruct m; cbn in H; congruence.
Qed.

(** A handler that leaves the canvas in a drawing mode, or leaves mode,
    buffer and boundary alone, keeps the invariant. *)
Lemma readyInv_frame (c c' : Canvas.State) :
  readyInv c ->
  Canvas.mode c' = Canvas.mode c ->
  (Canvas.mode c = ModeReady ->
   Canvas.currentObstacle c' = Canvas.currentObstacle c
   /\ Canvas.boundary c' = Canvas.boundary c) ->
  readyInv c'.
Proof.
  intros H Hm Hf Hr. rewrite Hm in Hr.
  destruct (Hf Hr) as [-> ->]. exact (H Hr).
Qed.

Lemma finishBoundary_inv (c : Canvas.State) :
  readyInv c -> readyInv (Canvas.finishBoundary c).
Proof.
  intros H. unfold Canvas.finishBoundary.
  destruct (3 <=? length (Canvas.boundary c))%nat; [apply setMode_ready|].
  destruct (0 <? length (Canvas.boundary c))%nat;
    [apply setMode_ready|exact H].
Qed.

Lemma finishObstacle_inv (now : Z) (c : Canvas.State) :
  readyInv c -> readyInv (Canvas.finishObstacle now c).
Proof.
  intros H. unfold Canvas.finishObstacle.
  destruct (3 <=? length (Canvas.currentObstacle c))%nat;
    [apply setMode_ready|].
  destruct (0 <? length (Canvas.currentObstacle c))%nat;
    [apply setMode_ready|exact H].
Qed.

Lemma finishDynamicObstacle_inv (now : Z) (c : Canvas.State) :
  readyInv (Canvas.finishDynamicObstacle now c).
Proof.
  unfold Canvas.finishDynamicObstacle.
  destruct (3 <=? length (Canvas.currentObstacle c))%nat;
    apply setMode_ready.
Qed.

Lemma handleClick_inv (x y : Q) (c : Canvas.State) :
  readyInv c -> readyInv (Canvas.handleClick x y c).
Proof.
  intros H. unfold Canvas.handleClick.
  destruct (Canvas.mode c) eqn:E; [exact H| | |];
    intros Hr; cbn in Hr; congruence.
Qed.

Lemma handleRightClick_inv (now : Z) (c : Canvas.State) :
  readyInv c -> readyInv (Canvas.handleRightClick now c).
Proof.
  intros H. unfold Canvas.handleRightClick.
  destruct (Canvas.mode c); [exact H| | |].
  - destruct (3 <=? _)%nat; [apply finishBoundary_inv|]; exact H.
  - destruct (3 <=? _)%nat; [apply finishObstacle_inv|]; exact H.
  - destruct (3 <=? _)%nat; [apply finishDynamicObstacle_inv|exact H].
Qed.

Lemma handleMouseMove_inv (x y : Q) (c : Canvas.State) :
  readyInv c -> readyInv (Canvas.handleMouseMove x y c).
Proof.
  intros H. unfold Canvas.handleMouseMove.
  destruct (Canvas.isPanning c).
  - eapply readyInv_frame; [exact H|reflexivity|split; reflexivity].
  - destruct (_ || _); [|exact H].
    eapply readyInv_frame; [exact H|reflexivity|split; reflexivity].
Qed.

Lemma handleWheel_inv (x y d : Q) (c : Canvas.State) :
  readyInv c -> readyInv (Canvas.handleWheel x y d c).
Proof.
  intros H. unfold Canvas.handleWheel.
  destruct (negb _); [|exact H].
  eapply readyInv_frame; [exact H|reflexivity|split; reflexivity].
Qed.

Lemma reset_inv (c : Canvas.State) : readyInv (Canvas.reset c).
Proof. unfold Canvas.reset. apply setMode_ready. Qed.

Lemma animate_canvas_frame (path : list Point) (s : Controls.State) :
  readyInv (Controls.canvas s) ->
  readyInv (Controls.canvas (Controls.animate path s)).
Proof.
  intros H. unfold Controls.animate.
  destruct (_ || _); [exact H|].
  destruct (_ <=? _)%Z.
  - eapply readyInv_frame; [exact H|reflexivity|split; reflexivity].
  - destruct (nth_error path (Controls.currentIndex s + 1));
      [destruct (nth_error path (Controls.currentIndex s))|];
      (eapply readyInv_frame; [exact H|reflexivity|split; reflexivity]).
Qed.

Lemma startSimulation_canvas_frame (s : Controls.State) :
  readyInv (Controls.canvas s) ->
  readyInv (Controls.canvas (Controls.startSimulation s)).
Proof.
  intros H. unfold Controls.startSimulation.
  destruct (negb _); [exact H|].
  destruct (_ =? _)%nat; [exact H|].
  apply animate_canvas_frame.
  destruct (_ && _); exact H.
Qed.

Lemma run_canvas_frame (s : Controls.State) :
  readyInv (Controls.canvas s) ->
  readyInv (Controls.canvas (Controls.run s)).
Proof.
  intros H. unfold Controls.run.
  destruct (_ =? _)%nat; [exact H|].
  apply startSimulation_canvas_frame. exact H.
Qed.

Lemma resume_canvas_frame (s : Controls.State) :
  readyInv (Controls.canvas s) ->
  readyInv (Controls.canvas (Controls.resume s)).
Proof.
  intros H. unfold Controls.resume.
  destruct (_ && _); [|exact H].
  apply startSimulation_canvas_frame. exact H.
Qed.

Lemma startBoundary_inv (s : Controls.State) :
  readyInv (Controls.canvas s) ->
  readyInv (Controls.canvas (Controls.startBoundary s)).
Proof.
  intros H. unfold Controls.startBoundary.
  destruct (Canvas.mode (Controls.canvas s)); rewrite canvas_onCanvas;
    try (apply setMode_drawing; discriminate).
  apply finishBoundary_inv. exact H.
Qed.

Lemma addObstacle_inv (now : Z) (s : Controls.State) :
  readyInv (Controls.canvas s) ->
  readyInv (Controls.canvas (Controls.addObstacle now s)).
Proof.
  intros H. unfold Controls.addObstacle.
  destruct (Canvas.mode (Controls.canvas s)); rewrite canvas_onCanvas;
    try (apply setMode_drawing; discriminate).
  apply finishObstacle_inv. exact H.
Qed.

Lemma addDynamicObstacle_inv (now : Z) (s : Controls.State) :
  readyInv (Controls.canvas s) ->
  readyInv (Controls.canvas (Controls.addDynamicObstacle now s)).
Proof.
  intros H. unfold Controls.addDynamicObstacle.
  destruct (Canvas.mode (Controls.canvas s)); rewrite canvas_onCanvas;
    try (apply setMode_drawing; discriminate).
  apply finishDynamicObstacle_inv.
Qed.

Lemma handleKeyboard_inv (key : Key) (ctrl : bool) (now : Z)
    (s : Controls.State) :
  readyInv (Controls.canvas s) ->
  readyInv (Controls.canvas (Controls.handleKeyboard key ctrl now s)).
Proof.
  intros H. destruct key; cbn [Controls.handleKeyboard].
  - destruct ctrl; [apply reset_inv|exact H].
  - apply startBoundary_inv, H.
  - exact H.
  - apply addObstacle_inv, H.
  - apply addDynamicObstacle_inv, H.
  - destruct (_ && _); [exact H|].
    destruct (Controls.isPaused s); [apply run_canvas_frame|]; exact H.
  - destruct (Canvas.mode (Controls.canvas s)).
    + apply setMode_ready.
    + destruct (3 <=? _)%nat;
        [apply finishBoundary_inv, H|apply setMode_ready].
    + destruct (3 <=? _)%nat;
        [apply finishObstacle_inv, H|apply setMode_ready].
    + destruct (3 <=? _)%nat;
        [apply finishDynamicObstacle_inv|apply setMode_ready].
  - eapply readyInv_frame; [exact H|reflexivity|split; reflexivity].
  - eapply readyInv_frame; [exact H|reflexivity|split; reflexivity].
  - destruct ctrl; [|exact H].
    eapply readyInv_frame; [exact H|reflexivity|split; reflexivity].
  - exact H.
Qed.

Lemma dispatch_inv (ev : Event) (s : Controls.State) :
  importsComplete ev = true ->
  readyInv (Controls.canvas s) ->
  readyInv (Controls.canvas (dispatch s ev)).
Proof.
  intros Hev H.
  destruct ev; cbn [dispatch unlessDisabled]; rewrite ?canvas_onCanvas.
  - apply handleClick_inv, H.
  - apply handleRightClick_inv, H.
  - apply handleMouseMove_inv, handleMouseMove_inv, H.
  - unfold Canvas.handleMouseDown. destruct (_ || _); [|exact H].
    eapply readyInv_frame; [exact H|reflexivity|split; reflexivity].
  - unfold Canvas.handleMouseUp.
    destruct (Canvas.isPanning (Controls.canvas s)); [|exact H].
    eapply readyInv_frame; [exact H|reflexivity|split; reflexivity].
  - unfold Canvas.handleMouseLeave.
    destruct (Canvas.isPanning (Controls.canvas s)); [|exact H].
    eapply readyInv_frame; [exact H|reflexivity|split; reflexivity].
  - apply handleWheel_inv, H.
  - apply handleKeyboard_inv, H.
  - apply reset_inv.
  - destruct (Controls.boundaryBtn_disabled s);
      [exact H|apply startBoundary_inv, H].
  - destruct (Controls.addObstacleBtn_disabled s);
      [exact H|apply addObstacle_inv, H].
  - destruct (Controls.addDynamicObstacleBtn_disabled s);
      [exact H|apply addDynamicObstacle_inv, H].
  - destruct (Controls.runBtn_disabled s);
      [exact H|apply run_canvas_frame, H].
  - destruct (Controls.pauseBtn_disabled s); exact H.
  - destruct (Controls.resumeBtn_disabled s);
      [exact H|apply resume_canvas_frame, H].
  - destruct (Controls.stopBtn_disabled s); [exact H|].
    eapply readyInv_frame; [exact H|reflexivity|split; reflexivity].
  - exact H.
  - eapply readyInv_frame; [exact H|reflexivity|split; reflexivity].
  - unfold Controls.fireTimer.
    destruct (nth_error (Controls.timers s) n); [|exact H].
    apply animate_canvas_frame. exact H.
  - eapply readyInv_frame; [exact H|reflexivity|split; reflexivity].
  - eapply readyInv_frame; [exact H|reflexivity|split; reflexivity].
  - eapply readyInv_frame; [exact H|reflexivity|split; reflexivity].
  - cbn [importsComplete] in Hev. intros Hr.
    split; [exact (proj1 (H Hr))|].
    unfold completeBoundary. cbn.
    apply orb_true_iff in Hev as [E|E];
      [apply Nat.eqb_eq in E|apply Nat.leb_le in E]; auto.
  - intros Hr. split; [exact (proj1 (H Hr))|].
    right. cbn. lia.
Qed.

End ReadyInvariant.

(** ** The running and paused flags *)

Section FlagsOverEvents.

Lemma flagsInv_frame (s s' : Controls.State) :
  Controls.isRunning s' = Controls.isRunning s ->
  Controls.isPaused s' = Controls.isPaused s ->
  flagsInv s -> flagsInv s'.
Proof. unfold flagsInv. intros -> ->. auto. Qed.

Lemma onCanvas_flagsInv (f : Canvas.State -> Canvas.State)
    (s : Controls.State) :
  flagsInv s -> flagsInv (Controls.onCanvas f s).
Proof. apply flagsInv_frame; reflexivity. Qed.

Lemma handleKeyboard_flagsInv (key : Key) (ctrl : bool) (now : Z)
    (s : Controls.State) :
  flagsInv s -> flagsInv (Controls.handleKeyboard key ctrl now s).
Proof.
  intros H. destruct key; cbn [Controls.handleKeyboard];
    try (apply onCanvas_flagsInv; exact H); try exact H.
  - destruct ctrl; [|exact H]. intros _. reflexivity.
  - unfold Controls.startBoundary.
    destruct (Canvas.mode (Controls.canvas s));
      apply onCanvas_flagsInv; exact H.
  - unfold Controls.addObstacle.
    destruct (Canvas.mode (Controls.canvas s));
      apply onCanvas_flagsInv; exact H.
  - unfold Controls.addDynamicObstacle.
    destruct (Canvas.mode (Controls.canvas s));
      apply onCanvas_flagsInv; exact H.
  - destruct (Controls.isRunning s) eqn:R; cbn [andb].
    + destruct (Controls.isPaused s) eqn:P; cbn [negb].
      * apply (applyOp_flagsInv OpRun); [exact I|exact H].
      * apply (applyOp_flagsInv OpPause); [exact R|exact H].
    + destruct (Controls.isPaused s) eqn:P; [|exact H].
      apply (applyOp_flagsInv OpRun); [exact I|exact H].
  - destruct (Canvas.mode (Controls.canvas s));
      try destruct (3 <=? _)%nat; apply onCanvas_flagsInv; exact H.
  - destruct ctrl; [apply onCanvas_flagsInv|]; exact H.
Qed.

Lemma dispatch_flagsInv (ev : Event) (s : Controls.State) :
  flagsInv s -> flagsInv (dispatch s ev).
Proof.
  intros H.
  destruct ev; cbn [dispatch unlessDisabled];
    try (apply onCanvas_flagsInv; exact H).
  - apply handleKeyboard_flagsInv, H.
  - intros _. reflexivity.
  - destruct (Controls.boundaryBtn_disabled s); [exact H|].
    apply (handleKeyboard_flagsInv KeyB false 0), H.
  - destruct (Controls.addObstacleBtn_disabled s); [exact H|].
    apply (handleKeyboard_flagsInv KeyO false now), H.
  - destruct (Controls.addDynamicObstacleBtn_disabled s); [exact H|].
    apply (handleKeyboard_flagsInv KeyD false now), H.
  - destruct (Controls.runBtn_disabled s); [exact H|].
    apply (applyOp_flagsInv OpRun); [exact I|exact H].
  - unfold Controls.pauseBtn_disabled.
    destruct (Controls.isRunning s) eqn:R; cbn [negb orb]; [|exact H].
    destruct (Controls.isPaused s || Controls.isDrawing s); [exact H|].
    apply (applyOp_flagsInv OpPause); [exact R|exact H].
  - destruct (Controls.resumeBtn_disabled s); [exact H|].
    apply (applyOp_flagsInv OpResume); [exact I|exact H].
  - destruct (Controls.stopBtn_disabled s); [exact H|].
    apply (applyOp_flagsInv OpStop); [exact I|exact H].
  - exact H.
  - apply (applyOp_flagsInv (OpTick n)); [exact I|exact H].
Qed.

(** Through the page, [pause()] is only reached while running, so the
    flags stay consistent in every state the events can produce. *)
Lemma events_flagsInv (evs : list Event) (s : Controls.State) :
  flagsInv s -> flagsInv (dispatchAll evs s).
Proof.
  unfold dispatchAll. revert s.
  induction evs as [|ev evs IH]; intros s H; [exact H|].
  cbn [fold_left]. apply IH, dispatch_flagsInv, H.
Qed.

End FlagsOverEvents.

(** C7, as the code has it: from a state where [running = false] implies
    [paused = false], every sequence of run, pause, resume, stop and
    timer ticks in which [pause()] is only issued while running ends in
    such a state, and so does every sequence of page events, whose pause
    button and space key reach [pause()] only while running; [pause()]
    itself sets [paused] whatever the state, so it is idempotent but not
    a no-op when idle. *)
Theorem playback_flags_invariant
    (ops : list PlaybackOp) (evs : list Event) (s : Controls.State) :
  flagsInv s ->
  pausesWhileRunning ops s = true ->
  flagsInv (applyOps ops s)
  /\ flagsInv (dispatchAll evs s)
  /\ Controls.pause (Controls.pause (applyOps ops s))
     = Controls.pause (applyOps ops s)
  /\ Controls.isPaused (Controls.pause (applyOps ops s)) = true
  /\ (Controls.pauseBtn_disabled (applyOps ops s) = false ->
      Controls.isRunning (applyOps ops s) = true).
Proof.
  intros H Hops.
  assert (Hinv : flagsInv (applyOps ops s)).
  { revert s H Hops. induction ops as [|op ops IH]; intros s H Hops.
    - exact H.
    - cbn [pausesWhileRunning] in Hops.
      apply andb_true_iff in Hops as [Hop Hrest].
      cbn [applyOps fold_left]. apply IH; [|exact Hrest].
      apply applyOp_flagsInv; [|exact H].
      destruct op; auto. }
  split; [exact Hinv|].
  split; [apply events_flagsInv, H|].
  split; [reflexivity|]. split; [reflexivity|].
  unfold Controls.pauseBtn_disabled.
  destruct (Controls.isRunning (applyOps ops s)); [reflexivity|].
  cbn. discriminate.
Qed.

Lemma playback_flags_invariant_witness :
  flagsInv planned
  /\ pausesWhileRunning sampleOps planned = true
  /\ flagsInv (applyOps sampleOps planned)
  /\ flagsInv (dispatchAll sampleEvents planned).
Proof.
  assert (H : flagsInv planned) by (intros _; reflexivity).
  assert (P : pausesWhileRunning sampleOps planned = true) by reflexivity.
  split; [exact H|]. split; [exact P|].
  pose proof (playback_flags_invariant sampleOps sampleEvents planned H P)
    as T.
  split; [exact (proj1 T)|exact (proj1 (proj2 T))].
Defined.

(** C7 fails as stated: [pause()] on the initial, idle state leaves
    [running = false] with [paused = true], so it is not a no-op and the
    invariant is broken. *)
Lemma pause_while_idle_sets_paused :
  let s := Controls.init (Canvas.init 800 600) in
  flagsInv s
  /\ Controls.isRunning (applyOps [OpPause] s) = false
  /\ Controls.isPaused (applyOps [OpPause] s) = true
  /\ ~ flagsInv (applyOps [OpPause] s)
  /\ Controls.pause s <> s.
Proof.
  cbn. repeat split.
  - intros H. specialize (H eq_refl). discriminate H.
  - intros H. discriminate H.
Qed.

(** C8, as the code has it: in every state reached from a fresh page by
    pointer, key, button, timer and console events, if the mode is ready
    then the vertex buffer is empty and the boundary has 0 or at least 3
    points, provided every imported snapshot carries a boundary with 0 or
    at least 3 points: [importData] does not set the mode and stores the
    boundary as it comes. *)
Theorem ready_mode_invariant (evs : list Event) (w h : Q) :
  forallb importsComplete evs = true ->
  readyInv
    (Controls.canvas
       (dispatchAll evs (Controls.init (Canvas.init w h)))).
Proof.
  intros Hevs. unfold dispatchAll.
  assert (H0 : readyInv (Controls.canvas (Controls.init (Canvas.init w h)))).
  { intros _. split; [reflexivity|left; reflexivity]. }
  revert Hevs H0. generalize (Controls.init (Canvas.init w h)).
  induction evs as [|ev evs IH]; intros s Hevs H0.
  - exact H0.
  - cbn [forallb] in Hevs. apply andb_true_iff in Hevs as [Hev Hevs].
    cbn [fold_left]. apply IH; [exact Hevs|].
    apply dispatch_inv; assumption.
Qed.

Lemma ready_mode_invariant_witness :
  forallb importsComplete sampleEvents = true
  /\ readyInv
       (Controls.canvas
          (dispatchAll sampleEvents (Controls.init (Canvas.init 800 600)))).
Proof.
  assert (H : forallb importsComplete sampleEvents = true) by reflexivity.
  split; [exact H|].
  exact (ready_mode_invariant sampleEvents 800 600 H).
Defined.

(** C8 fails as stated: importing a two-point boundary into a fresh page
    leaves the mode at ready with a boundary of 2 points. *)
Lemma import_two_point_boundary :
  let data :=
    App.mkSnapshot (Some [mkPoint 0 0; mkPoint 100 0]) None None None in
  let s :=
    dispatchAll [EvImport data] (Controls.init (Canvas.init 800 600)) in
  Canvas.mode (Controls.canvas s) = ModeReady
  /\ length (Canvas.boundary (Controls.canvas s)) = 2%nat
  /\ ~ readyInv (Controls.canvas s).
Proof.
  cbn. repeat split.
  intros H. destruct (H eq_refl) as [_ [E|E]]; cbn in E; [discriminate|lia].
Qed.

(** ** The zoom stays inside its bounds *)

Section ScaleInvariant.

Lemma clampScale_range (x : Q) :
  Canvas.minScale <= clampScale x <= Canvas.maxScale.
Proof.
  unfold clampScale. split; [apply Q.le_max_l|].
  apply Q.max_lub; [discriminate|apply Q.le_min_l].
Qed.

(** Every branch of a handler that never assigns [scale] leaves it. *)
Ltac same_scale :=
  repeat match goal with
         | |- context [if ?b then _ else _] => destruct b
         | |- context [match ?m with _ => _ end] => destruct m
         end;
  reflexivity.

Lemma setMode_scale (m : Mode) (c : Canvas.State) :
  Canvas.scale (Canvas.setMode m c) = Canvas.scale c.
Proof. unfold Canvas.setMode. same_scale. Qed.

Lemma drawing_scale (c : Canvas.State) (x y : Q) (now : Z) :
  Canvas.scale (Canvas.handleClick x y c) = Canvas.scale c
  /\ Canvas.scale (Canvas.handleRightClick now c) = Canvas.scale c
  /\ Canvas.scale (Canvas.finishBoundary c) = Canvas.scale c
  /\ Canvas.scale (Canvas.finishObstacle now c) = Canvas.scale c
  /\ Canvas.scale (Canvas.finishDynamicObstacle now c) = Canvas.scale c
  /\ Canvas.scale (Canvas.reset c) = Canvas.scale c.
Proof.
  repeat split;
    unfold Canvas.handleClick, Canvas.handleRightClick, Canvas.finishBoundary,
      Canvas.finishObstacle, Canvas.finishDynamicObstacle, Canvas.reset;
    repeat match goal with
           | |- context [if ?b then _ else _] => destruct b
           | |- context [match Canvas.mode c with _ => _ end] =>
               destruct (Canvas.mode c)
           end;
    rewrite ?setMode_scale; reflexivity.
Qed.

Lemma pointer_scale (c : Canvas.State) (b : Z) (ctrl : bool) (x y : Q) :
  Canvas.scale (Canvas.handleMouseMove x y c) = Canvas.scale c
  /\ Canvas.scale (Canvas.handleMouseDown b ctrl x y c) = Canvas.scale c
  /\ Canvas.scale (Canvas.handleMouseUp c) = Canvas.scale c
  /\ Canvas.scale (Canvas.handleMouseLeave c) = Canvas.scale c.
Proof.
  repeat split;
    unfold Canvas.handleMouseMove, Canvas.handleMouseDown,
      Canvas.handleMouseUp, Canvas.handleMouseLeave;
    same_scale.
Qed.

Lemma playback_scale (s : Controls.State) (path : list Point) (n : nat) :
  Canvas.scale (Controls.canvas (Controls.animate path s))
  = Canvas.scale (Controls.canvas s)
  /\ Canvas.scale (Controls.canvas (Controls.startSimulation s))
     = Canvas.scale (Controls.canvas s)
  /\ Canvas.scale (Controls.canvas (Controls.run s))
     = Canvas.scale (Controls.canvas s)
  /\ Canvas.scale (Controls.canvas (Controls.resume s))
     = Canvas.scale (Controls.canvas s)
  /\ Canvas.scale (Controls.canvas (Controls.fireTimer n s))
     = Canvas.scale (Controls.canvas s).
Proof.
  assert (A : forall path s,
             Canvas.scale (Controls.canvas (Controls.animate path s))
             = Canvas.scale (Controls.canvas s))
    by (intros; unfold Controls.animate; same_scale).
  assert (B : forall s,
             Canvas.scale (Controls.canvas (Controls.startSimulation s))
             = Canvas.scale (Controls.canvas s)).
  { intros s0. unfold Controls.startSimulation.
    repeat match goal with
           | |- context [if ?b then _ else _] => destruct b
           end; rewrite ?A; reflexivity. }
  split; [apply A|]. split; [apply B|].
  split; [|split].
  - unfold Controls.run. destruct (_ =? _)%nat; rewrite ?B; reflexivity.
  - unfold Controls.resume. destruct (_ && _); rewrite ?B; reflexivity.
  - unfold Controls.fireTimer.
    destruct (nth_error (Controls.timers s) n); rewrite ?A; reflexivity.
Qed.

Lemma zoom_inRange (c : Canvas.State) (x y d : Q) :
  scaleInRange c ->
  scaleInRange (Canvas.handleWheel x y d c)
  /\ scaleInRange (Canvas.zoomIn c)
  /\ scaleInRange (Canvas.zoomOut c)
  /\ scaleInRange (Canvas.resetZoom c).
Proof.
  intros H. pose proof H as [Hlo Hhi].
  assert (Hpos : 0 < Canvas.scale c)
    by (eapply Qlt_le_trans; [apply minScale_pos|exact Hlo]).
  unfold scaleInRange. repeat split.
  - rewrite (proj2 (handleWheel_focal x y d c Hpos)). apply clampScale_range.
  - rewrite (proj2 (handleWheel_focal x y d c Hpos)). apply clampScale_range.
  - rewrite (proj2 (zoomIn_focal c Hlo)). apply clampScale_range.
  - rewrite (proj2 (zoomIn_focal c Hlo)). apply clampScale_range.
  - rewrite (proj2 (zoomOut_focal c Hpos Hhi)). apply clampScale_range.
  - rewrite (proj2 (zoomOut_focal c Hpos Hhi)). apply clampScale_range.
  - discriminate.
  - discriminate.
Qed.

Lemma scaleInRange_frame (c c' : Canvas.State) :
  Canvas.scale c' = Canvas.scale c -> scaleInRange c -> scaleInRange c'.
Proof. unfold scaleInRange. intros ->. auto. Qed.

Lemma handleKeyboard_inRange (key : Key) (ctrl : bool) (now : Z)
    (s : Controls.State) :
  scaleInRange (Controls.canvas s) ->
  scaleInRange (Controls.canvas (Controls.handleKeyboard key ctrl now s)).
Proof.
  intros H.
  pose proof (drawing_scale (Controls.canvas s) 0 0 now)
    as [_ [_ [Fb [Fo [Fd Fr]]]]].
  pose proof (zoom_inRange (Controls.canvas s) 0 0 0 H) as [_ [Zi [Zo Zr]]].
  destruct key; cbn [Controls.handleKeyboard]; try exact H.
  - destruct ctrl; [|exact H].
    apply (scaleInRange_frame (Controls.canvas s)); [exact Fr|exact H].
  - unfold Controls.startBoundary.
    destruct (Canvas.mode (Controls.canvas s)); rewrite canvas_onCanvas;
      (apply (scaleInRange_frame (Controls.canvas s));
       [first [apply setMode_scale|exact Fb]|exact H]).
  - unfold Controls.addObstacle.
    destruct (Canvas.mode (Controls.canvas s)); rewrite canvas_onCanvas;
      (apply (scaleInRange_frame (Controls.canvas s));
       [first [apply setMode_scale|exact Fo]|exact H]).
  - unfold Controls.addDynamicObstacle.
    destruct (Canvas.mode (Controls.canvas s)); rewrite canvas_onCanvas;
      (apply (scaleInRange_frame (Controls.canvas s));
       [first [apply setMode_scale|exact Fd]|exact H]).
  - destruct (_ && _); [exact H|].
    destruct (Controls.isPaused s); [|exact H].
    apply (scaleInRange_frame (Controls.canvas s)); [|exact H].
    apply (playback_scale s [] 0).
  - destruct (Canvas.mode (Controls.canvas s));
      try destruct (3 <=? _)%nat; rewrite canvas_onCanvas;
      (apply (scaleInRange_frame (Controls.canvas s));
       [first [apply setMode_scale|exact Fb|exact Fo|exact Fd]|exact H]).
  - exact Zi.
  - exact Zo.
  - destruct ctrl; [exact Zr|exact H].
Qed.

Lemma dispatch_inRange (ev : Event) (s : Controls.State) :
  scaleInRange (Controls.canvas s) ->
  scaleInRange (Controls.canvas (dispatch s ev)).
Proof.
  intros H.
  pose proof (playback_scale s) as P.
  destruct ev; cbn [dispatch unlessDisabled]; rewrite ?canvas_onCanvas;
    try exact H.
  - apply (scaleInRange_frame (Controls.canvas s)); [|exact H].
    apply (drawing_scale (Controls.canvas s) canvasX canvasY 0).
  - apply (scaleInRange_frame (Controls.canvas s)); [|exact H].
    apply (drawing_scale (Controls.canvas s) 0 0 now).
  - apply (scaleInRange_frame (Controls.canvas s)); [|exact H].
    rewrite (proj1 (pointer_scale _ 0 false canvasX canvasY)).
    apply (pointer_scale (Controls.canvas s) 0 false canvasX canvasY).
  - apply (scaleInRange_frame (Controls.canvas s)); [|exact H].
    apply (pointer_scale (Controls.canvas s) button ctrlKey canvasX canvasY).
  - apply (scaleInRange_frame (Controls.canvas s)); [|exact H].
    apply (pointer_scale (Controls.canvas s) 0 false 0 0).
  - apply (scaleInRange_frame (Controls.canvas s)); [|exact H].
    apply (pointer_scale (Controls.canvas s) 0 false 0 0).
  - apply (zoom_inRange (Controls.canvas s) mouseX mouseY deltaY H).
  - apply handleKeyboard_inRange, H.
  - destruct (Controls.boundaryBtn_disabled s); [exact H|].
    apply (handleKeyboard_inRange KeyB false 0), H.
  - destruct (Controls.addObstacleBtn_disabled s); [exact H|].
    apply (handleKeyboard_inRange KeyO false now), H.
  - destruct (Controls.addDynamicObstacleBtn_disabled s); [exact H|].
    apply (handleKeyboard_inRange KeyD false now), H.
  - destruct (Controls.runBtn_disabled s); [exact H|].
    apply (scaleInRange_frame (Controls.canvas s)); [apply (P [] 0%nat)|exact H].
  - destruct (Controls.pauseBtn_disabled s); exact H.
  - destruct (Controls.resumeBtn_disabled s); [exact H|].
    apply (scaleInRange_frame (Controls.canvas s)); [apply (P [] 0%nat)|exact H].
  - destruct (Controls.stopBtn_disabled s); exact H.
  - apply (scaleInRange_frame (Controls.canvas s)); [apply (P [] n)|exact H].
Qed.

(** X1: the zoom stays inside its bounds: in every state reached from the
    initial one by page events the scale lies between [minScale] and
    [maxScale]. *)
Lemma scale_stays_in_range (evs : list Event) (w h : Q) :
  scaleInRange
    (Controls.canvas (dispatchAll evs (Controls.init (Canvas.init w h)))).
Proof.
  unfold dispatchAll.
  assert (H0 : scaleInRange (Controls.canvas (Controls.init (Canvas.init w h))))
    by (split; discriminate).
  revert H0. generalize (Controls.init (Canvas.init w h)).
  induction evs as [|ev evs IH]; intros s H0; [exact H0|].
  cbn [fold_left]. apply IH, dispatch_inRange, H0.
Qed.

End ScaleInvariant.

(** ** Drawing: finishing and redrawing *)

Section Drawing.

Lemma intString_inj (a b : Z) : intString a = intString b -> a = b.
Proof.
  unfold intString. intros E.
  apply DecimalZ.to_int_inj.
  assert (N : forall z, Z.to_int z <> Decimal.Pos Decimal.Nil
                        /\ Z.to_int z <> Decimal.Neg Decimal.Nil).
  { intros [|p|p]; cbn; split; try discriminate;
      intros [= H]; now apply DecimalPos.Unsigned.to_uint_nonnil in H. }
  pose proof (NilZero.isi (Z.to_int a) (proj1 (N a)) (proj2 (N a))) as Ha.
  pose proof (NilZero.isi (Z.to_int b) (proj1 (N b)) (proj2 (N b))) as Hb.
  rewrite E in Ha. congruence.
Qed.

Lemma staticId_inj (a b : Z) : staticId a = staticId b -> a = b.
Proof.
  unfold staticId. cbn. intros [= E]. now apply intString_inj.
Qed.

Lemma dynamicId_inj (a b : Z) : dynamicId a = dynamicId b -> a = b.
Proof.
  unfold dynamicId. cbn. intros [= E]. now apply intString_inj.
Qed.

Lemma staticId_dynamicId (a b : Z) : staticId a <> dynamicId b.
Proof. unfold staticId, dynamicId. cbn. discriminate. Qed.

(** Clicks in boundary mode go straight into the boundary list. *)
Lemma clicks_extend_boundary (clicks : list (Q * Q)) :
  forall s : Controls.State,
    Canvas.mode (Controls.canvas s) = ModeBoundary ->
    let s' := dispatchAll (clickEvents clicks) s in
    Canvas.boundary (Controls.canvas s')
    = Canvas.boundary (Controls.canvas s)
      ++ worldPoints (Controls.canvas s) clicks
    /\ Canvas.mode (Controls.canvas s') = ModeBoundary.
Proof.
  induction clicks as [|[x y] clicks IH]; intros s Hm.
  - cbn. rewrite app_nil_r. auto.
  - cbn [clickEvents map dispatchAll fold_left fst snd].
    set (s1 := dispatch s (EvClick x y)).
    assert (H1 : Controls.canvas s1
                 = Canvas.addBoundaryPoint
                     (Canvas.getMousePosition x y (Controls.canvas s))
                     (Controls.canvas s)).
    { unfold s1. cbn [dispatch]. rewrite canvas_onCanvas.
      unfold Canvas.handleClick. rewrite Hm. reflexivity. }
    assert (Hm1 : Canvas.mode (Controls.canvas s1) = ModeBoundary)
      by (rewrite H1; exact Hm).
    destruct (IH s1 Hm1) as [Hb Hmode].
    fold (clickEvents clicks). fold (dispatchAll (clickEvents clicks) s1).
    split; [|exact Hmode].
    rewrite Hb, H1. cbn [worldPoints map fst snd].
    change (Canvas.boundary
              (Canvas.addBoundaryPoint
                 (Canvas.getMousePosition x y (Controls.canvas s))
                 (Controls.canvas s)))
      with (Canvas.boundary (Controls.canvas s)
            ++ [Canvas.getMousePosition x y (Controls.canvas s)]).
    rewrite <- app_assoc. reflexivity.
Qed.

End Drawing.

(** C9, as the code has it: with a committed boundary of at least 3
    points, entering boundary mode leaves the boundary as it is, and every
    point placed afterwards is appended to that same list at once; a
    finish keeps the extended list, the old vertices followed by the new
    ones, and returns to ready. *)
Theorem redrawing_extends_boundary
    (s : Controls.State) (clicks : list (Q * Q)) :
  Canvas.mode (Controls.canvas s) = ModeReady ->
  (3 <= length (Canvas.boundary (Controls.canvas s)))%nat ->
  let old := Canvas.boundary (Controls.canvas s) in
  let started := Controls.startBoundary s in
  let drawn := dispatchAll (clickEvents clicks) started in
  let finished := Controls.startBoundary drawn in
  Canvas.boundary (Controls.canvas started) = old
  /\ Canvas.mode (Controls.canvas started) = ModeBoundary
  /\ Canvas.boundary (Controls.canvas drawn)
     = old ++ worldPoints (Controls.canvas s) clicks
  /\ Canvas.mode (Controls.canvas drawn) = ModeBoundary
  /\ Canvas.boundary (Controls.canvas finished)
     = old ++ worldPoints (Controls.canvas s) clicks
  /\ Canvas.mode (Controls.canvas finished) = ModeReady.
Proof.
  intros Hm Hlen old started drawn finished.
  assert (Hs : Controls.canvas started
               = Canvas.setMode ModeBoundary (Controls.canvas s)).
  { unfold started, Controls.startBoundary. rewrite Hm. reflexivity. }
  assert (Hb : Canvas.boundary (Controls.canvas started) = old)
    by (rewrite Hs; reflexivity).
  assert (Hsm : Canvas.mode (Controls.canvas started) = ModeBoundary)
    by (rewrite Hs; reflexivity).
  destruct (clicks_extend_boundary clicks started Hsm) as [Hd Hdm].
  fold drawn in Hd, Hdm.
  assert (Hw : worldPoints (Controls.canvas started) clicks
               = worldPoints (Controls.canvas s) clicks)
    by (rewrite Hs; reflexivity).
  rewrite Hb, Hw in Hd.
  assert (Hf : Controls.canvas finished
               = Canvas.setMode ModeReady (Controls.canvas drawn)).
  { unfold finished, Controls.startBoundary. rewrite Hdm.
    rewrite canvas_onCanvas. unfold Canvas.finishBoundary.
    rewrite Hd, length_app.
    destruct (Nat.leb_spec 3
                (length old + length (worldPoints (Controls.canvas s) clicks)));
      [reflexivity|unfold old in *; lia]. }
  repeat split; try assumption.
  - rewrite Hf, setMode_ready_boundary, Hd, length_app.
    destruct (Nat.ltb_spec
                (length old + length (worldPoints (Controls.canvas s) clicks))
                3); [unfold old in *; lia|].
    rewrite andb_false_r. reflexivity.
  - rewrite Hf. reflexivity.
Qed.

Lemma redrawing_extends_boundary_witness :
  Canvas.mode (Controls.canvas withTriangle) = ModeReady
  /\ (3 <= length (Canvas.boundary (Controls.canvas withTriangle)))%nat
  /\ Canvas.boundary
       (Controls.canvas
          (dispatchAll (clickEvents [(10, 10)])
             (Controls.startBoundary withTriangle)))
     = Canvas.boundary (Controls.canvas withTriangle)
       ++ worldPoints (Controls.canvas withTriangle) [(10, 10)].
Proof.
  assert (M : Canvas.mode (Controls.canvas withTriangle) = ModeReady)
    by reflexivity.
  assert (L : (3 <= length (Canvas.boundary (Controls.canvas withTriangle)))%nat)
    by (simpl; lia).
  split; [exact M|]. split; [exact L|].
  exact (proj1 (proj2 (proj2
           (redrawing_extends_boundary withTriangle [(10, 10)] M L)))).
Defined.

(** C9 fails as stated: one point placed while redrawing changes the
    committed triangle at once, and the finish keeps the four points. *)
Lemma redrawing_changes_committed_boundary :
  let drawn :=
    dispatchAll (clickEvents [(10, 10)]) (Controls.startBoundary withTriangle) in
  Canvas.mode (Controls.canvas withTriangle) = ModeReady
  /\ Canvas.boundary (Controls.canvas withTriangle) = triangle
  /\ Canvas.boundary (Controls.canvas drawn) = triangle ++ [mkPoint 10 10]
  /\ Canvas.boundary (Controls.canvas drawn) <> triangle
  /\ Canvas.boundary (Controls.canvas (Controls.startBoundary drawn))
     = triangle ++ [mkPoint 10 10].
Proof.
  cbn. repeat split. discriminate.
Qed.

Lemma setMode_obstacles (m : Mode) (c : Canvas.State) :
  Canvas.obstacles (Canvas.setMode m c) = Canvas.obstacles c
  /\ Canvas.dynamicObstacles (Canvas.setMode m c) = Canvas.dynamicObstacles c.
Proof.
  unfold Canvas.setMode.
  destruct m; [|split; reflexivity..].
  destruct ((0 <? length (Canvas.boundary c))
            && (length (Canvas.boundary c) <? 3))%nat; split; reflexivity.
Qed.

Lemma setMode_ready_sameObstacles (c c' : Canvas.State) :
  sameObstacles c c' -> sameObstacles c (Canvas.setMode ModeReady c').
Proof.
  intros [Ho Hd]. unfold sameObstacles.
  destruct (setMode_obstacles ModeReady c') as [-> ->]. auto.
Qed.

Lemma finishObstacle_two (now : Z) (c : Canvas.State) :
  length (Canvas.currentObstacle c) = 2%nat ->
  discarded c (Canvas.finishObstacle now c)
  /\ discarded c (Canvas.finishDynamicObstacle now c).
Proof.
  intros H. unfold Canvas.finishObstacle, Canvas.finishDynamicObstacle.
  rewrite H. cbn [Nat.leb Nat.ltb].
  unfold discarded, keptBoundary.
  rewrite !setMode_ready_boundary.
  repeat split; try (apply setMode_ready_sameObstacles; split; reflexivity).
Qed.

Lemma finishObstacle_three (now : Z) (c : Canvas.State) :
  length (Canvas.currentObstacle c) = 3%nat ->
  Canvas.obstacles (Canvas.finishObstacle now c)
  = Canvas.obstacles c
    ++ [mkObstacle (staticId now) (Canvas.currentObstacle c) Static]
  /\ Canvas.dynamicObstacles (Canvas.finishObstacle now c)
     = Canvas.dynamicObstacles c
  /\ Canvas.currentObstacle (Canvas.finishObstacle now c) = []
  /\ Canvas.mode (Canvas.finishObstacle now c) = ModeReady.
Proof.
  intros H. unfold Canvas.finishObstacle. rewrite H. cbn [Nat.leb].
  match goal with
  | |- context [Canvas.setMode ModeReady ?c'] =>
      destruct (setMode_obstacles ModeReady c') as [-> ->]
  end.
  repeat split.
Qed.

Lemma finishDynamicObstacle_three (now : Z) (c : Canvas.State) :
  length (Canvas.currentObstacle c) = 3%nat ->
  Canvas.dynamicObstacles (Canvas.finishDynamicObstacle now c)
  = Canvas.dynamicObstacles c
    ++ [mkObstacle (dynamicId now) (Canvas.currentObstacle c) Dynamic]
  /\ Canvas.obstacles (Canvas.finishDynamicObstacle now c)
     = Canvas.obstacles c
  /\ Canvas.currentObstacle (Canvas.finishDynamicObstacle now c) = []
  /\ Canvas.mode (Canvas.finishDynamicObstacle now c) = ModeReady.
Proof.
  intros H. unfold Canvas.finishDynamicObstacle. rewrite H. cbn [Nat.leb].
  match goal with
  | |- context [Canvas.setMode ModeReady ?c'] =>
      destruct (setMode_obstacles ModeReady c') as [-> ->]
  end.
  repeat split.
Qed.

Lemma finishBoundary_two (c : Canvas.State) :
  length (Canvas.boundary c) = 2%nat ->
  Canvas.boundary (Canvas.finishBoundary c) = []
  /\ Canvas.mode (Canvas.finishBoundary c) = ModeReady
  /\ sameObstacles c (Canvas.finishBoundary c).
Proof.
  intros H. unfold Canvas.finishBoundary. rewrite H. cbn [Nat.leb Nat.ltb].
  repeat split; apply setMode_ready_sameObstacles; split; reflexivity.
Qed.

Lemma finishBoundary_three (c : Canvas.State) :
  length (Canvas.boundary c) = 3%nat ->
  Canvas.boundary (Canvas.finishBoundary c) = Canvas.boundary c
  /\ Canvas.mode (Canvas.finishBoundary c) = ModeReady
  /\ sameObstacles c (Canvas.finishBoundary c).
Proof.
  intros H. unfold Canvas.finishBoundary. rewrite H.
  cbn [Nat.leb]. rewrite setMode_ready_boundary, H.
  repeat split; apply setMode_ready_sameObstacles; split; reflexivity.
Qed.

(** C3, as the code has it.  Finishing an obstacle drawing (static or
    dynamic) whose buffer holds exactly 2 points adds nothing to either
    registry, empties the buffer and returns to ready; with exactly 3
    points it appends one record to the registry of the drawing mode, with
    the buffered points, the matching kind and the id [obstacle_<now>] or
    [dynamic_<now>] built from the clock reading, which differs from the
    id of any finish made at another clock reading and from every id of
    the other kind.  The boundary has no buffer of its own: finishing when
    the boundary list holds exactly 2 points empties it, and with exactly
    3 points keeps it. *)
Theorem finish_with_two_or_three
    (c2 c3 b2 b3 : Canvas.State) (now : Z) :
  length (Canvas.currentObstacle c2) = 2%nat ->
  length (Canvas.currentObstacle c3) = 3%nat ->
  length (Canvas.boundary b2) = 2%nat ->
  length (Canvas.boundary b3) = 3%nat ->
  (discarded c2 (Canvas.finishObstacle now c2)
   /\ discarded c2 (Canvas.finishDynamicObstacle now c2))
  /\ (Canvas.obstacles (Canvas.finishObstacle now c3)
      = Canvas.obstacles c3
        ++ [mkObstacle (staticId now) (Canvas.currentObstacle c3) Static]
      /\ Canvas.dynamicObstacles (Canvas.finishObstacle now c3)
         = Canvas.dynamicObstacles c3
      /\ Canvas.currentObstacle (Canvas.finishObstacle now c3) = []
      /\ Canvas.mode (Canvas.finishObstacle now c3) = ModeReady)
  /\ (Canvas.dynamicObstacles (Canvas.finishDynamicObstacle now c3)
      = Canvas.dynamicObstacles c3
        ++ [mkObstacle (dynamicId now) (Canvas.currentObstacle c3) Dynamic]
      /\ Canvas.obstacles (Canvas.finishDynamicObstacle now c3)
         = Canvas.obstacles c3
      /\ Canvas.currentObstacle (Canvas.finishDynamicObstacle now c3) = []
      /\ Canvas.mode (Canvas.finishDynamicObstacle now c3) = ModeReady)
  /\ (Canvas.boundary (Canvas.finishBoundary b2) = []
      /\ Canvas.mode (Canvas.finishBoundary b2) = ModeReady
      /\ sameObstacles b2 (Canvas.finishBoundary b2))
  /\ (Canvas.boundary (Canvas.finishBoundary b3) = Canvas.boundary b3
      /\ Canvas.mode (Canvas.finishBoundary b3) = ModeReady
      /\ sameObstacles b3 (Canvas.finishBoundary b3))
  /\ (forall t, staticId t = staticId now -> t = now)
  /\ (forall t, dynamicId t = dynamicId now -> t = now)
  /\ (forall t, staticId t <> dynamicId now).
Proof.
  intros Hc2 Hc3 Hb2 Hb3.
  split; [apply finishObstacle_two, Hc2|].
  split; [apply finishObstacle_three, Hc3|].
  split; [apply finishDynamicObstacle_three, Hc3|].
  split; [apply finishBoundary_two, Hb2|].
  split; [apply finishBoundary_three, Hb3|].
  split; [intros t; apply staticId_inj|].
  split; [intros t; apply dynamicId_inj|].
  intros t. apply staticId_dynamicId.
Qed.

Lemma finish_with_two_or_three_witness :
  length (Canvas.currentObstacle twoBuffered) = 2%nat
  /\ length (Canvas.currentObstacle threeBuffered) = 3%nat
  /\ length (Canvas.boundary twoOnBoundary) = 2%nat
  /\ length (Canvas.boundary threeOnBoundary) = 3%nat
  /\ discarded twoBuffered (Canvas.finishObstacle 1000 twoBuffered)
  /\ discarded twoBuffered (Canvas.finishDynamicObstacle 1000 twoBuffered).
Proof.
  assert (H2 : length (Canvas.currentObstacle twoBuffered) = 2%nat)
    by reflexivity.
  assert (H3 : length (Canvas.currentObstacle threeBuffered) = 3%nat)
    by reflexivity.
  assert (B2 : length (Canvas.boundary twoOnBoundary) = 2%nat) by reflexivity.
  assert (B3 : length (Canvas.boundary threeOnBoundary) = 3%nat)
    by reflexivity.
  split; [exact H2|]. split; [exact H3|]. split; [exact B2|].
  split; [exact B3|].
  exact (proj1 (finish_with_two_or_three twoBuffered threeBuffered
                  twoOnBoundary threeOnBoundary 1000 H2 H3 B2 B3)).
Defined.

(** C3 fails as stated: two obstacles finished at the same clock reading
    carry the same id, and a finish after two points placed over a
    committed triangle commits a boundary of five points. *)
Lemma finish_repeats_id_and_commits_redraw :
  map obs_id (Canvas.obstacles (Controls.canvas twoAtSameTick))
  = [staticId 1000; staticId 1000]
  /\ ~ NoDup (map obs_id (Canvas.obstacles (Controls.canvas twoAtSameTick)))
  /\ Canvas.boundary (Controls.canvas withTriangle) = triangle
  /\ Canvas.boundary (Controls.canvas redrawnWithTwo)
     = triangle ++ [mkPoint 10 10; mkPoint 20 20]
  /\ Canvas.boundary (Controls.canvas redrawnWithTwo) <> triangle.
Proof.
  assert (E : map obs_id (Canvas.obstacles (Controls.canvas twoAtSameTick))
              = [staticId 1000; staticId 1000]) by reflexivity.
  split; [exact E|]. split.
  - rewrite E. intros H. inversion H as [|x l Hin _]; subst.
    apply Hin. left. reflexivity.
  - repeat split. discriminate.
Qed.

(** ** Union area *)

Section Printing.

Lemma string_of_uint_allDigits (d : Decimal.uint) :
  allDigits (NilEmpty.string_of_uint d) = true.
Proof. induction d; cbn; auto. Qed.

Lemma digits_allDigits (n : N) : allDigits (Js.digits n) = true.
Proof.
  unfold Js.digits, NilZero.string_of_uint.
  destruct (N.to_uint n); try apply string_of_uint_allDigits. reflexivity.
Qed.

Lemma to_uint_nonnil (n : N) : N.to_uint n <> Decimal.Nil.
Proof.
  destruct n; cbn; [discriminate|apply DecimalPos.Unsigned.to_uint_nonnil].
Qed.

Lemma natOfDigits_digits (n : N) : Js.natOfDigits (Js.digits n) = Some n.
Proof.
  unfold Js.natOfDigits, Js.digits.
  rewrite NilZero.usu by apply to_uint_nonnil.
  cbn. rewrite DecimalN.Unsigned.of_to. reflexivity.
Qed.

Lemma digits_nonempty (n : N) :
  exists c r, Js.digits n = String c r /\ Js.isDigit c = true.
Proof.
  pose proof (digits_allDigits n) as H.
  pose proof (natOfDigits_digits n) as P.
  destruct (Js.digits n) as [|c r]; [discriminate P|].
  exists c, r. split; [reflexivity|].
  cbn in H. apply andb_true_iff in H. apply H.
Qed.

Lemma digits_one_char (n : N) :
  (n < 10)%N -> String.length (Js.digits n) = 1%nat.
Proof.
  intros H.
  assert (A : forallb (fun k => (String.length (Js.digits (N.of_nat k)) =? 1)%nat)
                (seq 0 10) = true) by reflexivity.
  rewrite forallb_forall in A.
  specialize (A (N.to_nat n)). rewrite Nnat.N2Nat.id in A.
  apply Nat.eqb_eq, A, in_seq. lia.
Qed.

Lemma spanDigits_all (d : string) :
  allDigits d = true -> Js.spanDigits d = (d, EmptyString).
Proof.
  induction d as [|c d IH]; cbn; [reflexivity|].
  intros H. apply andb_true_iff in H as [Hc Hd].
  rewrite Hc, (IH Hd). reflexivity.
Qed.

Lemma spanDigits_dot (d r : string) :
  allDigits d = true ->
  Js.spanDigits (d ++ String "."%char r)%string = (d, String "."%char r).
Proof.
  induction d as [|c d IH]; cbn; [reflexivity|].
  intros H. apply andb_true_iff in H as [Hc Hd].
  rewrite Hc, (IH Hd). reflexivity.
Qed.

Lemma parseFloatStr_digit (c : ascii) (r : string) :
  Js.isDigit c = true ->
  Js.parseFloatStr (String c r) = Js.parseUnsigned (String c r).
Proof.
  destruct c as [[] [] [] [] [] [] [] []]; cbn; try discriminate; reflexivity.
Qed.

(** Parsing the text of [a.b] with a one-digit fraction. *)
Lemma parse_fixed (a b : N) :
  (b < 10)%N ->
  Js.parseFloatStr (Js.digits a ++ String "."%char (Js.digits b))%string
  = Some (inject_Z (Z.of_N a) + inject_Z (Z.of_N b) / inject_Z (10 ^ 1)).
Proof.
  intros Hb.
  destruct (digits_nonempty a) as [c [r [Ea Hc]]].
  rewrite Ea. cbn [String.append]. rewrite parseFloatStr_digit by exact Hc.
  change (String c (r ++ String "."%char (Js.digits b))%string)
    with (String c r ++ String "."%char (Js.digits b))%string.
  rewrite <- Ea. unfold Js.parseUnsigned.
  rewrite spanDigits_dot by apply digits_allDigits.
  rewrite spanDigits_all by apply digits_allDigits.
  cbn [fst]. rewrite !natOfDigits_digits, digits_one_char by exact Hb.
  rewrite Ea. reflexivity.
Qed.

Lemma tenths_nonneg (x : Q) : (0 <= Js.tenths x)%Z.
Proof.
  unfold Js.tenths.
  change 0%Z with (Qfloor 0). apply Qfloor_resp_le.
  pose proof (Qabs_nonneg x) as H.
  apply Qle_trans with (Qabs x * 10 + 0).
  - rewrite Qplus_0_r. apply Qmult_le_0_compat; [exact H|discriminate].
  - apply Qplus_le_r. discriminate.
Qed.

(** [parseFloat] reads back the value [toFixed(1)] printed. *)
Lemma parseFloat_toFixed1 (x : Q) :
  0 <= x ->
  exists r, Js.parseFloatStr (Js.toFixed1 x) = Some r
            /\ r == inject_Z (Js.tenths x) / 10.
Proof.
  intros Hx. unfold Js.toFixed1.
  assert (B : Qle_bool 0 x = true) by (apply Qle_bool_iff; exact Hx).
  rewrite B.
  set (n := Z.to_N (Js.tenths x)).
  assert (Hn : Z.of_N n = Js.tenths x)
    by (unfold n; rewrite Z2N.id; [reflexivity|apply tenths_nonneg]).
  rewrite parse_fixed by (apply N.mod_lt; discriminate).
  eexists. split; [reflexivity|].
  rewrite <- Hn.
  rewrite (N.div_mod n 10) at 3 by discriminate.
  rewrite N2Z.inj_add, N2Z.inj_mul, inject_Z_plus, inject_Z_mult.
  change (inject_Z (10 ^ 1)) with 10. change (inject_Z (Z.of_N 10)) with 10.
  field.
Qed.

End Printing.

Section Grid.

Lemma count_fold (f : nat -> bool) (l : list nat) :
  forall acc : nat,
    fold_left (fun coveredCells j => if f j then S coveredCells
                                     else coveredCells) l acc
    = (acc + length (filter f l))%nat.
Proof.
  induction l as [|j l IH]; intros acc; cbn [fold_left filter].
  - cbn. lia.
  - rewrite IH. destruct (f j); cbn [length]; lia.
Qed.

Lemma count_fold2 (f : nat -> nat -> bool) (rows : list nat)
    (cols : list nat) :
  forall acc : nat,
    fold_left
      (fun coveredCells i =>
         fold_left (fun coveredCells j => if f i j then S coveredCells
                                          else coveredCells) rows coveredCells)
      cols acc
    = (acc + length (filter (fun cell => f (fst cell) (snd cell))
                       (list_prod cols rows)))%nat.
Proof.
  induction cols as [|i cols IH]; intros acc; cbn [fold_left list_prod].
  - cbn. lia.
  - rewrite IH, count_fold, filter_app, length_app.
    assert (E : length (filter (fun cell => f (fst cell) (snd cell))
                          (map (fun y => (i, y)) rows))
                = length (filter (f i) rows)).
    { clear. induction rows as [|j rows IH]; cbn; [reflexivity|].
      destruct (f i j); cbn; rewrite IH; reflexivity. }
    rewrite E. lia.
Qed.

Lemma countCovered_filter (polygons : list (list Point))
    (b : Controls.Box) :
  Controls.countCovered polygons b
  = length (filter (cellCovered polygons b) (gridCells b)).
Proof.
  unfold Controls.countCovered, gridCells.
  destruct (Controls.gridSize b) as [gridWidth gridHeight]. cbn [fst snd].
  rewrite (count_fold2
             (fun i j =>
                existsb (Controls.isPointInPolygon (Controls.cellCenter b i j))
                  polygons)).
  reflexivity.
Qed.

End Grid.

(** * Further properties of the code *)

(** ** Panning by dragging *)

Section Panning.

Lemma dragging_move (c c' : Canvas.State) (x0 y0 x y x' y' : Q) :
  dragging c c' x0 y0 x y ->
  dragging c (Canvas.handleMouseMove x' y' c') x0 y0 x' y'.
Proof.
  intros (Hp & Hl & Hs & Hx & Hy & Hm & Hb & Ho).
  unfold Canvas.handleMouseMove. rewrite Hp.
  unfold dragging. repeat split; try assumption.
  - change (Canvas.panX c' + (x' - px (Canvas.lastPanPoint c'))
            == Canvas.panX c + (x' - x0)).
    rewrite Hl, Hx. cbn [px]. ring.
  - change (Canvas.panY c' + (y' - py (Canvas.lastPanPoint c'))
            == Canvas.panY c + (y' - y0)).
    rewrite Hl, Hy. cbn [py]. ring.
Qed.

Lemma dragging_moves (c : Canvas.State) (x0 y0 : Q) (moves : list (Q * Q)) :
  forall (s : Controls.State) (x y : Q),
    dragging c (Controls.canvas s) x0 y0 x y ->
    dragging c (Controls.canvas (dispatchAll (moveEvents moves) s))
      x0 y0 (fst (last moves (x, y))) (snd (last moves (x, y))).
Proof.
  induction moves as [|[x1 y1] moves IH]; intros s x y H.
  - exact H.
  - cbn [moveEvents map dispatchAll fold_left fst snd].
    assert (H1 : dragging c (Controls.canvas (dispatch s (EvMouseMove x1 y1)))
                   x0 y0 x1 y1).
    { cbn [dispatch]. rewrite !canvas_onCanvas.
      eapply dragging_move, dragging_move, H. }
    specialize (IH _ x1 y1 H1).
    replace (last ((x1, y1) :: moves) (x, y)) with (last moves (x1, y1)).
    + exact IH.
    + clear. destruct moves as [|m moves]; [reflexivity|].
      cbn [last]. revert m. induction moves as [|m' moves IH]; intros m; [reflexivity|].
      cbn [last] in *. apply IH.
Qed.

End Panning.

(** X2: a drag started with the middle button, or with the left button
    while Ctrl is held, moves the view with the pointer: after the button
    press at [(x0, y0)] and any pointer moves, the world point under the
    pointer is the one that was under [(x0, y0)] when the drag began
    (numbers idealised as exact rationals); the zoom, the mode, the
    boundary and the vertex buffer are untouched. *)
Theorem drag_keeps_grabbed_point
    (s : Controls.State) (button : Z) (ctrlKey : bool)
    (x0 y0 : Q) (moves : list (Q * Q)) :
  button = 1%Z \/ (button = 0%Z /\ ctrlKey = true) ->
  let c := Controls.canvas s in
  let c' :=
    Controls.canvas
      (dispatchAll (EvMouseDown button ctrlKey x0 y0 :: moveEvents moves) s) in
  let xn := fst (last moves (x0, y0)) in
  let yn := snd (last moves (x0, y0)) in
  samePoint (Canvas.getMousePosition xn yn c') (Canvas.getMousePosition x0 y0 c)
  /\ Canvas.scale c' = Canvas.scale c
  /\ Canvas.mode c' = Canvas.mode c
  /\ Canvas.boundary c' = Canvas.boundary c
  /\ Canvas.currentObstacle c' = Canvas.currentObstacle c.
Proof.
  intros Hb c c' xn yn.
  assert (Hb' : (button =? 1)%Z || ((button =? 0)%Z && ctrlKey) = true)
    by (destruct Hb as [->|[-> ->]]; reflexivity).
  assert (H0 : dragging c
                 (Controls.canvas
                    (dispatch s (EvMouseDown button ctrlKey x0 y0)))
                 x0 y0 x0 y0).
  { cbn [dispatch]. rewrite canvas_onCanvas. unfold Canvas.handleMouseDown.
    rewrite Hb'. unfold dragging. cbn.
    repeat split; try reflexivity; unfold c; ring. }
  pose proof (dragging_moves c x0 y0 moves _ x0 y0 H0)
    as (Hp & Hl & Hs & Hx & Hy & Hm & Hbd & Ho).
  fold xn yn in Hx, Hy.
  change (dispatchAll (moveEvents moves)
            (dispatch s (EvMouseDown button ctrlKey x0 y0)))
    with (dispatchAll (EvMouseDown button ctrlKey x0 y0 :: moveEvents moves) s)
    in *.
  fold c' in Hs, Hx, Hy, Hm, Hbd, Ho.
  repeat split; try assumption.
  - unfold Canvas.getMousePosition. cbn [px]. rewrite Hs, Hx.
    unfold Qdiv. ring.
  - unfold Canvas.getMousePosition. cbn [py]. rewrite Hs, Hy.
    unfold Qdiv. ring.
Qed.

Lemma drag_keeps_grabbed_point_witness :
  let s := Controls.init (Canvas.init 800 600) in
  let c := Controls.canvas s in
  let c' :=
    Controls.canvas
      (dispatchAll (EvMouseDown 0 true 100 100
                    :: moveEvents [(130, 90); (180, 60)]) s) in
  samePoint (Canvas.getMousePosition 180 60 c')
    (Canvas.getMousePosition 100 100 c)
  /\ Canvas.scale c' = Canvas.scale c
  /\ Canvas.mode c' = Canvas.mode c
  /\ Canvas.boundary c' = Canvas.boundary c
  /\ Canvas.currentObstacle c' = Canvas.currentObstacle c.
Proof.
  apply (drag_keeps_grabbed_point (Controls.init (Canvas.init 800 600))
           0 true 100 100 [(130, 90); (180, 60)]).
  right. split; reflexivity.
Defined.

(** X3: once the button is released, or the pointer has left the canvas,
    pointer moves no longer pan: the view, the mode, the boundary and the
    vertex buffer stay as they were. *)
Theorem release_ends_drag
    (s : Controls.State) (leave : bool) (moves : list (Q * Q)) :
  let c := Controls.canvas s in
  let c' :=
    Controls.canvas
      (dispatchAll ((if leave then EvMouseLeave else EvMouseUp)
                    :: moveEvents moves) s) in
  Canvas.isPanning c' = false
  /\ Canvas.panX c' = Canvas.panX c
  /\ Canvas.panY c' = Canvas.panY c
  /\ Canvas.scale c' = Canvas.scale c
  /\ Canvas.mode c' = Canvas.mode c
  /\ Canvas.boundary c' = Canvas.boundary c
  /\ Canvas.currentObstacle c' = Canvas.currentObstacle c.
Proof.
  intros c c'.
  assert (G : forall moves s1,
             Canvas.isPanning (Controls.canvas s1) = false ->
             let c1 := Controls.canvas s1 in
             let c2 := Controls.canvas (dispatchAll (moveEvents moves) s1) in
             Canvas.isPanning c2 = false
             /\ Canvas.panX c2 = Canvas.panX c1
             /\ Canvas.panY c2 = Canvas.panY c1
             /\ Canvas.scale c2 = Canvas.scale c1
             /\ Canvas.mode c2 = Canvas.mode c1
             /\ Canvas.boundary c2 = Canvas.boundary c1
             /\ Canvas.currentObstacle c2 = Canvas.currentObstacle c1).
  { clear. induction moves as [|[x y] moves IH]; intros s1 P c1 c2.
    - repeat split. exact P.
    - assert (S1 : forall c0, Canvas.isPanning c0 = false ->
                     let c3 := Canvas.handleMouseMove x y c0 in
                     Canvas.isPanning c3 = false
                     /\ Canvas.panX c3 = Canvas.panX c0
                     /\ Canvas.panY c3 = Canvas.panY c0
                     /\ Canvas.scale c3 = Canvas.scale c0
                     /\ Canvas.mode c3 = Canvas.mode c0
                     /\ Canvas.boundary c3 = Canvas.boundary c0
                     /\ Canvas.currentObstacle c3 = Canvas.currentObstacle c0).
      { intros c0 P0 c3. unfold c3, Canvas.handleMouseMove. rewrite P0.
        destruct (_ || _); repeat split; exact P0. }
      pose (s2 := dispatch s1 (EvMouseMove x y)).
      assert (E2 : Controls.canvas s2
                   = Canvas.handleMouseMove x y
                       (Canvas.handleMouseMove x y c1))
        by (unfold s2; cbn [dispatch]; rewrite !canvas_onCanvas; reflexivity).
      destruct (S1 c1 P) as (A0 & A1 & A2 & A3 & A4 & A5 & A6).
      destruct (S1 _ A0) as (B0 & B1 & B2 & B3 & B4 & B5 & B6).
      rewrite <- E2 in B0, B1, B2, B3, B4, B5, B6.
      destruct (IH s2 B0) as (C0 & C1 & C2 & C3 & C4 & C5 & C6).
      change (dispatchAll (moveEvents ((x, y) :: moves)) s1)
        with (dispatchAll (moveEvents moves) s2) in c2.
      unfold c2. repeat split; congruence. }
  pose (s1 := dispatch s (if leave then EvMouseLeave else EvMouseUp)).
  assert (E1 : Controls.canvas s1
               = if Canvas.isPanning c then Canvas.set_isPanning false c
                 else c).
  { unfold s1. destruct leave; cbn [dispatch]; rewrite canvas_onCanvas;
      reflexivity. }
  assert (P1 : Canvas.isPanning (Controls.canvas s1) = false).
  { rewrite E1. destruct (Canvas.isPanning c) eqn:P; [reflexivity|exact P]. }
  destruct (G moves s1 P1) as (C0 & C1 & C2 & C3 & C4 & C5 & C6).
  change (dispatchAll ((if leave then EvMouseLeave else EvMouseUp)
                       :: moveEvents moves) s)
    with (dispatchAll (moveEvents moves) s1) in c'.
  unfold c'. rewrite C0, C1, C2, C3, C4, C5, C6, E1.
  destruct (Canvas.isPanning c); repeat split.
Qed.

(** ** Point in polygon *)

Section PointInPolygon.

Lemma Qltb_spec (a b : Q) : Controls.Qltb a b = true <-> a < b.
Proof.
  unfold Controls.Qltb. rewrite negb_true_iff.
  split.
  - intros H. apply Qnot_le_lt. intros L. apply Qle_bool_iff in L. congruence.
  - intros H. destruct (Qle_bool b a) eqn:E; [|reflexivity].
    apply Qle_bool_iff in E. lra.
Qed.

Lemma Qgtb_spec (a b : Q) : Controls.Qgtb a b = true <-> b < a.
Proof. apply Qltb_spec. Qed.

Lemma Qltb_comp (a b b' : Q) : b == b' -> Controls.Qltb a b = Controls.Qltb a b'.
Proof. intros E. unfold Controls.Qltb. rewrite E. reflexivity. Qed.

(** The ray-casting test on a rectangle is a half-open box test. *)
Lemma pip_rectangle (x0 y0 x1 y1 : Q) (p : Point) :
  x0 <= x1 -> y0 <= y1 ->
  Controls.isPointInPolygon p (rectangle x0 y0 x1 y1)
  = Qle_bool x0 (px p) && Controls.Qltb (px p) x1
    && (Qle_bool y0 (py p) && Controls.Qltb (py p) y1).
Proof.
  intros Hx Hy.
  unfold Controls.isPointInPolygon, rectangle. cbn [length Nat.ltb Nat.leb seq fold_left Nat.sub].
  unfold Controls.pipStep, at_. cbn [nth px py fst].
  rewrite !eqb_reflx. cbn [negb andb].
  rewrite (Qltb_comp (px p) ((x0 - x0) * (py p - y0) / (y1 - y0) + x0) x0)
    by (unfold Qdiv; ring).
  rewrite (Qltb_comp (px p) ((x1 - x1) * (py p - y1) / (y0 - y1) + x1) x1)
    by (unfold Qdiv; ring).
  destruct (Controls.Qgtb y0 (py p)) eqn:A; destruct (Controls.Qgtb y1 (py p)) eqn:B;
  destruct (Controls.Qltb (px p) x0) eqn:C; destruct (Controls.Qltb (px p) x1) eqn:D;
  destruct (Qle_bool x0 (px p)) eqn:E; destruct (Qle_bool y0 (py p)) eqn:F;
  destruct (Controls.Qltb (py p) y1) eqn:G; cbn; try reflexivity; exfalso;
  repeat match goal with
  | H : Controls.Qgtb _ _ = true |- _ => apply Qgtb_spec in H
  | H : Controls.Qltb _ _ = true |- _ => apply Qltb_spec in H
  | H : Qle_bool _ _ = true |- _ => apply Qle_bool_iff in H
  | H : Controls.Qgtb ?a ?b = false |- _ =>
      assert (~ b < a) by (rewrite <- Qgtb_spec; congruence); clear H
  | H : Controls.Qltb ?a ?b = false |- _ =>
      assert (~ a < b) by (rewrite <- Qltb_spec; congruence); clear H
  | H : Qle_bool ?a ?b = false |- _ =>
      assert (~ a <= b) by (rewrite <- Qle_bool_iff; congruence); clear H
  end; lra.
Qed.

End PointInPolygon.

(** X4: for an axis-parallel rectangle given by its four corners in
    drawing order, [isPointInPolygon] is the half-open box test: a point is
    inside when [x0 <= x < x1] and [y0 <= y < y1], so the left and top
    edges count as inside and the right and bottom edges do not. *)
Theorem isPointInPolygon_rectangle (x0 y0 x1 y1 : Q) (p : Point) :
  x0 <= x1 -> y0 <= y1 ->
  Controls.isPointInPolygon p (rectangle x0 y0 x1 y1)
  = Qle_bool x0 (px p) && Controls.Qltb (px p) x1
    && (Qle_bool y0 (py p) && Controls.Qltb (py p) y1).
Proof. apply pip_rectangle. Qed.

Lemma isPointInPolygon_rectangle_witness :
  Controls.isPointInPolygon (mkPoint 10 40) (rectangle 10 20 30 40)
  = Qle_bool 10 10 && Controls.Qltb 10 30
    && (Qle_bool 20 40 && Controls.Qltb 40 40).
Proof.
  apply (isPointInPolygon_rectangle 10 20 30 40 (mkPoint 10 40));
    discriminate.
Defined.

(** ** Polygon area under a shift *)

Section Translation.

Lemma cross_translate (t p q : Point) :
  cross (translate t p) (translate t q) == cross p q + cross p t - cross q t.
Proof. unfold cross, translate. cbn. ring. Qed.

Lemma edgeSumFrom_translate (t : Point) (l : list Point) :
  forall p,
    Shoelace.edgeSumFrom (translate t p) (map (translate t) l)
    == Shoelace.edgeSumFrom p l + cross p t - cross (last l p) t.
Proof.
  induction l as [|q l IH]; intros p.
  - cbn [map Shoelace.edgeSumFrom last]. ring.
  - cbn [map Shoelace.edgeSumFrom]. rewrite IH, cross_translate, last_cons. ring.
Qed.

Lemma shoelace_translate (t : Point) (l : list Point) :
  Shoelace.shoelace (map (translate t) l) == Shoelace.shoelace l.
Proof.
  destruct l as [|p r]; [reflexivity|].
  cbn [map Shoelace.shoelace].
  replace (map (translate t) r ++ [translate t p])
    with (map (translate t) (r ++ [p])) by (rewrite map_app; reflexivity).
  rewrite edgeSumFrom_translate, last_last. ring.
Qed.

End Translation.

(** X5: with numbers idealised as exact rationals, the area text does not
    depend on where the polygon lies: moving every vertex by the same
    offset leaves the result of [calculatePolygonArea] unchanged. *)
Theorem calculatePolygonArea_translate (t : Point) (points : list Point) :
  Canvas.calculatePolygonArea (map (translate t) points)
  = Canvas.calculatePolygonArea points.
Proof.
  rewrite !calculatePolygonArea_value, length_map.
  destruct (length points <? 3)%nat; [reflexivity|].
  f_equal. apply toFixed1_comp. rewrite shoelace_translate. reflexivity.
Qed.

(** ** Zooming in and out again *)

(** X6: away from the zoom limits, the zoom buttons undo each other: when
    the scale can be multiplied and divided by 1.2 without leaving
    [minScale, maxScale], zooming in and then out, or out and then in,
    restores the scale and both pan offsets. *)
Theorem zoomIn_zoomOut_inverse (c : Canvas.State) :
  Canvas.minScale * (12 # 10) <= Canvas.scale c ->
  Canvas.scale c * (12 # 10) <= Canvas.maxScale ->
  let back := Canvas.zoomOut (Canvas.zoomIn c) in
  let forth := Canvas.zoomIn (Canvas.zoomOut c) in
  (Canvas.scale back == Canvas.scale c
   /\ Canvas.panX back == Canvas.panX c
   /\ Canvas.panY back == Canvas.panY c)
  /\ (Canvas.scale forth == Canvas.scale c
      /\ Canvas.panX forth == Canvas.panX c
      /\ Canvas.panY forth == Canvas.panY c).
Proof.
  intros Hlo Hhi back forth.
  assert (Hmin : Canvas.minScale <= Canvas.scale c).
  { eapply Qle_trans; [|exact Hlo].
    rewrite <- (Qmult_1_r Canvas.minScale) at 1.
    apply Qmult_le_l; [reflexivity|discriminate]. }
  assert (Hpos : 0 < Canvas.scale c)
    by (eapply Qlt_le_trans; [apply minScale_pos|exact Hmin]).
  assert (Hs : ~ Canvas.scale c == 0)
    by (intros E; rewrite E in Hpos; discriminate).
  split.
  - unfold back, Canvas.zoomOut, Canvas.zoomIn. cbn.
    set (s := Canvas.scale c) in *.
    set (s1 := Qmin Canvas.maxScale (s * (12 # 10))).
    set (s2 := Qmax Canvas.minScale (s1 / (12 # 10))).
    assert (H1 : s1 == s * (12 # 10)) by (apply Q.min_r; exact Hhi).
    assert (H2 : s2 == s).
    { unfold s2. rewrite Q.max_r.
      - rewrite H1. field.
      - rewrite H1. setoid_replace (s * (12 # 10) / (12 # 10)) with s by field.
        exact Hmin. }
    split; [exact H2|].
    split; rewrite H2, H1; field; exact Hs.
  - unfold forth, Canvas.zoomOut, Canvas.zoomIn. cbn.
    set (s := Canvas.scale c) in *.
    set (s1 := Qmax Canvas.minScale (s / (12 # 10))).
    set (s2 := Qmin Canvas.maxScale (s1 * (12 # 10))).
    assert (H1 : s1 == s / (12 # 10)).
    { apply Q.max_r. apply Qle_shift_div_l; [reflexivity|exact Hlo]. }
    assert (H2 : s2 == s).
    { unfold s2. rewrite Q.min_r.
      - rewrite H1. field.
      - rewrite H1. setoid_replace (s / (12 # 10) * (12 # 10)) with s by field.
        eapply Qle_trans; [|exact Hhi].
        rewrite <- (Qmult_1_r s) at 1.
        apply Qmult_le_l; [exact Hpos|discriminate]. }
    split; [exact H2|].
    split; rewrite H2, H1; field; exact Hs.
Qed.

Lemma zoomIn_zoomOut_inverse_witness :
  let c := Canvas.init 800 600 in
  let back := Canvas.zoomOut (Canvas.zoomIn c) in
  let forth := Canvas.zoomIn (Canvas.zoomOut c) in
  (Canvas.scale back == Canvas.scale c
   /\ Canvas.panX back == Canvas.panX c
   /\ Canvas.panY back == Canvas.panY c)
  /\ (Canvas.scale forth == Canvas.scale c
      /\ Canvas.panX forth == Canvas.panX c
      /\ Canvas.panY forth == Canvas.panY c).
Proof.
  apply (zoomIn_zoomOut_inverse (Canvas.init 800 600)); discriminate.
Defined.

(** ** The obstacle registries *)

Section Registry.


















End Registry.



(** ** Removing an obstacle *)

Section Removal.

Lemma filter_all (A : Type) (f : A -> bool) (l : list A) :
  (forall a, In a l -> f a = true) -> filter f l = l.
Proof.
  induction l as [|a l IH]; intros H; cbn; [reflexivity|].
  rewrite (H a) by (left; reflexivity).
  rewrite IH; [reflexivity|]. intros b Hb. apply H. right. exact Hb.
Qed.

Lemma keep_spec (obstacleId : string) (o : Obstacle) :
  negb (String.eqb (obs_id o) obstacleId) = true <-> obs_id o <> obstacleId.
Proof.
  rewrite negb_true_iff. split.
  - intros E H. apply String.eqb_eq in H. congruence.
  - intros H. destruct (String.eqb_spec (obs_id o) obstacleId); congruence.
Qed.

End Removal.

(** X8: [removeObstacle] deletes by id, in both registries at once: an
    obstacle is kept exactly when it was there and carries another id; the
    id is then in use nowhere, and removing it a second time changes
    nothing. *)
Theorem removeObstacle_by_id (obstacleId : string) (c : Canvas.State) :
  let c' := Canvas.removeObstacle obstacleId c in
  (forall o, In o (Canvas.obstacles c')
             <-> In o (Canvas.obstacles c) /\ obs_id o <> obstacleId)
  /\ (forall o, In o (Canvas.dynamicObstacles c')
                <-> In o (Canvas.dynamicObstacles c) /\ obs_id o <> obstacleId)
  /\ ~ In obstacleId (allIds c')
  /\ Canvas.removeObstacle obstacleId c' = c'.
Proof.
  intros c'.
  assert (A : forall o, In o (Canvas.obstacles c')
             <-> In o (Canvas.obstacles c) /\ obs_id o <> obstacleId).
  { intros o. unfold c'. cbn. rewrite filter_In, keep_spec. reflexivity. }
  assert (B : forall o, In o (Canvas.dynamicObstacles c')
             <-> In o (Canvas.dynamicObstacles c) /\ obs_id o <> obstacleId).
  { intros o. unfold c'. cbn. rewrite filter_In, keep_spec. reflexivity. }
  split; [exact A|]. split; [exact B|]. split.
  - unfold allIds. rewrite in_map_iff. intros [o [E Ho]].
    apply in_app_or in Ho. destruct Ho as [Ho|Ho];
      [apply A in Ho|apply B in Ho]; destruct Ho as [_ N]; congruence.
  - unfold c'. unfold Canvas.removeObstacle. cbn.
    rewrite !(filter_all _ _ (filter _ _)); [reflexivity| |];
      intros o Ho; apply filter_In in Ho; apply Ho.
Qed.

(** X9: removing an id that no obstacle carries leaves the canvas state as
    it is. *)
Theorem removeObstacle_unknown_id (obstacleId : string) (c : Canvas.State) :
  ~ In obstacleId (allIds c) ->
  Canvas.removeObstacle obstacleId c = c.
Proof.
  intros N. unfold allIds in N. unfold Canvas.removeObstacle. cbn.
  rewrite !filter_all; [reflexivity| |];
    intros o Ho; apply keep_spec; intros E; apply N; apply in_map_iff;
    exists o; (split; [exact E|]); apply in_or_app; [left|right]; exact Ho.
Qed.

Lemma removeObstacle_unknown_id_witness :
  Canvas.removeObstacle "obstacle_9"
    (Controls.canvas
       (App.generateTestData (Controls.init (Canvas.init 800 600))))
  = Controls.canvas
      (App.generateTestData (Controls.init (Canvas.init 800 600))).
Proof.
  apply (removeObstacle_unknown_id "obstacle_9"
           (Controls.canvas
              (App.generateTestData (Controls.init (Canvas.init 800 600))))).
  cbn. intros [H|[H|[]]]; discriminate H.
Defined.

(** ** Drawing an obstacle from start to finish *)

Section ObstacleDrawing.


(** Setting a mode touches neither the registries nor the path, the
    robot and the view. *)
Lemma setMode_sameSurroundings (m : Mode) (c : Canvas.State) :
  sameSurroundings c (Canvas.setMode m c).
Proof.
  unfold Canvas.setMode, sameSurroundings.
  destruct m; [|repeat split..].
  destruct ((0 <? length (Canvas.boundary c))
            && (length (Canvas.boundary c) <? 3))%nat; repeat split.
Qed.



End ObstacleDrawing.




(** ** Leaving a drawing *)

(** X11: the Escape key always ends a drawing: whatever the mode and the
    number of points placed, the editor is afterwards in ready mode with an
    empty vertex buffer and a boundary that is empty or has at least 3
    points. *)
Theorem escape_always_leaves_drawing (s : Controls.State) (now : Z) :
  let c' := Controls.canvas (Controls.handleKeyboard KeyEscape false now s) in
  Canvas.mode c' = ModeReady
  /\ Canvas.currentObstacle c' = []
  /\ completeBoundary (Canvas.boundary c').
Proof.
  intros c'.
  assert (R : forall c, Canvas.mode (Canvas.setMode ModeReady c) = ModeReady
                        /\ Canvas.currentObstacle (Canvas.setMode ModeReady c) = []
                        /\ completeBoundary (Canvas.boundary (Canvas.setMode ModeReady c))).
  { intros c. split; [reflexivity|]. apply (setMode_ready c). reflexivity. }
  unfold c'. cbn [Controls.handleKeyboard].
  destruct (Canvas.mode (Controls.canvas s)) eqn:M; rewrite ?canvas_onCanvas.
  - apply R.
  - destruct (Nat.leb_spec 3 (length (Canvas.boundary (Controls.canvas s)))) as [L|L];
      rewrite canvas_onCanvas; [|apply R].
    unfold Canvas.finishBoundary.
    destruct (Nat.leb_spec 3 (length (Canvas.boundary (Controls.canvas s)))); [|lia].
    apply R.
  - destruct (Nat.leb_spec 3 (length (Canvas.currentObstacle (Controls.canvas s)))) as [L|L];
      rewrite canvas_onCanvas; [|apply R].
    unfold Canvas.finishObstacle.
    destruct (Nat.leb_spec 3 (length (Canvas.currentObstacle (Controls.canvas s)))); [|lia].
    apply R.
  - destruct (Nat.leb_spec 3 (length (Canvas.currentObstacle (Controls.canvas s)))) as [L|L];
      rewrite canvas_onCanvas; [|apply R].
    unfold Canvas.finishDynamicObstacle.
    destruct (Nat.leb_spec 3 (length (Canvas.currentObstacle (Controls.canvas s)))); [|lia].
    apply R.
Qed.

(** X12: a right click finishes nothing that has fewer than 3 points: with
    fewer than 3 boundary points and fewer than 3 buffered points it leaves
    the canvas state exactly as it is, in every mode. *)
Theorem right_click_needs_three_points (c : Canvas.State) (now : Z) :
  (length (Canvas.boundary c) < 3)%nat ->
  (length (Canvas.currentObstacle c) < 3)%nat ->
  Canvas.handleRightClick now c = c.
Proof.
  intros Lb Lo. unfold Canvas.handleRightClick.
  destruct (Nat.leb_spec 3 (length (Canvas.boundary c))); [lia|].
  destruct (Nat.leb_spec 3 (length (Canvas.currentObstacle c))); [lia|].
  destruct (Canvas.mode c); reflexivity.
Qed.

Lemma right_click_needs_three_points_witness :
  Canvas.handleRightClick 7 twoBuffered = twoBuffered.
Proof.
  apply (right_click_needs_three_points twoBuffered 7); cbn; lia.
Defined.

(** X13: pressing a drawing button twice without placing a point: on an
    idle editor in ready mode with an empty boundary, the second press of
    BOUNDARY or of ADD OBSTACLE finishes nothing and leaves the editor in
    the drawing mode, while the second press of ADD DYNAMIC returns it to
    ready mode; no obstacle is stored in either case. *)
Theorem finish_on_empty_drawing (s : Controls.State) (now0 now : Z) :
  Canvas.mode (Controls.canvas s) = ModeReady ->
  Controls.isRunning s = false ->
  Canvas.boundary (Controls.canvas s) = [] ->
  let after evs := Controls.canvas (dispatchAll evs s) in
  Canvas.mode (after [EvBoundaryBtn; EvBoundaryBtn]) = ModeBoundary
  /\ Canvas.mode (after [EvAddObstacleBtn now0; EvAddObstacleBtn now])
     = ModeObstacle
  /\ Canvas.mode
       (after [EvAddDynamicObstacleBtn now0; EvAddDynamicObstacleBtn now])
     = ModeReady
  /\ sameObstacles (Controls.canvas s)
       (after [EvAddObstacleBtn now0; EvAddObstacleBtn now])
  /\ sameObstacles (Controls.canvas s)
       (after [EvAddDynamicObstacleBtn now0; EvAddDynamicObstacleBtn now]).
Proof.
  destruct s as [cv r p sp oc ix pr ts].
  destruct cv as [b o d pp cp rp m co hl sc x y ip lp mp w h].
  cbn. intros -> -> ->. cbn. repeat split.
Qed.

Lemma finish_on_empty_drawing_witness :
  let s := Controls.init (Canvas.init 800 600) in
  let after evs := Controls.canvas (dispatchAll evs s) in
  Canvas.mode (after [EvBoundaryBtn; EvBoundaryBtn]) = ModeBoundary
  /\ Canvas.mode (after [EvAddObstacleBtn 5; EvAddObstacleBtn 9])
     = ModeObstacle
  /\ Canvas.mode
       (after [EvAddDynamicObstacleBtn 5; EvAddDynamicObstacleBtn 9])
     = ModeReady
  /\ sameObstacles (Controls.canvas s)
       (after [EvAddObstacleBtn 5; EvAddObstacleBtn 9])
  /\ sameObstacles (Controls.canvas s)
       (after [EvAddDynamicObstacleBtn 5; EvAddDynamicObstacleBtn 9]).
Proof.
  apply (finish_on_empty_drawing (Controls.init (Canvas.init 800 600)) 5 9);
    reflexivity.
Defined.

(** ** The playback state between and during runs *)

Section Idle.

Lemma idleInv_canvas (f : Canvas.State -> Canvas.State) (s : Controls.State) :
  (Canvas.robotPosition (Controls.canvas s) = None ->
   Canvas.robotPosition (f (Controls.canvas s)) = None) ->
  idleInv s -> idleInv (Controls.onCanvas f s).
Proof.
  unfold idleInv. intros Hf.
  change (Controls.isRunning (Controls.onCanvas f s)) with (Controls.isRunning s).
  destruct (Controls.isRunning s); [auto|].
  intros (A & B & C & D). repeat split; try assumption.
  rewrite canvas_onCanvas. auto.
Qed.

Lemma stop_idle (s : Controls.State) : idleInv (Controls.stop s).
Proof. unfold idleInv. cbn. repeat split. Qed.

Lemma animate_idle (path : list Point) (s : Controls.State) :
  idleInv s -> idleInv (Controls.animate path s).
Proof.
  destruct s as [cv r p sp oc ix pr ts].
  unfold idleInv, Controls.animate. cbn.
  destruct r; cbn; [|auto].
  destruct p; cbn; [auto|].
  intros H.
  destruct (_ <=? _)%Z; cbn; [repeat split|].
  destruct (nth_error path (ix + 1)); [destruct (nth_error path ix)|];
    cbn; lia.
Qed.

Lemma startSimulation_idle (s : Controls.State) :
  idleInv s -> idleInv (Controls.startSimulation s).
Proof.
  intros H. unfold Controls.startSimulation.
  destruct (negb (Controls.isRunning s)); [exact H|].
  destruct (_ =? _)%nat; [exact H|].
  apply animate_idle.
  destruct (negb (Controls.isPaused s) && (Controls.currentIndex s =? 0)%nat)
    eqn:G; [|exact H].
  apply andb_true_iff in G as [_ G]. apply Nat.eqb_eq in G.
  destruct s as [cv r p sp oc ix pr ts]. unfold idleInv in *. cbn in *.
  subst ix. destruct r; [lia|]. tauto.
Qed.

Lemma animate_unpaused_idle (path : list Point) (s : Controls.State) :
  Controls.isRunning s = true -> Controls.isPaused s = false ->
  idleInv (Controls.animate path s).
Proof.
  destruct s as [cv r p sp oc ix pr ts].
  unfold idleInv, Controls.animate. cbn. intros -> ->. cbn.
  destruct (_ <=? _)%Z; cbn; [repeat split|].
  destruct (nth_error path (ix + 1)); [destruct (nth_error path ix)|];
    cbn; lia.
Qed.

Lemma run_idle (s : Controls.State) : idleInv s -> idleInv (Controls.run s).
Proof.
  intros H.
  destruct (Canvas.plannedPath (Controls.canvas s)) as [|a path] eqn:E.
  - unfold Controls.run. rewrite E. exact H.
  - rewrite run_from_zero by (rewrite E; discriminate).
    apply animate_unpaused_idle; reflexivity.
Qed.

Lemma resume_idle (s : Controls.State) :
  idleInv s -> idleInv (Controls.resume s).
Proof.
  intros H. unfold Controls.resume.
  destruct (Controls.isRunning s && Controls.isPaused s) eqn:G; [|exact H].
  apply andb_true_iff in G as [R P].
  apply startSimulation_idle.
  destruct s as [cv r p sp oc ix pr ts]. unfold idleInv in *. cbn in *.
  subst r. exact H.
Qed.

Lemma pause_idle (s : Controls.State) :
  Controls.isRunning s = true -> idleInv s -> idleInv (Controls.pause s).
Proof.
  destruct s as [cv r p sp oc ix pr ts]. unfold idleInv. cbn.
  intros ->. auto.
Qed.

Lemma fireTimer_idle (n : nat) (s : Controls.State) :
  idleInv s -> idleInv (Controls.fireTimer n s).
Proof.
  intros H. unfold Controls.fireTimer.
  destruct (nth_error (Controls.timers s) n); [|exact H].
  apply animate_idle.
  destruct s as [cv r p sp oc ix pr ts]. exact H.
Qed.

Lemma reset_idle (s : Controls.State) : idleInv (Controls.reset s).
Proof.
  unfold Controls.reset, idleInv. cbn. repeat split.
Qed.

Ltac keeps_robot :=
  intros;
  repeat match goal with
         | |- context [if ?b then _ else _] => destruct b
         | |- context [match ?m with _ => _ end] => destruct m
         end;
  assumption.

Lemma setMode_robot (m : Mode) (c : Canvas.State) :
  Canvas.robotPosition (Canvas.setMode m c) = Canvas.robotPosition c.
Proof. apply (setMode_sameSurroundings m c). Qed.

Lemma finish_robot (now : Z) (c : Canvas.State) :
  Canvas.robotPosition (Canvas.finishBoundary c) = Canvas.robotPosition c
  /\ Canvas.robotPosition (Canvas.finishObstacle now c)
     = Canvas.robotPosition c
  /\ Canvas.robotPosition (Canvas.finishDynamicObstacle now c)
     = Canvas.robotPosition c.
Proof.
  unfold Canvas.finishBoundary, Canvas.finishObstacle,
    Canvas.finishDynamicObstacle.
  repeat split;
    repeat match goal with
           | |- context [if ?b then _ else _] => destruct b
           end; rewrite ?setMode_robot; reflexivity.
Qed.

Lemma handleKeyboard_idle (key : Key) (ctrl : bool) (now : Z)
    (s : Controls.State) :
  idleInv s -> idleInv (Controls.handleKeyboard key ctrl now s).
Proof.
  intros H.
  pose proof (finish_robot now (Controls.canvas s)) as (Fb & Fo & Fd).
  assert (M : forall m, idleInv (Controls.onCanvas (Canvas.setMode m) s))
    by (intros m; apply idleInv_canvas; [rewrite setMode_robot; auto|exact H]).
  destruct key; cbn [Controls.handleKeyboard]; try exact H.
  - destruct ctrl; [apply reset_idle|exact H].
  - unfold Controls.startBoundary.
    destruct (Canvas.mode (Controls.canvas s)); try apply M.
    apply idleInv_canvas; [rewrite Fb; auto|exact H].
  - unfold Controls.addObstacle.
    destruct (Canvas.mode (Controls.canvas s)); try apply M.
    apply idleInv_canvas; [rewrite Fo; auto|exact H].
  - unfold Controls.addDynamicObstacle.
    destruct (Canvas.mode (Controls.canvas s)); try apply M.
    apply idleInv_canvas; [rewrite Fd; auto|exact H].
  - destruct (Controls.isRunning s && negb (Controls.isPaused s)) eqn:G.
    + apply andb_true_iff in G as [R _]. apply pause_idle; assumption.
    + destruct (Controls.isPaused s); [apply run_idle|]; exact H.
  - destruct (Canvas.mode (Controls.canvas s));
      try destruct (3 <=? _)%nat; try apply M;
      (apply idleInv_canvas; [rewrite ?Fb, ?Fo, ?Fd; auto|exact H]).
  - destruct ctrl; exact H.
Qed.

Lemma dispatch_idle (ev : Event) (s : Controls.State) :
  idleInv s -> idleInv (dispatch s ev).
Proof.
  intros H.
  pose proof (finish_robot 0 (Controls.canvas s)) as (Fb & Fo & Fd).
  destruct ev; cbn [dispatch unlessDisabled]; try exact H.
  - apply idleInv_canvas; [|exact H].
    unfold Canvas.handleClick. keeps_robot.
  - apply idleInv_canvas; [|exact H].
    pose proof (finish_robot now (Controls.canvas s)) as (Gb & Go & Gd).
    unfold Canvas.handleRightClick. intros R.
    repeat match goal with
           | |- context [if ?b then _ else _] => destruct b
           | |- context [match Canvas.mode ?c with _ => _ end] =>
               destruct (Canvas.mode c)
           end; rewrite ?Gb, ?Go, ?Gd; exact R.
  - apply idleInv_canvas; [unfold Canvas.handleMouseMove; keeps_robot|].
    apply idleInv_canvas; [unfold Canvas.handleMouseMove; keeps_robot|exact H].
  - apply idleInv_canvas; [unfold Canvas.handleMouseDown; keeps_robot|exact H].
  - apply idleInv_canvas; [unfold Canvas.handleMouseUp; keeps_robot|exact H].
  - apply idleInv_canvas; [unfold Canvas.handleMouseLeave; keeps_robot|exact H].
  - apply idleInv_canvas; [unfold Canvas.handleWheel; keeps_robot|exact H].
  - apply handleKeyboard_idle, H.
  - apply reset_idle.
  - destruct (Controls.boundaryBtn_disabled s); [exact H|].
    apply (handleKeyboard_idle KeyB false 0), H.
  - destruct (Controls.addObstacleBtn_disabled s); [exact H|].
    apply (handleKeyboard_idle KeyO false now), H.
  - destruct (Controls.addDynamicObstacleBtn_disabled s); [exact H|].
    apply (handleKeyboard_idle KeyD false now), H.
  - destruct (Controls.runBtn_disabled s); [exact H|apply run_idle, H].
  - unfold Controls.pauseBtn_disabled.
    destruct (Controls.isRunning s) eqn:R; cbn [negb orb]; [|exact H].
    destruct (Controls.isPaused s || Controls.isDrawing s); [exact H|].
    apply pause_idle; assumption.
  - destruct (Controls.resumeBtn_disabled s); [exact H|apply resume_idle, H].
  - destruct (Controls.stopBtn_disabled s); [exact H|apply stop_idle].
  - apply fireTimer_idle, H.
Qed.

End Idle.

(** X14: the playback state is consistent in every state the page can
    reach: while no playback is active the cursor is 0, the progress is 0,
    the paused flag is off and no robot is shown; while one is active the
    cursor is at least 1. *)
Theorem idle_state_is_clean (evs : list Event) (w h : Q) :
  idleInv (dispatchAll evs (Controls.init (Canvas.init w h))).
Proof.
  unfold dispatchAll.
  assert (H0 : idleInv (Controls.init (Canvas.init w h)))
    by (unfold idleInv; cbn; repeat split).
  revert H0. generalize (Controls.init (Canvas.init w h)).
  induction evs as [|ev evs IH]; intros s H0; [exact H0|].
  cbn [fold_left]. apply IH, dispatch_idle, H0.
Qed.

(** ** A playback from start to end *)

Section Trace.

Lemma nth_error_at (path : list Point) (k : nat) :
  (k < length path)%nat -> nth_error path k = Some (at_ path k).
Proof. intros H. unfold at_. apply nth_error_nth'. exact H. Qed.

(** A step of a running playback that is not at the last waypoint. *)
Lemma animate_step (path : list Point) (s : Controls.State) :
  Controls.isRunning s = true ->
  Controls.isPaused s = false ->
  (Controls.currentIndex s + 1 < length path)%nat ->
  Controls.animate path s
  = Controls.set_timers
      (Controls.timers s
       ++ [mkTimer (Z.max 50 (500 - Controls.currentSpeed s * 45)) path])
      (Controls.set_currentIndex (Controls.currentIndex s + 1)
         (Controls.set_progress
            (inject_Z (Z.of_nat (Controls.currentIndex s + 1))
             / inject_Z (Z.of_nat (length path)) * 100)
            (Controls.onCanvas
               (Canvas.updateRobotPosition
                  (poseAt path (Controls.currentIndex s))) s))).
Proof.
  destruct s as [cv r p sp oc ix pr ts]. cbn. intros R P L. subst r p.
  unfold Controls.animate. cbn.
  destruct (Z.leb_spec (Z.of_nat (length path) - 1) (Z.of_nat ix)); [lia|].
  rewrite (nth_error_at path (ix + 1)) by lia.
  rewrite (nth_error_at path ix) by lia.
  reflexivity.
Qed.

(** A step of a running playback at the last waypoint. *)
Lemma animate_last (path : list Point) (s : Controls.State) :
  Controls.isRunning s = true ->
  Controls.isPaused s = false ->
  (length path <= Controls.currentIndex s + 1)%nat ->
  Controls.animate path s = Controls.stop s.
Proof.
  destruct s as [cv r p sp oc ix pr ts]. cbn. intros R P L. subst r p.
  unfold Controls.animate. cbn.
  destruct (Z.leb_spec (Z.of_nat (length path) - 1) (Z.of_nat ix));
    [reflexivity|lia].
Qed.

Lemma run_first (s0 : Controls.State) :
  (2 <= length (Canvas.plannedPath (Controls.canvas s0)))%nat ->
  Controls.timers s0 = [] ->
  advancedTo s0 (Controls.run s0) (Canvas.plannedPath (Controls.canvas s0)) 0.
Proof.
  intros L T.
  rewrite run_from_zero
    by (destruct (Canvas.plannedPath _); [cbn in L; lia|discriminate]).
  rewrite animate_step; [|reflexivity|reflexivity|cbn; lia].
  destruct s0 as [cv r p sp oc ix pr ts]. cbn in *. subst ts.
  unfold advancedTo. cbn. repeat split.
Qed.

Lemma tick_next (s0 s : Controls.State) (path : list Point) (k : nat) :
  (k + 2 < length path)%nat ->
  advancedTo s0 s path k ->
  advancedTo s0 (Controls.fireTimer 0 s) path (k + 1).
Proof.
  destruct s as [cv r p sp oc ix pr ts].
  intros L (R & P & I & Rp & Pr & T & Sp & Pp).
  cbn in R, P, I, Rp, Pr, T, Sp, Pp. subst r p ix ts sp.
  unfold Controls.fireTimer.
  cbn [Controls.timers nth_error firstn skipn app timer_path].
  rewrite animate_step; [|reflexivity|reflexivity|cbn; lia].
  unfold advancedTo, tickDelay. cbn. repeat split. exact Pp.
Qed.

Lemma tick_last (s0 s : Controls.State) (path : list Point) (k : nat) :
  (k + 2 = length path)%nat ->
  advancedTo s0 s path k ->
  finished (Controls.fireTimer 0 s).
Proof.
  destruct s as [cv r p sp oc ix pr ts].
  intros L (R & P & I & Rp & Pr & T & Sp & Pp).
  cbn in R, P, I, Rp, Pr, T, Sp, Pp. subst r p ix ts sp.
  unfold Controls.fireTimer.
  cbn [Controls.timers nth_error firstn skipn app timer_path].
  rewrite animate_last; [|reflexivity|reflexivity|cbn; lia].
  unfold finished. cbn. repeat split.
Qed.

Lemma ticks_succ (k : nat) (s : Controls.State) :
  ticks (S k) s = Controls.fireTimer 0 (ticks k s).
Proof. reflexivity. Qed.

Lemma ticks_advance (s0 : Controls.State) (k : nat) :
  Controls.timers s0 = [] ->
  (k + 2 <= length (Canvas.plannedPath (Controls.canvas s0)))%nat ->
  advancedTo s0 (ticks k (Controls.run s0))
    (Canvas.plannedPath (Controls.canvas s0)) k.
Proof.
  intros T. induction k as [|k IH]; intros K.
  - apply run_first; [lia|exact T].
  - rewrite ticks_succ. replace (S k) with (k + 1)%nat by lia.
    apply tick_next; [lia|apply IH; lia].
Qed.

End Trace.

(** X15: a playback shows the waypoints one per timer: after RUN on a state
    without pending timers and [k] expiries of the step timer, as long as
    waypoint [k + 1] exists, the playback is running and not paused, the
    robot stands on waypoint [k] heading for waypoint [k + 1], the cursor
    is [k + 1], the progress is [100 (k + 1) / n] for a path of [n]
    waypoints, and exactly one timer is pending, with the delay
    [max(50, 500 - 45 speed)] and the path captured at the start. *)
Theorem playback_visits_waypoints (s0 : Controls.State) (k : nat) :
  Controls.timers s0 = [] ->
  (k + 2 <= length (Canvas.plannedPath (Controls.canvas s0)))%nat ->
  advancedTo s0 (ticks k (Controls.run s0))
    (Canvas.plannedPath (Controls.canvas s0)) k.
Proof. apply ticks_advance. Qed.

Lemma playback_visits_waypoints_witness :
  advancedTo planned (ticks 3 (Controls.run planned)) path5 3.
Proof.
  apply (playback_visits_waypoints planned 3); [reflexivity|cbn; lia].
Defined.

(** X16: a playback started without pending timers ends by itself: on a
    state without pending timers and a path of [n >= 1] waypoints, RUN
    followed by [n - 1] expiries of the step timer leaves the playback
    stopped, with cursor and progress 0, no robot shown and no timer
    pending. *)
Theorem playback_ends_by_itself (s0 : Controls.State) :
  Controls.timers s0 = [] ->
  (1 <= length (Canvas.plannedPath (Controls.canvas s0)))%nat ->
  finished
    (ticks (length (Canvas.plannedPath (Controls.canvas s0)) - 1)
       (Controls.run s0)).
Proof.
  intros T L.
  destruct (Nat.eq_dec (length (Canvas.plannedPath (Controls.canvas s0))) 1)
    as [E|E].
  - rewrite E. cbn [Nat.sub ticks Nat.iter].
    rewrite run_from_zero
      by (destruct (Canvas.plannedPath _); [cbn in L; lia|discriminate]).
    rewrite animate_last; [|reflexivity|reflexivity|cbn; lia].
    destruct s0 as [cv r p sp oc ix pr ts]. cbn in T. subst ts.
    unfold finished. cbn. repeat split.
  - replace (length (Canvas.plannedPath (Controls.canvas s0)) - 1)%nat
      with (S (length (Canvas.plannedPath (Controls.canvas s0)) - 2)) by lia.
    rewrite ticks_succ.
    apply (tick_last s0 _ (Canvas.plannedPath (Controls.canvas s0))
             (length (Canvas.plannedPath (Controls.canvas s0)) - 2));
      [lia|].
    apply ticks_advance; [exact T|lia].
Qed.

Lemma playback_ends_by_itself_witness :
  finished (ticks 4 (Controls.run planned)).
Proof.
  apply (playback_ends_by_itself planned); [reflexivity|cbn; lia].
Defined.

(** X17: pausing and resuming around a pending step timer.  If the timer
    expires during the pause, resuming continues exactly as the expiry
    would have without the pause.  If RESUME comes before the timer has
    expired, it takes the next step at once and leaves two timers pending:
    the old one is not cancelled. *)
Theorem pause_resume_timers
    (s0 s : Controls.State) (path : list Point) (k : nat) :
  advancedTo s0 s path k ->
  (k + 2 < length path)%nat ->
  Controls.resume (Controls.fireTimer 0 (Controls.pause s))
  = Controls.fireTimer 0 s
  /\ Controls.currentIndex (Controls.resume (Controls.pause s)) = (k + 2)%nat
  /\ Canvas.robotPosition (Controls.canvas (Controls.resume (Controls.pause s)))
     = Some (poseAt path (k + 1))
  /\ Controls.timers (Controls.resume (Controls.pause s))
     = [mkTimer (tickDelay s0) path; mkTimer (tickDelay s0) path].
Proof.
  destruct s as [cv r p sp oc ix pr ts].
  destruct cv as [b o d pp cp rp m co hl sc x y ip lp mp w h].
  intros (R & P & I & Rp & Pr & T & Sp & Pp) L.
  cbn in R, P, I, Rp, Pr, T, Sp, Pp. subst r p ix ts sp pp.
  destruct path as [|a path']; [cbn in L; lia|].
  set (path := a :: path') in *.
  replace (k + 2)%nat with (S k + 1)%nat by lia.
  replace (k + 1)%nat with (S k) by lia.
  assert (E : Controls.resume
                (Controls.pause
                   (Controls.mkState
                      (Canvas.mkState b o d path cp rp m co hl sc x y ip lp
                         mp w h)
                      true false (Controls.currentSpeed s0) oc (S k) pr
                      [mkTimer (tickDelay s0) path]))
              = Controls.animate path
                  (Controls.mkState
                     (Canvas.mkState b o d path cp rp m co hl sc x y ip lp
                        mp w h)
                     true false (Controls.currentSpeed s0) oc (S k) pr
                     [mkTimer (tickDelay s0) path])).
  { reflexivity. }
  split; [reflexivity|].
  rewrite E, animate_step; [|reflexivity|reflexivity|cbn in L |- *; lia].
  repeat split.
Qed.

Lemma pause_resume_timers_witness :
  let s := ticks 1 (Controls.run planned) in
  Controls.resume (Controls.fireTimer 0 (Controls.pause s))
  = Controls.fireTimer 0 s
  /\ Controls.currentIndex (Controls.resume (Controls.pause s)) = 3%nat
  /\ Canvas.robotPosition (Controls.canvas (Controls.resume (Controls.pause s)))
     = Some (poseAt path5 2)
  /\ Controls.timers (Controls.resume (Controls.pause s))
     = [mkTimer (tickDelay planned) path5; mkTimer (tickDelay planned) path5].
Proof.
  apply (pause_resume_timers planned (ticks 1 (Controls.run planned)) path5 1);
    [repeat split|cbn; lia].
Defined.

(** ** Extreme coordinates *)

Section Extremes.

Lemma lowest_snoc (f : Point -> Q) (seen : list Point) (m : Q) (q : Point) :
  lowest f seen m -> lowest f (seen ++ [q]) (Qmin m (f q)).
Proof.
  intros [(a & Ia & Ea) Hall]. split.
  - destruct (Q.min_spec m (f q)) as [[_ E]|[_ E]].
    + exists a. split; [apply in_or_app; left; exact Ia|].
      rewrite E. exact Ea.
    + exists q. split; [apply in_or_app; right; left; reflexivity|].
      rewrite E. reflexivity.
  - intros r Hr. apply in_app_or in Hr. destruct Hr as [Hr|[<-|[]]].
    + eapply Qle_trans; [apply Q.le_min_l|apply Hall, Hr].
    + apply Q.le_min_r.
Qed.

Lemma highest_snoc (f : Point -> Q) (seen : list Point) (m : Q) (q : Point) :
  highest f seen m -> highest f (seen ++ [q]) (Qmax m (f q)).
Proof.
  intros [(a & Ia & Ea) Hall]. split.
  - destruct (Q.max_spec m (f q)) as [[_ E]|[_ E]].
    + exists q. split; [apply in_or_app; right; left; reflexivity|].
      rewrite E. reflexivity.
    + exists a. split; [apply in_or_app; left; exact Ia|].
      rewrite E. exact Ea.
  - intros r Hr. apply in_app_or in Hr. destruct Hr as [Hr|[<-|[]]].
    + eapply Qle_trans; [apply Hall, Hr|apply Q.le_max_l].
    + apply Q.le_max_r.
Qed.

Lemma lowest_single (f : Point -> Q) (q : Point) : lowest f [q] (f q).
Proof.
  split; [exists q; split; [left|]; reflexivity|].
  intros r [<-|[]]. apply Qle_refl.
Qed.

Lemma highest_single (f : Point -> Q) (q : Point) : highest f [q] (f q).
Proof.
  split; [exists q; split; [left|]; reflexivity|].
  intros r [<-|[]]. apply Qle_refl.
Qed.

Lemma lowest_unique (f : Point -> Q) (l l' : list Point) (m m' : Q) :
  (forall q, In q l <-> In q l') ->
  lowest f l m -> lowest f l' m' -> m == m'.
Proof.
  intros HI [(a & Ia & Ea) Hall] [(a' & Ia' & Ea') Hall'].
  apply Qle_antisym.
  - rewrite <- Ea'. apply Hall, HI, Ia'.
  - rewrite <- Ea. apply Hall', HI, Ia.
Qed.

Lemma highest_unique (f : Point -> Q) (l l' : list Point) (m m' : Q) :
  (forall q, In q l <-> In q l') ->
  highest f l m -> highest f l' m' -> m == m'.
Proof.
  intros HI [(a & Ia & Ea) Hall] [(a' & Ia' & Ea') Hall'].
  apply Qle_antisym.
  - rewrite <- Ea. apply Hall', HI, Ia.
  - rewrite <- Ea'. apply Hall, HI, Ia'.
Qed.

End Extremes.

(** ** The mock planner *)

Section MockPath.

Lemma minOf_lowest (f : Point -> Q) (p : Point) (rest : list Point) :
  lowest f (p :: rest) (Controls.minOf (f p) (map f rest)).
Proof.
  unfold Controls.minOf.
  assert (G : forall rest m seen,
             lowest f seen m ->
             lowest f (seen ++ rest) (fold_left Qmin (map f rest) m)).
  { clear. induction rest as [|q rest IH]; intros m seen H.
    - rewrite app_nil_r. exact H.
    - cbn [map fold_left].
      replace (seen ++ q :: rest) with ((seen ++ [q]) ++ rest)
        by (rewrite <- app_assoc; reflexivity).
      apply IH, lowest_snoc, H. }
  apply (G rest (f p) [p]), lowest_single.
Qed.

Lemma maxOf_highest (f : Point -> Q) (p : Point) (rest : list Point) :
  highest f (p :: rest) (Controls.maxOf (f p) (map f rest)).
Proof.
  unfold Controls.maxOf.
  assert (G : forall rest m seen,
             highest f seen m ->
             highest f (seen ++ rest) (fold_left Qmax (map f rest) m)).
  { clear. induction rest as [|q rest IH]; intros m seen H.
    - rewrite app_nil_r. exact H.
    - cbn [map fold_left].
      replace (seen ++ q :: rest) with ((seen ++ [q]) ++ rest)
        by (rewrite <- app_assoc; reflexivity).
      apply IH, highest_snoc, H. }
  apply (G rest (f p) [p]), highest_single.
Qed.

End MockPath.

Section MockLoop.

Variables (x0 x1 y0 maxY : Q).

Lemma stripe_in_range (i : nat) :
  (i < Controls.stripeCount y0 maxY)%nat <-> y0 + inject_Z (Z.of_nat i) * 40 <= maxY.
Proof.
  unfold Controls.stripeCount, Controls.stripeSpacing.
  set (r := (maxY - y0) / 40).
  assert (R : y0 + inject_Z (Z.of_nat i) * 40 <= maxY <-> inject_Z (Z.of_nat i) <= r).
  { unfold r. split; intros H.
    - apply Qle_shift_div_l; [reflexivity|]. lra.
    - assert (H' : inject_Z (Z.of_nat i) * 40 <= (maxY - y0) / 40 * 40)
        by (apply Qmult_le_compat_r; [exact H|discriminate]).
      assert (E : (maxY - y0) / 40 * 40 == maxY - y0) by (field; discriminate).
      lra. }
  rewrite R. split; intros H.
  - assert (Hz : (Z.of_nat i <= Qfloor r)%Z) by lia.
    eapply Qle_trans; [|apply Qfloor_le].
    rewrite <- Zle_Qle. exact Hz.
  - assert (Hz : (Z.of_nat i <= Qfloor r)%Z).
    { rewrite <- (Qfloor_Z (Z.of_nat i)). apply Qfloor_resp_le, H. }
    lia.
Qed.

Lemma samePoints_refl (l : list Point) : samePoints l l.
Proof.
  induction l; constructor; [split; reflexivity|assumption].
Qed.

Lemma samePoints_trans (a b c : list Point) :
  samePoints a b -> samePoints b c -> samePoints a c.
Proof.
  intros H. revert c. induction H as [|p q a b [Hx Hy] _ IH]; intros c Hc.
  - inversion Hc. constructor.
  - inversion Hc as [|q' r b' c' [Hx' Hy'] Hr]; subst. constructor.
    + split; [rewrite Hx; exact Hx'|rewrite Hy; exact Hy'].
    + apply IH, Hr.
Qed.

Lemma samePoints_app (a a' b b' : list Point) :
  samePoints a a' -> samePoints b b' -> samePoints (a ++ b) (a' ++ b').
Proof. apply Forall2_app. Qed.

Lemma stripes_serpentine (fuel i : nat) (y : Q) (acc : list Point) :
  y == y0 + inject_Z (Z.of_nat i) * 40 ->
  (Controls.stripeCount y0 maxY - i <= fuel)%nat ->
  exists path,
    Controls.stripes fuel x0 x1 maxY y (Nat.even i) acc = Some path
    /\ samePoints path
         (acc ++ flat_map (sweep x0 x1 y0)
                   (seq i (Controls.stripeCount y0 maxY - i))).
Proof.
  revert i y acc. induction fuel as [|fuel IH]; intros i y acc Hy Hf.
  - assert (N : ~ (i < Controls.stripeCount y0 maxY)%nat) by lia.
    rewrite stripe_in_range in N.
    cbn [Controls.stripes].
    destruct (Qle_bool y maxY) eqn:E.
    + apply Qle_bool_iff in E. rewrite Hy in E. contradiction.
    + exists acc. split; [reflexivity|].
      replace (Controls.stripeCount y0 maxY - i)%nat with 0%nat by lia.
      cbn. rewrite app_nil_r. apply samePoints_refl.
  - cbn [Controls.stripes].
    destruct (Qle_bool y maxY) eqn:E.
    + apply Qle_bool_iff in E. rewrite Hy in E.
      apply stripe_in_range in E.
      destruct (IH (S i) (y + Controls.stripeSpacing)
                  (if Nat.even i
                   then acc ++ [mkPoint x0 y; mkPoint x1 y]
                   else acc ++ [mkPoint x1 y; mkPoint x0 y]))
        as (path & Hp & Hs).
      * rewrite Hy. unfold Controls.stripeSpacing.
        rewrite Nat2Z.inj_succ, <- Z.add_1_r, inject_Z_plus. ring.
      * lia.
      * exists path. rewrite Nat.even_succ, <- Nat.negb_even in Hp.
        split; [exact Hp|].
        replace (Controls.stripeCount y0 maxY - i)%nat
          with (S (Controls.stripeCount y0 maxY - S i)) by lia.
        cbn [seq flat_map]. rewrite app_assoc.
        eapply samePoints_trans; [exact Hs|].
        apply samePoints_app; [|apply samePoints_refl].
        unfold sweep. destruct (Nat.even i);
          (apply samePoints_app; [apply samePoints_refl|]);
          repeat constructor; cbn; try reflexivity; exact Hy.
    + exists acc. split; [reflexivity|].
      assert (N : ~ (i < Controls.stripeCount y0 maxY)%nat).
      { rewrite stripe_in_range. intros H. rewrite <- Hy in H.
        apply Qle_bool_iff in H. congruence. }
      replace (Controls.stripeCount y0 maxY - i)%nat with 0%nat by lia.
      cbn. rewrite app_nil_r. apply samePoints_refl.
Qed.

End MockLoop.

(** X18: with numbers idealised as exact rationals, [generateMockPath]
    returns, and what it returns for a boundary of at least 3 points is a
    serpentine over the bounding box of the boundary shrunk by 20 on every
    side: horizontal sweeps from the left margin to the right one and back,
    40 apart, starting at the top margin, one sweep for every height that
    does not pass the bottom margin. *)
Theorem generateMockPath_serpentine (boundary : list Point) :
  (3 <= length boundary)%nat ->
  exists minX maxX minY maxY path n,
    lowest px boundary minX /\ highest px boundary maxX
    /\ lowest py boundary minY /\ highest py boundary maxY
    /\ (forall i, (i < n)%nat
                  <-> minY + 20 + inject_Z (Z.of_nat i) * 40 <= maxY - 20)
    /\ Controls.generateMockPath boundary = Some path
    /\ samePoints path (serpentine (minX + 20) (maxX - 20) (minY + 20) n).
Proof.
  intros L. destruct boundary as [|p rest]; [cbn in L; lia|].
  exists (Controls.minOf (px p) (map px rest)), (Controls.maxOf (px p) (map px rest)),
         (Controls.minOf (py p) (map py rest)), (Controls.maxOf (py p) (map py rest)).
  set (minX := Controls.minOf (px p) (map px rest)).
  set (maxX := Controls.maxOf (px p) (map px rest)).
  set (minY := Controls.minOf (py p) (map py rest)).
  set (maxY := Controls.maxOf (py p) (map py rest)).
  destruct (stripes_serpentine (minX + 20) (maxX - 20) (minY + 20) (maxY - 20)
              (Controls.stripeCount (minY + 20) (maxY - 20)) 0 (minY + 20) [])
    as (path & Hp & Hs).
  - cbn. ring.
  - lia.
  - exists path, (Controls.stripeCount (minY + 20) (maxY - 20)).
    split; [apply minOf_lowest|]. split; [apply maxOf_highest|].
    split; [apply minOf_lowest|]. split; [apply maxOf_highest|].
    split; [intros i; apply stripe_in_range|].
    split.
    + unfold Controls.generateMockPath.
      destruct (Nat.ltb_spec (length (p :: rest)) 3); [lia|]. exact Hp.
    + rewrite Nat.sub_0_r in Hs. exact Hs.
Qed.

Lemma generateMockPath_serpentine_witness :
  exists minX maxX minY maxY path n,
    lowest px square minX /\ highest px square maxX
    /\ lowest py square minY /\ highest py square maxY
    /\ (forall i, (i < n)%nat
                  <-> minY + 20 + inject_Z (Z.of_nat i) * 40 <= maxY - 20)
    /\ Controls.generateMockPath square = Some path
    /\ samePoints path (serpentine (minX + 20) (maxX - 20) (minY + 20) n).
Proof. apply generateMockPath_serpentine. cbn. lia. Defined.

(** X19: with numbers idealised as exact rationals, a boundary less than
    40 high gives an empty plan: [generatePlan] then installs a path
    without waypoints, after which RUN stays disabled and [run] does
    nothing. *)
Theorem flat_boundary_gives_empty_plan (s : Controls.State) :
  (3 <= length (Canvas.boundary (Controls.canvas s)))%nat ->
  (forall p q, In p (Canvas.boundary (Controls.canvas s)) ->
               In q (Canvas.boundary (Controls.canvas s)) ->
               py q - py p < 40) ->
  Controls.generatePlan s = Some []
  /\ Controls.runBtn_disabled
       (dispatch s (EvPlanReady [])) = true
  /\ Controls.run (dispatch s (EvPlanReady [])) = dispatch s (EvPlanReady []).
Proof.
  intros L H. split; [|split].
  - unfold Controls.generatePlan, Controls.generateMockPath.
    destruct (Nat.ltb_spec (length (Canvas.boundary (Controls.canvas s))) 3);
      [lia|].
    destruct (Canvas.boundary (Controls.canvas s)) as [|p rest] eqn:B;
      [reflexivity|].
    destruct (minOf_lowest py p rest) as [(a & Ia & Ea) _].
    destruct (maxOf_highest py p rest) as [(b & Ib & Eb) _].
    specialize (H a b Ia Ib).
    assert (E : Qle_bool (Controls.minOf (py p) (map py rest) + 20)
                  (Controls.maxOf (py p) (map py rest) - 20) = false).
    { destruct (Qle_bool _ _) eqn:E; [|reflexivity].
      apply Qle_bool_iff in E. rewrite <- Ea, <- Eb in E. lra. }
    destruct (Controls.stripeCount _ _); cbn [Controls.stripes]; rewrite E; reflexivity.
  - destruct s as [cv r p sp oc ix pr ts]. destruct cv. reflexivity.
  - destruct s as [cv r p sp oc ix pr ts]. destruct cv. reflexivity.
Qed.

Lemma flat_boundary_gives_empty_plan_witness :
  let s :=
    App.importData
      (App.mkSnapshot (Some [mkPoint 0 0; mkPoint 100 0; mkPoint 50 30])
         None None None)
      (Controls.init (Canvas.init 800 600)) in
  Controls.generatePlan s = Some []
  /\ Controls.runBtn_disabled (dispatch s (EvPlanReady [])) = true
  /\ Controls.run (dispatch s (EvPlanReady [])) = dispatch s (EvPlanReady []).
Proof.
  apply (flat_boundary_gives_empty_plan
           (App.importData
              (App.mkSnapshot (Some [mkPoint 0 0; mkPoint 100 0; mkPoint 50 30])
                 None None None)
              (Controls.init (Canvas.init 800 600)))).
  - cbn. lia.
  - cbn. intros p q [<-|[<-|[<-|[]]]] [<-|[<-|[<-|[]]]]; reflexivity.
Defined.

(** ** The time estimate *)

Section EstimatedTime.

Lemma padStart2_twoDigits (n : Z) :
  (0 <= n < 60)%Z -> Controls.padStart2 (intString n) = twoDigits n.
Proof.
  intros H.
  assert (A : forallb
                (fun k => String.eqb (Controls.padStart2 (intString (Z.of_nat k)))
                            (twoDigits (Z.of_nat k)))
                (seq 0 60) = true) by reflexivity.
  rewrite forallb_forall in A.
  specialize (A (Z.to_nat n)). rewrite Z2Nat.id in A by lia.
  apply String.eqb_eq, A, in_seq. lia.
Qed.

Lemma travelSeconds_nonneg (x : Q) : (0 <= travelSeconds x)%Z.
Proof.
  unfold travelSeconds. change 0%Z with (Qfloor 0). apply Qfloor_resp_le.
  pose proof (tenths_nonneg x) as H.
  assert (H' : 0 <= inject_Z (Js.tenths x)) by (rewrite Zle_Qle in H; exact H).
  assert (0 <= inject_Z (Js.tenths x) / 5)
    by (apply Qle_shift_div_l; [reflexivity|lra]).
  lra.
Qed.

End EstimatedTime.

(** X20: for the text of a non-negative path length, the time estimate is
    [m:ss]: the travel time at half a metre per second, rounded to whole
    seconds, split into minutes and a seconds field of exactly two digits
    below 60. *)
Theorem estimated_time_format (x : Q) :
  0 <= x ->
  Controls.calculateEstimatedTime (Js.toFixed1 x)
  = (intString (travelSeconds x / 60) ++ ":"
     ++ twoDigits (travelSeconds x mod 60))%string.
Proof.
  intros Hx. destruct (parseFloat_toFixed1 x Hx) as (r & Hp & Hr).
  unfold Controls.calculateEstimatedTime.
  destruct (String.eqb (Js.toFixed1 x) "0.0") eqn:E.
  - apply String.eqb_eq in E. rewrite E in Hp.
    assert (Z0 : Js.tenths x = 0%Z).
    { vm_compute in Hp. injection Hp as <-.
      assert (I : inject_Z (Js.tenths x) == 0).
      { assert (inject_Z (Js.tenths x) / 10 * 10 == inject_Z (Js.tenths x))
          by (field; discriminate).
        rewrite <- H, <- Hr. reflexivity. }
      unfold Qeq, inject_Z in I. cbn [Qnum Qden] in I. lia. }
    unfold travelSeconds. rewrite Z0. reflexivity.
  - rewrite Hp. cbn zeta.
    assert (T : Qfloor (r / (1 # 2) + (1 # 2)) = travelSeconds x).
    { unfold travelSeconds. apply Qfloor_comp. rewrite Hr. field. }
    rewrite T. pose proof (travelSeconds_nonneg x) as N.
    rewrite Z.rem_mod_nonneg by lia.
    rewrite padStart2_twoDigits by (apply Z.mod_pos_bound; lia).
    reflexivity.
Qed.

Lemma estimated_time_format_witness :
  Controls.calculateEstimatedTime (Js.toFixed1 (373 # 10))
  = (intString (travelSeconds (373 # 10) / 60) ++ ":"
     ++ twoDigits (travelSeconds (373 # 10) mod 60))%string.
Proof. apply (estimated_time_format (373 # 10)). discriminate. Defined.

(** ** The area statistics *)

Section Stats.








End Stats.


(** ** Export and import *)

(** X22: importing what was just exported changes nothing on the canvas;
    after a reset in between, it brings back the boundary, both obstacle
    registries and the planned path, in ready mode, with an empty buffer, no
    robot and the zoom as it was. *)
Theorem export_reset_import (timestamp : string) (s : Controls.State) :
  let d := asSnapshot (App.exportData timestamp s) in
  let c := Controls.canvas s in
  let c' := Controls.canvas (App.importData d (Controls.reset s)) in
  Controls.canvas (App.importData d s) = c
  /\ Canvas.boundary c' = Canvas.boundary c
  /\ Canvas.obstacles c' = Canvas.obstacles c
  /\ Canvas.dynamicObstacles c' = Canvas.dynamicObstacles c
  /\ Canvas.plannedPath c' = Canvas.plannedPath c
  /\ Canvas.mode c' = ModeReady
  /\ Canvas.currentObstacle c' = []
  /\ Canvas.robotPosition c' = None
  /\ Canvas.scale c' = Canvas.scale c.
Proof.
  destruct s as [cv r p sp oc ix pr ts]. cbn.
  unfold Canvas.reset, Canvas.setMode. cbn.
  repeat split.
Qed.

(** ** Drawing and playback exclude each other *)

Section Exclusion.

Ltac split_ifs :=
  repeat match goal with
         | |- context [if ?b then _ else _] => destruct b
         | |- context [match ?m with _ => _ end] => destruct m
         end.

(** An edit of the canvas that keeps the mode or returns to ready mode. *)
Lemma idleOrReady_canvas (f : Canvas.State -> Canvas.State)
    (s : Controls.State) :
  (Canvas.mode (f (Controls.canvas s)) = Canvas.mode (Controls.canvas s)
   \/ Canvas.mode (f (Controls.canvas s)) = ModeReady) ->
  idleOrReady s -> idleOrReady (Controls.onCanvas f s).
Proof.
  unfold idleOrReady. rewrite canvas_onCanvas.
  intros [M|M] [H|H]; try (left; exact H); right; congruence.
Qed.

Lemma setMode_mode (m : Mode) (c : Canvas.State) :
  Canvas.mode (Canvas.setMode m c) = m.
Proof. unfold Canvas.setMode. destruct c, m; cbn; split_ifs; reflexivity. Qed.

Lemma finishBoundary_mode (c : Canvas.State) :
  Canvas.mode (Canvas.finishBoundary c) = Canvas.mode c
  \/ Canvas.mode (Canvas.finishBoundary c) = ModeReady.
Proof.
  unfold Canvas.finishBoundary. split_ifs;
    rewrite ?setMode_mode; auto.
Qed.

Lemma finishObstacle_mode (now : Z) (c : Canvas.State) :
  Canvas.mode (Canvas.finishObstacle now c) = Canvas.mode c
  \/ Canvas.mode (Canvas.finishObstacle now c) = ModeReady.
Proof.
  unfold Canvas.finishObstacle. split_ifs; rewrite ?setMode_mode; auto.
Qed.

Lemma finishDynamicObstacle_mode (now : Z) (c : Canvas.State) :
  Canvas.mode (Canvas.finishDynamicObstacle now c) = ModeReady.
Proof.
  unfold Canvas.finishDynamicObstacle. split_ifs; apply setMode_mode.
Qed.

Lemma handleClick_mode (x y : Q) (c : Canvas.State) :
  Canvas.mode (Canvas.handleClick x y c) = Canvas.mode c.
Proof. unfold Canvas.handleClick. destruct c as [? ? ? ? ? ? []]; reflexivity. Qed.

Lemma handleRightClick_mode (now : Z) (c : Canvas.State) :
  Canvas.mode (Canvas.handleRightClick now c) = Canvas.mode c
  \/ Canvas.mode (Canvas.handleRightClick now c) = ModeReady.
Proof.
  unfold Canvas.handleRightClick.
  destruct (Canvas.mode c) eqn:M; split_ifs; auto.
  - rewrite <- M. apply finishBoundary_mode.
  - rewrite <- M. apply finishObstacle_mode.
  - right. apply finishDynamicObstacle_mode.
Qed.

Lemma view_mode (f : Canvas.State -> Canvas.State) (c : Canvas.State) :
  In f [Canvas.handleMouseUp; Canvas.handleMouseLeave; Canvas.zoomIn;
        Canvas.zoomOut; Canvas.resetZoom] ->
  Canvas.mode (f c) = Canvas.mode c.
Proof.
  intros H. cbn in H.
  destruct H as [<-|[<-|[<-|[<-|[<-|[]]]]]]; destruct c;
    unfold Canvas.handleMouseUp, Canvas.handleMouseLeave, Canvas.zoomIn,
      Canvas.zoomOut, Canvas.resetZoom; cbn; split_ifs; reflexivity.
Qed.

Lemma stop_mode (s : Controls.State) :
  Canvas.mode (Controls.canvas (Controls.stop s))
  = Canvas.mode (Controls.canvas s).
Proof. destruct s as [[] ? ? ? ? ? ? ?]. reflexivity. Qed.

Lemma animate_mode (path : list Point) (s : Controls.State) :
  Canvas.mode (Controls.canvas (Controls.animate path s))
  = Canvas.mode (Controls.canvas s).
Proof.
  destruct s as [[] r p ? ? ? ? ?]. unfold Controls.animate. cbn.
  destruct r, p; cbn; try reflexivity; split_ifs; reflexivity.
Qed.

Lemma startSimulation_mode (s : Controls.State) :
  Canvas.mode (Controls.canvas (Controls.startSimulation s))
  = Canvas.mode (Controls.canvas s).
Proof.
  unfold Controls.startSimulation. split_ifs; try reflexivity;
    rewrite animate_mode; destruct s as [[] ? ? ? ? ? ? ?]; reflexivity.
Qed.

Lemma run_mode (s : Controls.State) :
  Canvas.mode (Controls.canvas (Controls.run s))
  = Canvas.mode (Controls.canvas s).
Proof.
  unfold Controls.run. split_ifs; [reflexivity|].
  rewrite startSimulation_mode. destruct s as [[] ? ? ? ? ? ? ?]. reflexivity.
Qed.

Lemma resume_mode (s : Controls.State) :
  Canvas.mode (Controls.canvas (Controls.resume s))
  = Canvas.mode (Controls.canvas s).
Proof.
  unfold Controls.resume. split_ifs; [|reflexivity].
  rewrite startSimulation_mode. destruct s as [[] ? ? ? ? ? ? ?]. reflexivity.
Qed.

Lemma fireTimer_mode (n : nat) (s : Controls.State) :
  Canvas.mode (Controls.canvas (Controls.fireTimer n s))
  = Canvas.mode (Controls.canvas s).
Proof.
  unfold Controls.fireTimer. split_ifs; [|reflexivity].
  rewrite animate_mode. destruct s as [[] ? ? ? ? ? ? ?]. reflexivity.
Qed.

(** Any step that keeps the mode keeps the property when the editor is in
    ready mode. *)
Lemma ready_idleOrReady (s s' : Controls.State) :
  Canvas.mode (Controls.canvas s') = Canvas.mode (Controls.canvas s) ->
  Canvas.mode (Controls.canvas s) = ModeReady -> idleOrReady s'.
Proof. intros E M. right. congruence. Qed.

Lemma isDrawing_false (s : Controls.State) :
  Controls.isDrawing s = false -> Canvas.mode (Controls.canvas s) = ModeReady.
Proof.
  unfold Controls.isDrawing.
  destruct (Canvas.mode (Controls.canvas s)); cbn; congruence.
Qed.

Lemma fireTimer_idle_noop (n : nat) (s : Controls.State) :
  Controls.isRunning s = false ->
  Controls.isRunning (Controls.fireTimer n s) = false.
Proof.
  destruct s as [cv r p sp oc ix pr ts]. cbn. intros ->.
  unfold Controls.fireTimer. cbn. destruct (nth_error ts n); reflexivity.
Qed.

Lemma dispatch_idleOrReady (ev : Event) (s : Controls.State) :
  noDrawingKey ev = true ->
  flagsInv s -> idleOrReady s -> idleOrReady (dispatch s ev).
Proof.
  intros K F H.
  destruct ev; cbn [dispatch unlessDisabled].
  - apply idleOrReady_canvas; [left; apply handleClick_mode|exact H].
  - apply idleOrReady_canvas; [apply handleRightClick_mode|exact H].
  - apply idleOrReady_canvas; [|apply idleOrReady_canvas; [|exact H]];
      left; destruct s as [[] ? ? ? ? ? ? ?]; unfold Canvas.handleMouseMove;
      cbn; split_ifs; reflexivity.
  - apply idleOrReady_canvas; [|exact H].
    left. destruct s as [[] ? ? ? ? ? ? ?]. unfold Canvas.handleMouseDown.
    cbn. split_ifs; reflexivity.
  - apply idleOrReady_canvas; [left; apply view_mode; cbn; auto|exact H].
  - apply idleOrReady_canvas; [left; apply view_mode; cbn; auto|exact H].
  - apply idleOrReady_canvas; [|exact H].
    left. destruct s as [[] ? ? ? ? ? ? ?]. unfold Canvas.handleWheel.
    cbn. split_ifs; reflexivity.
  - destruct key; cbn [Controls.handleKeyboard]; try discriminate K;
      try exact H.
    + destruct ctrlKey; [left; reflexivity|exact H].
    + destruct (Controls.isRunning s) eqn:R; cbn [andb].
      * destruct H as [H|H]; [congruence|].
        destruct (Controls.isPaused s); cbn [negb].
        -- eapply ready_idleOrReady; [apply run_mode|exact H].
        -- right. exact H.
      * rewrite (F R). left. exact R.
    + destruct (Canvas.mode (Controls.canvas s)) eqn:M.
      * apply idleOrReady_canvas; [right; apply setMode_mode|exact H].
      * destruct (3 <=? _)%nat eqn:L;
          (apply idleOrReady_canvas; [right|exact H]);
          [|apply setMode_mode].
        unfold Canvas.finishBoundary. rewrite L. apply setMode_mode.
      * destruct (3 <=? _)%nat eqn:L;
          (apply idleOrReady_canvas; [right|exact H]);
          [|apply setMode_mode].
        unfold Canvas.finishObstacle. rewrite L. apply setMode_mode.
      * destruct (3 <=? _)%nat;
          (apply idleOrReady_canvas; [right|exact H]);
          [apply finishDynamicObstacle_mode|apply setMode_mode].
    + destruct ctrlKey; exact H.
  - left. reflexivity.
  - unfold Controls.boundaryBtn_disabled, Controls.isSimulationActive.
    destruct (Controls.isRunning s) eqn:R; cbn [orb]; [exact H|].
    left. destruct (_ && _); cbn [unlessDisabled]; [exact R|].
    unfold Controls.startBoundary. destruct (Canvas.mode (Controls.canvas s)); exact R.
  - unfold Controls.addObstacleBtn_disabled, Controls.isSimulationActive.
    destruct (Controls.isRunning s) eqn:R; cbn [orb]; [exact H|].
    left. destruct (_ && _); cbn [unlessDisabled]; [exact R|].
    unfold Controls.addObstacle. destruct (Canvas.mode (Controls.canvas s)); exact R.
  - unfold Controls.addDynamicObstacleBtn_disabled,
      Controls.isSimulationActive.
    destruct (Controls.isRunning s) eqn:R; cbn [orb]; [exact H|].
    left. destruct (_ && _); cbn [unlessDisabled]; [exact R|].
    unfold Controls.addDynamicObstacle. destruct (Canvas.mode (Controls.canvas s)); exact R.
  - unfold Controls.runBtn_disabled.
    destruct (Controls.isDrawing s) eqn:D;
      [rewrite orb_true_r; exact H|].
    destruct (negb (Controls.hasPath s) || Controls.isRunning s);
      cbn [orb]; [exact H|].
    eapply ready_idleOrReady; [apply run_mode|apply isDrawing_false, D].
  - unfold Controls.pauseBtn_disabled.
    destruct (negb (Controls.isRunning s) || Controls.isPaused s
              || Controls.isDrawing s); exact H.
  - unfold Controls.resumeBtn_disabled.
    destruct (Controls.isDrawing s) eqn:D;
      [rewrite orb_true_r; exact H|].
    destruct (negb (Controls.isRunning s) || negb (Controls.isPaused s));
      cbn [orb]; [exact H|].
    eapply ready_idleOrReady; [apply resume_mode|apply isDrawing_false, D].
  - destruct (Controls.stopBtn_disabled s); [exact H|left; reflexivity].
  - exact H.
  - apply idleOrReady_canvas; [left; reflexivity|exact H].
  - destruct H as [H|H].
    + left. apply fireTimer_idle_noop, H.
    + eapply ready_idleOrReady; [apply fireTimer_mode|exact H].
  - apply idleOrReady_canvas; [left; reflexivity|exact H].
  - apply idleOrReady_canvas; [left; reflexivity|exact H].
  - apply idleOrReady_canvas; [left; reflexivity|exact H].
  - destruct H as [H|H]; [left; exact H|right; exact H].
  - destruct H as [H|H]; [left; exact H|right; exact H].
Qed.

End Exclusion.

(** X23: with the mouse and the buttons the editor never draws during a
    playback: in every state reached from the initial one by page events
    other than the keys B, O and D, either no playback is active or the
    editor is in ready mode. *)
Theorem no_drawing_during_playback (evs : list Event) (w h : Q) :
  forallb noDrawingKey evs = true ->
  idleOrReady (dispatchAll evs (Controls.init (Canvas.init w h))).
Proof.
  intros K.
  assert (G : forall evs s,
             forallb noDrawingKey evs = true ->
             flagsInv s -> idleOrReady s ->
             idleOrReady (dispatchAll evs s)).
  { clear. induction evs as [|ev evs IH]; intros s K F H; [exact H|].
    cbn in K. apply andb_true_iff in K as [K1 K2].
    unfold dispatchAll. cbn [fold_left].
    apply IH; [exact K2|apply dispatch_flagsInv, F|].
    apply dispatch_idleOrReady; assumption. }
  apply G; [exact K|intros _; reflexivity|left; reflexivity].
Qed.

Lemma no_drawing_during_playback_witness :
  idleOrReady
    (dispatchAll
       [EvBoundaryBtn; EvClick 100 100; EvClick 500 100; EvClick 500 400;
        EvRightClick 0; EvPlanReady path5; EvRunBtn; EvBoundaryBtn;
        EvKey KeySpace false 0; EvTimer 0]
       (Controls.init (Canvas.init 800 600))).
Proof.
  apply (no_drawing_during_playback
           [EvBoundaryBtn; EvClick 100 100; EvClick 500 100; EvClick 500 400;
            EvRightClick 0; EvPlanReady path5; EvRunBtn; EvBoundaryBtn;
            EvKey KeySpace false 0; EvTimer 0] 800 600).
  reflexivity.
Defined.

(** ** The union estimate on rectangles *)

Section UnionOfRectangles.

Variables (x0 y0 x1 y1 : Q).
Hypothesis (Hx : x0 <= x1) (Hy : y0 <= y1).

Lemma boxStep_corner (b : Controls.Box) (p : Point) :
  In p (rectangle x0 y0 x1 y1) ->
  boxIs b x0 x1 y0 y1 -> boxIs (Controls.boxStep b p) x0 x1 y0 y1.
Proof.
  destruct b as [[[[a b] c] d]|]; [|contradiction].
  intros Hp (Ea & Eb & Ec & Ed). cbn in Hp.
  destruct Hp as [<-|[<-|[<-|[<-|[]]]]]; cbn [Controls.boxStep boxIs px py];
    rewrite Ea, Eb, Ec, Ed;
    repeat split;
    first [apply Q.min_l|apply Q.max_l|apply Q.min_r|apply Q.max_r];
    first [exact Hx|exact Hy|apply Qle_refl].
Qed.

Lemma box_of_rectangle (b : Controls.Box) :
  boxIs b x0 x1 y0 y1 ->
  boxIs (fold_left Controls.boxStep (rectangle x0 y0 x1 y1) b) x0 x1 y0 y1.
Proof.
  intros H. unfold rectangle. cbn [fold_left].
  repeat apply boxStep_corner; cbn; auto 6.
Qed.

Lemma box_of_first_rectangle :
  boxIs (fold_left Controls.boxStep (rectangle x0 y0 x1 y1) None) x0 x1 y0 y1.
Proof.
  unfold rectangle. cbn [fold_left Controls.boxStep px py boxIs].
  repeat split;
    repeat match goal with
           | |- context [Qmin ?a ?b] =>
               first [rewrite (Q.min_l a b)
                        by first [exact Hx|exact Hy|apply Qle_refl]
                     |rewrite (Q.min_r a b)
                        by first [exact Hx|exact Hy|apply Qle_refl]]
           | |- context [Qmax ?a ?b] =>
               first [rewrite (Q.max_l a b)
                        by first [exact Hx|exact Hy|apply Qle_refl]
                     |rewrite (Q.max_r a b)
                        by first [exact Hx|exact Hy|apply Qle_refl]]
           end; reflexivity.
Qed.

Lemma box_of_rectangles (k : nat) :
  boxIs (Controls.boundingBox (repeat (rectangle x0 y0 x1 y1) (S k)))
    x0 x1 y0 y1.
Proof.
  unfold Controls.boundingBox. cbn [repeat fold_left].
  generalize box_of_first_rectangle.
  generalize (fold_left Controls.boxStep (rectangle x0 y0 x1 y1) None).
  induction k as [|k IH]; intros b H; [exact H|].
  cbn [repeat fold_left]. apply IH, box_of_rectangle, H.
Qed.

End UnionOfRectangles.

Section EqualRectangles.

Lemma nat_lt_Q (i m : nat) :
  (i < m)%nat -> inject_Z (Z.of_nat i) + 1 <= inject_Z (Z.of_nat m).
Proof.
  intros H. change 1 with (inject_Z 1). rewrite <- inject_Z_plus, <- Zle_Qle.
  lia.
Qed.

Lemma nat_nonneg_Q (i : nat) : 0 <= inject_Z (Z.of_nat i).
Proof. change 0 with (inject_Z 0). rewrite <- Zle_Qle. lia. Qed.

Lemma Qceiling_half (a b x0 : Q) (m : nat) :
  a == x0 -> b == x0 + 2 * inject_Z (Z.of_nat m) ->
  Qceiling ((b - a) / Controls.cellSize) = Z.of_nat m.
Proof.
  intros Ea Eb. rewrite <- (Qceiling_Z (Z.of_nat m)).
  apply Qceiling_comp. rewrite Ea, Eb. unfold Controls.cellSize. field.
Qed.

End EqualRectangles.

(** X24: the union estimate does not count an overlap twice and is exact on
    a rectangle that fits the grid: for two or more copies of one
    axis-parallel rectangle whose sides are [2 m] and [2 n] pixels long,
    [calculateUnionArea] returns the area of a single copy,
    [(2 m) (2 n) / 2500] square metres. *)
Theorem union_of_equal_rectangles (x0 y0 : Q) (m n k : nat) :
  let r :=
    rectangle x0 y0 (x0 + 2 * inject_Z (Z.of_nat m))
      (y0 + 2 * inject_Z (Z.of_nat n)) in
  exists a,
    Controls.calculateUnionArea (repeat r (S (S k))) = Some a
    /\ a == (2 * inject_Z (Z.of_nat m)) * (2 * inject_Z (Z.of_nat n)) / 2500.
Proof.
  intros r.
  set (x1 := x0 + 2 * inject_Z (Z.of_nat m)) in *.
  set (y1 := y0 + 2 * inject_Z (Z.of_nat n)) in *.
  assert (Hx : x0 <= x1) by (unfold x1; pose proof (nat_nonneg_Q m); lra).
  assert (Hy : y0 <= y1) by (unfold y1; pose proof (nat_nonneg_Q n); lra).
  pose proof (box_of_rectangles x0 y0 x1 y1 Hx Hy (S k)) as B.
  fold r in B.
  change (repeat r (S (S k))) with (r :: r :: repeat r k) in *.
  cbn [Controls.calculateUnionArea].
  eexists. split; [reflexivity|].
  rewrite countCovered_filter.
  set (polygons := r :: r :: repeat r k) in *.
  destruct (Controls.boundingBox polygons) as [[[[a b] c] d]|] eqn:E;
    [|contradiction].
  destruct B as (Ea & Eb & Ec & Ed).
  assert (Gw : Qceiling ((b - a) / Controls.cellSize) = Z.of_nat m)
    by (apply (Qceiling_half a b x0 m); assumption).
  assert (Gh : Qceiling ((d - c) / Controls.cellSize) = Z.of_nat n)
    by (apply (Qceiling_half c d y0 n); assumption).
  assert (Cells : gridCells (Some (a, b, c, d))
                  = list_prod (seq 0 m) (seq 0 n)).
  { unfold gridCells. cbn [Controls.gridSize fst snd].
    rewrite Gw, Gh, !Nat2Z.id. reflexivity. }
  rewrite Cells.
  rewrite filter_all.
  - rewrite length_prod, !length_seq, Nat2Z.inj_mul, inject_Z_mult.
    unfold Controls.cellSize. field.
  - intros [i j] Hc. apply in_prod_iff in Hc as [Hi Hj].
    apply in_seq in Hi, Hj.
    unfold cellCovered, polygons. cbn [existsb fst snd].
    unfold r at 1. rewrite pip_rectangle by assumption.
    cbn [Controls.cellCenter px py].
    pose proof (nat_lt_Q i m ltac:(lia)) as Li.
    pose proof (nat_lt_Q j n ltac:(lia)) as Lj.
    pose proof (nat_nonneg_Q i) as Ni.
    pose proof (nat_nonneg_Q j) as Nj.
    assert (A1 : Qle_bool x0 (a + (inject_Z (Z.of_nat i) + (1 # 2))
                                   * Controls.cellSize) = true)
      by (apply Qle_bool_iff; unfold Controls.cellSize; rewrite Ea; lra).
    assert (A2 : Controls.Qltb (a + (inject_Z (Z.of_nat i) + (1 # 2))
                                     * Controls.cellSize) x1 = true)
      by (apply Qltb_spec; unfold Controls.cellSize, x1; rewrite Ea; lra).
    assert (A3 : Qle_bool y0 (c + (inject_Z (Z.of_nat j) + (1 # 2))
                                   * Controls.cellSize) = true)
      by (apply Qle_bool_iff; unfold Controls.cellSize; rewrite Ec; lra).
    assert (A4 : Controls.Qltb (c + (inject_Z (Z.of_nat j) + (1 # 2))
                                     * Controls.cellSize) y1 = true)
      by (apply Qltb_spec; unfold Controls.cellSize, y1; rewrite Ec; lra).
    rewrite A1, A2, A3, A4. reflexivity.
Qed.

(** ** Zooming at the limits *)

(** X25: at the upper zoom limit zooming in changes nothing: a wheel step
    that zooms in ([deltaY <= 0]) returns the canvas state as it is, and
    [zoomIn] leaves the scale and, with numbers idealised as exact
    rationals, both pan offsets at their values. *)
Theorem zoom_in_stops_at_maxScale
    (c : Canvas.State) (mouseX mouseY deltaY : Q) :
  Canvas.scale c == Canvas.maxScale ->
  deltaY <= 0 ->
  Canvas.handleWheel mouseX mouseY deltaY c = c
  /\ Canvas.scale (Canvas.zoomIn c) == Canvas.scale c
  /\ Canvas.panX (Canvas.zoomIn c) == Canvas.panX c
  /\ Canvas.panY (Canvas.zoomIn c) == Canvas.panY c.
Proof.
  intros E D.
  assert (M : Canvas.maxScale == 5) by reflexivity.
  assert (m : Canvas.minScale == 2 # 10) by reflexivity.
  split.
  - unfold Canvas.handleWheel.
    assert (B : Qle_bool deltaY 0 = true) by (apply Qle_bool_iff; exact D).
    rewrite B.
    assert (N : Qmax Canvas.minScale
                  (Qmin Canvas.maxScale (Canvas.scale c * (11 # 10)))
                == Canvas.scale c).
    { rewrite Q.min_l by (rewrite E, M; discriminate).
      rewrite Q.max_r by (rewrite M, m; discriminate).
      symmetry. exact E. }
    apply Qeq_bool_iff in N. rewrite N. reflexivity.
  - assert (S1 : Qmin Canvas.maxScale (Canvas.scale c * (12 # 10))
                 == Canvas.scale c).
    { rewrite Q.min_l by (rewrite E, M; discriminate). symmetry. exact E. }
    assert (Nz : ~ Canvas.scale c == 0) by (rewrite E, M; discriminate).
    unfold Canvas.zoomIn. cbn.
    split; [exact S1|]. split; rewrite S1; field; exact Nz.
Qed.

Lemma zoom_in_stops_at_maxScale_witness :
  let c := Canvas.set_scale 5 (Canvas.init 800 600) in
  Canvas.handleWheel 100 100 (-3) c = c
  /\ Canvas.scale (Canvas.zoomIn c) == Canvas.scale c
  /\ Canvas.panX (Canvas.zoomIn c) == Canvas.panX c
  /\ Canvas.panY (Canvas.zoomIn c) == Canvas.panY c.
Proof.
  apply (zoom_in_stops_at_maxScale (Canvas.set_scale 5 (Canvas.init 800 600))
           100 100 (-3)); [reflexivity|discriminate].
Defined.

(** X26: at the lower zoom limit zooming out changes nothing: a wheel step
    that zooms out ([deltaY > 0]) returns the canvas state as it is, and
    [zoomOut] leaves the scale and, with numbers idealised as exact
    rationals, both pan offsets at their values. *)
Theorem zoom_out_stops_at_minScale
    (c : Canvas.State) (mouseX mouseY deltaY : Q) :
  Canvas.scale c == Canvas.minScale ->
  0 < deltaY ->
  Canvas.handleWheel mouseX mouseY deltaY c = c
  /\ Canvas.scale (Canvas.zoomOut c) == Canvas.scale c
  /\ Canvas.panX (Canvas.zoomOut c) == Canvas.panX c
  /\ Canvas.panY (Canvas.zoomOut c) == Canvas.panY c.
Proof.
  intros E D.
  assert (M : Canvas.maxScale == 5) by reflexivity.
  assert (m : Canvas.minScale == 2 # 10) by reflexivity.
  split.
  - unfold Canvas.handleWheel.
    assert (B : Qle_bool deltaY 0 = false).
    { destruct (Qle_bool deltaY 0) eqn:B; [|reflexivity].
      apply Qle_bool_iff in B. lra. }
    rewrite B.
    assert (N : Qmax Canvas.minScale
                  (Qmin Canvas.maxScale (Canvas.scale c * (9 # 10)))
                == Canvas.scale c).
    { rewrite Q.min_r by (rewrite E, M, m; discriminate).
      rewrite Q.max_l by (rewrite E, m; discriminate).
      symmetry. exact E. }
    apply Qeq_bool_iff in N. rewrite N. reflexivity.
  - assert (S1 : Qmax Canvas.minScale (Canvas.scale c / (12 # 10))
                 == Canvas.scale c).
    { rewrite Q.max_l by (rewrite E, m; discriminate). symmetry. exact E. }
    assert (Nz : ~ Canvas.scale c == 0) by (rewrite E, m; discriminate).
    unfold Canvas.zoomOut. cbn.
    split; [exact S1|]. split; rewrite S1; field; exact Nz.
Qed.

Lemma zoom_out_stops_at_minScale_witness :
  let c := Canvas.set_scale (2 # 10) (Canvas.init 800 600) in
  Canvas.handleWheel 100 100 3 c = c
  /\ Canvas.scale (Canvas.zoomOut c) == Canvas.scale c
  /\ Canvas.panX (Canvas.zoomOut c) == Canvas.panX c
  /\ Canvas.panY (Canvas.zoomOut c) == Canvas.panY c.
Proof.
  apply (zoom_out_stops_at_minScale
           (Canvas.set_scale (2 # 10) (Canvas.init 800 600)) 100 100 3);
    reflexivity.
Defined.

(** ** Point in polygon and union area under shifts and reordering *)

Section PointInPolygonInvariance.

Lemma Qle_bool_shift (a b t : Q) : Qle_bool (a + t) (b + t) = Qle_bool a b.
Proof.
  destruct (Qle_bool a b) eqn:E.
  - apply Qle_bool_iff in E. apply Qle_bool_iff. lra.
  - destruct (Qle_bool (a + t) (b + t)) eqn:F; [|reflexivity].
    apply Qle_bool_iff in F.
    assert (G : a <= b) by lra. apply Qle_bool_iff in G. congruence.
Qed.

Lemma Qle_bool_eq (a a' b b' : Q) :
  a == a' -> b == b' -> Qle_bool a b = Qle_bool a' b'.
Proof. intros -> ->. reflexivity. Qed.

Lemma at_map (f : Point -> Point) (l : list Point) (i : nat) :
  (i < length l)%nat -> at_ (map f l) i = f (at_ l i).
Proof.
  intros H. unfold at_.
  rewrite (nth_indep (map f l) origin (f origin)) by (rewrite length_map; exact H).
  apply map_nth.
Qed.

(** The two folds agree when the step functions agree on indices inside
    the polygon and each step leaves its index as the trailing one. *)
Lemma fold_pip_ext (f g : bool * nat -> nat -> bool * nat) (n : nat) :
  (forall st i, (snd st < n)%nat -> (i < n)%nat -> f st i = g st i) ->
  (forall st i, snd (g st i) = i) ->
  forall (l : list nat) (st : bool * nat),
    (snd st < n)%nat -> (forall i, In i l -> (i < n)%nat) ->
    fold_left f l st = fold_left g l st.
Proof.
  intros Hfg Hsnd. induction l as [|i l IH]; intros st Hst Hl; [reflexivity|].
  cbn [fold_left]. rewrite Hfg by (try exact Hst; apply Hl; left; reflexivity).
  apply IH.
  - rewrite Hsnd. apply Hl. left. reflexivity.
  - intros k Hk. apply Hl. right. exact Hk.
Qed.

Lemma pipStep_snd (p : Point) (polygon : list Point) (st : bool * nat)
    (i : nat) :
  snd (Controls.pipStep p polygon st i) = i.
Proof. unfold Controls.pipStep. destruct st. reflexivity. Qed.

Lemma pipStep_translate (t p : Point) (polygon : list Point)
    (st : bool * nat) (i : nat) :
  (snd st < length polygon)%nat -> (i < length polygon)%nat ->
  Controls.pipStep (translate t p) (map (translate t) polygon) st i
  = Controls.pipStep p polygon st i.
Proof.
  destruct st as [inside j]. cbn [snd]. intros Hj Hi.
  unfold Controls.pipStep. rewrite !at_map by assumption.
  set (a := at_ polygon i). set (b := at_ polygon j).
  unfold translate. cbn [px py].
  unfold Controls.Qgtb, Controls.Qltb. rewrite !Qle_bool_shift.
  rewrite (Qle_bool_eq
             ((px b + px t - (px a + px t)) * (py p + py t - (py a + py t))
              / (py b + py t - (py a + py t)) + (px a + px t))
             ((px b - px a) * (py p - py a) / (py b - py a) + px a + px t)
             (px p + px t) (px p + px t)).
  - rewrite Qle_bool_shift. reflexivity.
  - setoid_replace (py b + py t - (py a + py t)) with (py b - py a) by ring.
    setoid_replace (px b + px t - (px a + px t)) with (px b - px a) by ring.
    setoid_replace (py p + py t - (py a + py t)) with (py p - py a) by ring.
    ring.
  - reflexivity.
Qed.

Lemma pipStep_comp (p q : Point) (polygon : list Point)
    (st : bool * nat) (i : nat) :
  samePoint p q ->
  Controls.pipStep p polygon st i = Controls.pipStep q polygon st i.
Proof.
  intros [Ex Ey]. destruct st as [inside j]. unfold Controls.pipStep.
  unfold Controls.Qgtb, Controls.Qltb.
  rewrite (Qle_bool_eq _ _ (py p) (py q) (Qeq_refl _) Ey).
  rewrite (Qle_bool_eq (py (at_ polygon j)) _ (py p) (py q) (Qeq_refl _) Ey).
  rewrite (Qle_bool_eq
             ((px (at_ polygon j) - px (at_ polygon i))
              * (py p - py (at_ polygon i))
              / (py (at_ polygon j) - py (at_ polygon i))
              + px (at_ polygon i))
             ((px (at_ polygon j) - px (at_ polygon i))
              * (py q - py (at_ polygon i))
              / (py (at_ polygon j) - py (at_ polygon i))
              + px (at_ polygon i))
             (px p) (px q)); [reflexivity| |exact Ex].
  rewrite Ey. reflexivity.
Qed.

Lemma pip_comp (p q : Point) (polygon : list Point) :
  samePoint p q ->
  Controls.isPointInPolygon p polygon = Controls.isPointInPolygon q polygon.
Proof.
  intros E. unfold Controls.isPointInPolygon.
  destruct (length polygon <? 3)%nat; [reflexivity|]. f_equal.
  generalize (false, (length polygon - 1)%nat).
  induction (seq 0 (length polygon)) as [|i l IH]; intros st; [reflexivity|].
  cbn [fold_left]. rewrite (pipStep_comp p q polygon st i E). apply IH.
Qed.

(** The ray-casting test is the same after a common shift. *)
Lemma pip_translate (t p : Point) (polygon : list Point) :
  Controls.isPointInPolygon (translate t p) (map (translate t) polygon)
  = Controls.isPointInPolygon p polygon.
Proof.
  unfold Controls.isPointInPolygon. rewrite length_map.
  destruct (Nat.ltb_spec (length polygon) 3) as [L|L]; [reflexivity|].
  f_equal.
  apply (fold_pip_ext _ _ (length polygon)).
  - intros st i Hst Hi. apply pipStep_translate; assumption.
  - intros st i. apply pipStep_snd.
  - cbn [snd]. lia.
  - intros i Hi. apply in_seq in Hi. lia.
Qed.

End PointInPolygonInvariance.

(** X27: with numbers idealised as exact rationals, [isPointInPolygon] does
    not depend on where the figure lies: moving the point and every vertex
    of the polygon by the same offset leaves the answer unchanged. *)
Theorem isPointInPolygon_translate (t p : Point) (polygon : list Point) :
  Controls.isPointInPolygon (translate t p) (map (translate t) polygon)
  = Controls.isPointInPolygon p polygon.
Proof. apply pip_translate. Qed.

Section UnionOrder.

Lemma boxStep_boxOf (seen : list Point) (b : Controls.Box) (q : Point) :
  boxOf seen b -> boxOf (seen ++ [q]) (Controls.boxStep b q).
Proof.
  destruct b as [[[[a b] c] d]|]; cbn [boxOf Controls.boxStep].
  - intros (A & B & C & D).
    repeat split; first [apply lowest_snoc|apply highest_snoc]; assumption.
  - intros ->. cbn [app].
    repeat split; first [apply lowest_single|apply highest_single].
Qed.

Lemma fold_boxStep_boxOf (points seen : list Point) (b : Controls.Box) :
  boxOf seen b -> boxOf (seen ++ points) (fold_left Controls.boxStep points b).
Proof.
  revert seen b. induction points as [|q points IH]; intros seen b H.
  - rewrite app_nil_r. exact H.
  - cbn [fold_left].
    replace (seen ++ q :: points) with ((seen ++ [q]) ++ points)
      by (rewrite <- app_assoc; reflexivity).
    apply IH, boxStep_boxOf, H.
Qed.

Lemma boundingBox_boxOf (polygons : list (list Point)) :
  boxOf (concat polygons) (Controls.boundingBox polygons).
Proof.
  unfold Controls.boundingBox.
  assert (G : forall polygons seen b,
             boxOf seen b ->
             boxOf (seen ++ concat polygons)
               (fold_left (fun b polygon => fold_left Controls.boxStep polygon b)
                  polygons b)).
  { clear. induction polygons as [|p polygons IH]; intros seen b H.
    - cbn. rewrite app_nil_r. exact H.
    - cbn [fold_left concat]. rewrite app_assoc.
      apply IH, fold_boxStep_boxOf, H. }
  apply (G polygons [] None). reflexivity.
Qed.

Lemma concat_perm_In (l l' : list (list Point)) :
  Permutation l l' -> forall q, In q (concat l) <-> In q (concat l').
Proof.
  intros P q. rewrite !in_concat. split; intros (p & Hp & Hq); exists p;
    (split; [|exact Hq]).
  - eapply Permutation_in; [exact P|exact Hp].
  - eapply Permutation_in; [apply Permutation_sym, P|exact Hp].
Qed.

Lemma existsb_perm (f : list Point -> bool) (l l' : list (list Point)) :
  Permutation l l' -> existsb f l = existsb f l'.
Proof.
  intros P. induction P; cbn; try congruence.
  - destruct (f y), (f x); reflexivity.
Qed.

Lemma existsb_ext_pip (p q : Point) (l : list (list Point)) :
  samePoint p q ->
  existsb (Controls.isPointInPolygon p) l
  = existsb (Controls.isPointInPolygon q) l.
Proof.
  intros E. induction l as [|a l IH]; cbn; [reflexivity|].
  rewrite (pip_comp p q a E), IH. reflexivity.
Qed.

End UnionOrder.




(** X28: the union estimate does not depend on the order of the polygons:
    for two lists that are permutations of each other [calculateUnionArea]
    returns the same number. *)
Theorem calculateUnionArea_order (polygons polygons' : list (list Point)) :
  Permutation polygons polygons' ->
  Controls.calculateUnionArea polygons = Controls.calculateUnionArea polygons'.
Proof.
  intros P.
  destruct polygons as [|p1 [|p2 rest]].
  - apply Permutation_nil in P. subst. reflexivity.
  - apply Permutation_length_1_inv in P. subst. reflexivity.
  - pose proof (Permutation_length P) as Len.
    destruct polygons' as [|q1 [|q2 rest']]; try discriminate Len.
    set (l := p1 :: p2 :: rest) in *. set (l' := q1 :: q2 :: rest') in *.
    cbn [Controls.calculateUnionArea].
    change (Some
              (inject_Z (Z.of_nat (Controls.countCovered l
                                     (Controls.boundingBox l)))
               * Controls.cellSize * Controls.cellSize / (50 * 50))
            = Some
                (inject_Z (Z.of_nat (Controls.countCovered l'
                                       (Controls.boundingBox l')))
                 * Controls.cellSize * Controls.cellSize / (50 * 50))).
    do 4 f_equal. f_equal. f_equal.
    rewrite !countCovered_filter.
    pose proof (boundingBox_boxOf l) as B.
    pose proof (boundingBox_boxOf l') as B'.
    pose proof (concat_perm_In l l' P) as HI.
    destruct (Controls.boundingBox l) as [[[[a b] c] d]|];
      destruct (Controls.boundingBox l') as [[[[a' b'] c'] d']|];
      cbn [boxOf] in B, B'.
    + destruct B as (A1 & A2 & A3 & A4). destruct B' as (B1 & B2 & B3 & B4).
      pose proof (lowest_unique _ _ _ _ _ HI A1 B1) as Ea.
      pose proof (highest_unique _ _ _ _ _ HI A2 B2) as Eb.
      pose proof (lowest_unique _ _ _ _ _ HI A3 B3) as Ec.
      pose proof (highest_unique _ _ _ _ _ HI A4 B4) as Ed.
      assert (G : gridCells (Some (a, b, c, d))
                  = gridCells (Some (a', b', c', d'))).
      { unfold gridCells. cbn [Controls.gridSize fst snd].
        rewrite (Qceiling_comp ((b - a) / Controls.cellSize)
                   ((b' - a') / Controls.cellSize))
          by (rewrite Ea, Eb; reflexivity).
        rewrite (Qceiling_comp ((d - c) / Controls.cellSize)
                   ((d' - c') / Controls.cellSize))
          by (rewrite Ec, Ed; reflexivity).
        reflexivity. }
      rewrite G. f_equal. apply filter_ext. intros [i j].
      unfold cellCovered. cbn [fst snd].
      rewrite (existsb_perm _ l l' P).
      apply existsb_ext_pip. cbn [Controls.cellCenter]. split; cbn [px py].
      * rewrite Ea. reflexivity.
      * rewrite Ec. reflexivity.
    + destruct B as [[[q [Hq _]] _] _]. apply HI in Hq. rewrite B' in Hq.
      destruct Hq.
    + destruct B' as [[[q [Hq _]] _] _]. apply HI in Hq. rewrite B in Hq.
      destruct Hq.
    + reflexivity.
Qed.

Lemma calculateUnionArea_order_witness :
  Controls.calculateUnionArea [square; triangle]
  = Controls.calculateUnionArea [triangle; square].
Proof.
  apply (calculateUnionArea_order [square; triangle] [triangle; square]).
  apply perm_swap.
Defined.

Section UnionTranslation.

Variable t : Point.

Lemma lowest_translate_x (points : list Point) (m : Q) :
  lowest px points m -> lowest px (map (translate t) points) (m + px t).
Proof.
  intros [(a & Ia & Ea) Hall]. split.
  - exists (translate t a). split; [apply in_map, Ia|].
    cbn [translate px]. rewrite Ea. reflexivity.
  - intros q Hq. apply in_map_iff in Hq as (r & <- & Hr).
    cbn [translate px]. apply Qplus_le_l, Hall, Hr.
Qed.

Lemma lowest_translate_y (points : list Point) (m : Q) :
  lowest py points m -> lowest py (map (translate t) points) (m + py t).
Proof.
  intros [(a & Ia & Ea) Hall]. split.
  - exists (translate t a). split; [apply in_map, Ia|].
    cbn [translate py]. rewrite Ea. reflexivity.
  - intros q Hq. apply in_map_iff in Hq as (r & <- & Hr).
    cbn [translate py]. apply Qplus_le_l, Hall, Hr.
Qed.

Lemma highest_translate_x (points : list Point) (m : Q) :
  highest px points m -> highest px (map (translate t) points) (m + px t).
Proof.
  intros [(a & Ia & Ea) Hall]. split.
  - exists (translate t a). split; [apply in_map, Ia|].
    cbn [translate px]. rewrite Ea. reflexivity.
  - intros q Hq. apply in_map_iff in Hq as (r & <- & Hr).
    cbn [translate px]. apply Qplus_le_l, Hall, Hr.
Qed.

Lemma highest_translate_y (points : list Point) (m : Q) :
  highest py points m -> highest py (map (translate t) points) (m + py t).
Proof.
  intros [(a & Ia & Ea) Hall]. split.
  - exists (translate t a). split; [apply in_map, Ia|].
    cbn [translate py]. rewrite Ea. reflexivity.
  - intros q Hq. apply in_map_iff in Hq as (r & <- & Hr).
    cbn [translate py]. apply Qplus_le_l, Hall, Hr.
Qed.

Lemma existsb_translate (p : Point) (l : list (list Point)) :
  existsb (Controls.isPointInPolygon (translate t p))
    (map (map (translate t)) l)
  = existsb (Controls.isPointInPolygon p) l.
Proof.
  induction l as [|a l IH]; cbn [map existsb]; [reflexivity|].
  rewrite pip_translate, IH. reflexivity.
Qed.

End UnionTranslation.

(** X29: with numbers idealised as exact rationals, the union estimate does
    not depend on where the polygons lie: moving every vertex of every
    polygon by the same offset leaves the result of [calculateUnionArea]
    unchanged, for any number of polygons. *)
Theorem calculateUnionArea_translate (t : Point) (polygons : list (list Point)) :
  Controls.calculateUnionArea (map (map (translate t)) polygons)
  = Controls.calculateUnionArea polygons.
Proof.
  destruct polygons as [|p1 [|p2 rest]].
  - reflexivity.
  - cbn [map Controls.calculateUnionArea].
    rewrite !calculatePolygonArea_value, length_map.
    destruct (length p1 <? 3)%nat; [reflexivity|].
    rewrite (toFixed1_comp
               (Qabs (Shoelace.shoelace (map (translate t) p1)) / 2 / 2500)
               (Qabs (Shoelace.shoelace p1) / 2 / 2500))
      by (rewrite shoelace_translate; reflexivity).
    reflexivity.
  - set (l := p1 :: p2 :: rest).
    change (map (map (translate t)) l)
      with (map (translate t) p1 :: map (translate t) p2
            :: map (map (translate t)) rest).
    cbn [Controls.calculateUnionArea].
    change (map (translate t) p1 :: map (translate t) p2
            :: map (map (translate t)) rest)
      with (map (map (translate t)) l).
    fold l.
    set (l' := map (map (translate t)) l).
    assert (C : Controls.countCovered l' (Controls.boundingBox l')
                = Controls.countCovered l (Controls.boundingBox l));
      [|rewrite C; reflexivity].
    rewrite !countCovered_filter.
    pose proof (boundingBox_boxOf l) as B.
    pose proof (boundingBox_boxOf l') as B'.
    assert (HC : concat l' = map (translate t) (concat l))
      by (unfold l'; rewrite concat_map; reflexivity).
    rewrite HC in B'.
    destruct (Controls.boundingBox l) as [[[[a b] c] d]|];
      destruct (Controls.boundingBox l') as [[[[a' b'] c'] d']|];
      cbn [boxOf] in B, B'.
    + destruct B as (A1 & A2 & A3 & A4). destruct B' as (B1 & B2 & B3 & B4).
      assert (HI : forall q : Point,
                 In q (map (translate t) (concat l))
                 <-> In q (map (translate t) (concat l)))
        by (intros q; reflexivity).
      pose proof (lowest_unique _ _ _ _ _ HI B1 (lowest_translate_x t _ _ A1))
        as Ea.
      pose proof (highest_unique _ _ _ _ _ HI B2 (highest_translate_x t _ _ A2))
        as Eb.
      pose proof (lowest_unique _ _ _ _ _ HI B3 (lowest_translate_y t _ _ A3))
        as Ec.
      pose proof (highest_unique _ _ _ _ _ HI B4 (highest_translate_y t _ _ A4))
        as Ed.
      assert (G : gridCells (Some (a', b', c', d'))
                  = gridCells (Some (a, b, c, d))).
      { unfold gridCells. cbn [Controls.gridSize fst snd].
        rewrite (Qceiling_comp ((b' - a') / Controls.cellSize)
                   ((b - a) / Controls.cellSize))
          by (rewrite Ea, Eb; unfold Qdiv; ring).
        rewrite (Qceiling_comp ((d' - c') / Controls.cellSize)
                   ((d - c) / Controls.cellSize))
          by (rewrite Ec, Ed; unfold Qdiv; ring).
        reflexivity. }
      rewrite G. f_equal. apply filter_ext. intros [i j].
      unfold cellCovered. cbn [fst snd].
      rewrite (existsb_ext_pip
                 (Controls.cellCenter (Some (a', b', c', d')) i j)
                 (translate t (Controls.cellCenter (Some (a, b, c, d)) i j))).
      * apply existsb_translate.
      * cbn [Controls.cellCenter]. unfold translate. split; cbn [px py].
        -- rewrite Ea. ring.
        -- rewrite Ec. ring.
    + destruct B as [[[q [Hq _]] _] _].
      apply (in_map (translate t)) in Hq. rewrite B' in Hq. destruct Hq.
    + destruct B' as [[[q [Hq _]] _] _]. rewrite B in Hq. destruct Hq.
    + reflexivity.
Qed.
